(** * Messaging API clients: error classification, key casing, request helpers

    A shallow embedding of the parts of the messaging-apis clients that carry
    behaviour beyond forwarding a request:

    - the Messenger batch helpers [getErrorMessage] and [isError613];
    - the Slack [callMethod] request/response wrapper;
    - the LINE [handleError] and the profile / rich-menu getters;
    - the Messenger [createMessage] / [validateQuickReplies] helpers;
    - the key-casing transformers of [messaging-api-common].

    JavaScript values are embedded as a tree type [JSValue]; abrupt
    completions ([throw], rejected promises) are embedded in the sum type
    [Completion]. *)

From Stdlib Require Import List ZArith NArith Bool Ascii String Lia.
From Stdlib Require Import Floats.SpecFloat.
Import ListNotations.

Set Implicit Arguments.
Set Warnings "-register-all".

(** ** JavaScript strings

    A JavaScript string is a sequence of UTF-16 code units. *)

Module JSStr.

Definition code_unit := N.
Definition JSString := list code_unit.

(** Literal strings of the source text, all ASCII. *)
Definition js (s : string) : JSString :=
  map N_of_ascii (list_ascii_of_string s).

Definition eqb (a b : JSString) : bool :=
  if list_eq_dec N.eq_dec a b then true else false.

(** [String.prototype.length]. *)
Definition length (s : JSString) : Z := Z.of_nat (List.length s).

(** Decimal digits of a non-negative integer. *)
Fixpoint digits_fuel (fuel : nat) (n : Z) (acc : JSString) : JSString :=
  match fuel with
  | O => acc
  | S f =>
      let d := (48 + Z.to_N (n mod 10))%N in
      if (n <? 10)%Z then d :: acc else digits_fuel f (n / 10)%Z (d :: acc)
  end.

Definition of_Z_nonneg (n : Z) : JSString :=
  digits_fuel (S (Z.to_nat (Z.log2 n))) n [].

(** The white space and line terminator code units removed by
    [String.prototype.trim]. *)
Definition is_trim_space (c : code_unit) : bool :=
  existsb (N.eqb c)
    [9; 10; 11; 12; 13; 32; 160; 5760; 8232; 8233; 8239; 8287; 12288; 65279]%N
  || ((8192 <=? c) && (c <=? 8202))%N.

Fixpoint trim_start (s : JSString) : JSString :=
  match s with
  | c :: r => if is_trim_space c then trim_start r else s
  | [] => []
  end.

Definition trim (s : JSString) : JSString :=
  rev (trim_start (rev (trim_start s))).

(** [prefix p s]: [s] starts with [p]. *)
Fixpoint prefix (p s : JSString) : bool :=
  match p, s with
  | [], _ => true
  | a :: p', b :: s' => N.eqb a b && prefix p' s'
  | _ :: _, [] => false
  end.

(** [includes p s]: the literal [p] occurs somewhere in [s]; this is what a
    regular expression made of literal characters, without flags, tests. *)
Fixpoint includes (p s : JSString) : bool :=
  prefix p s ||
  match s with
  | [] => false
  | _ :: s' => includes p s'
  end.

End JSStr.

Import JSStr.

(** ** JavaScript numbers

    Numbers are IEEE 754 binary64 values, taken from the specification of
    floating-point numbers of the standard library. *)

Module JSNumber.
Local Open Scope Z_scope.

Definition Number := spec_float.
Definition prec := 53.
Definition emax := 1024.

(** The binary64 value nearest to [m * 10^e] (ties to even), negated when
    [neg]; [m] is non-negative. *)
Definition of_decimal (neg : bool) (m e : Z) : Number :=
  match m with
  | Zpos p =>
      match e with
      | Zneg _ =>
          SFdiv prec emax (S754_finite neg p 0)
                (S754_finite false (Z.to_pos (10 ^ (- e))) 0)
      | _ => binary_normalize prec emax ((if neg then -1 else 1) * (m * 10 ^ e)) 0 false
      end
  | _ => S754_zero neg
  end.

Definition of_Z (n : Z) : Number := of_decimal (n <? 0) (Z.abs n) 0.

(** [ToBoolean] on numbers: zero and NaN are falsy. *)
Definition to_boolean (x : Number) : bool :=
  match x with
  | S754_zero _ | S754_nan => false
  | _ => true
  end.

Definition is_value (m e : positive) (ez : Z) (x : Number) : bool :=
  match x with
  | S754_finite false m' e' => Pos.eqb m m' && Z.eqb ez e'
  | _ => false
  end.

(** [scaled m e j] is the pair [(a, b)] with [a / b = m * 2^e * 10^j]. *)
Definition scaled (m : positive) (e j : Z) : Z * Z :=
  (Zpos m * 2 ^ Z.max e 0 * 10 ^ Z.max j 0,
   2 ^ Z.max (- e) 0 * 10 ^ Z.max (- j) 0).

(** The decimal exponent [n] with [10^(n-1) <= m * 2^e < 10^n]. *)
Fixpoint adjust_exponent (fuel : nat) (m : positive) (e n : Z) : Z :=
  match fuel with
  | O => n
  | S f =>
      let '(a, b) := scaled m e (- n) in
      if b <=? a then adjust_exponent f m e (n + 1)
      else
        let '(a', b') := scaled m e (1 - n) in
        if a' <? b' then adjust_exponent f m e (n - 1) else n
  end.

Definition decimal_exponent (m : positive) (e : Z) : Z :=
  adjust_exponent 8 m e (((Z.log2 (Zpos m) + e) * 30103) / 100000 + 1).

(** The shortest digit string: the least [k] for which some [k]-digit
    integer [s] has [s * 10^(n-k)] round to the number; of two candidates the
    nearer one is taken. The result is [(s, n - k)]. *)
Fixpoint shortest_from (fuel : nat) (m : positive) (e n k : Z) : Z * Z :=
  let '(a, b) := scaled m e (k - n) in
  let lo := a / b in
  let hi := lo + 1 in
  let ok_lo := is_value m m e (of_decimal false lo (n - k)) in
  let ok_hi := is_value m m e (of_decimal false hi (n - k)) in
  let lo_nearer := 2 * a <=? (2 * lo + 1) * b in
  match fuel with
  | O => (lo, n - k)
  | S f =>
      if ok_lo && (negb ok_hi || lo_nearer) then (lo, n - k)
      else if ok_hi then (hi, n - k)
      else shortest_from f m e n (k + 1)
  end.

Fixpoint strip_zeros (fuel : nat) (s x : Z) : Z * Z :=
  match fuel with
  | O => (s, x)
  | S f => if (0 <? s) && (s mod 10 =? 0) then strip_zeros f (s / 10) (x + 1) else (s, x)
  end.

Definition shortest (m : positive) (e : Z) : Z * Z :=
  let n := decimal_exponent m e in
  let '(s, x) := shortest_from 20 m e n 1 in
  strip_zeros 25 s x.

Definition zeros (n : Z) : JSString := repeat 48%N (Z.to_nat n).

(** Number::toString for radix 10. *)
Definition format (s x : Z) : JSString :=
  let ds := of_Z_nonneg s in
  let k := JSStr.length ds in
  let n := x + k in
  if (k <=? n) && (n <=? 21) then ds ++ zeros (n - k)
  else if (0 <? n) && (n <=? 21) then
    firstn (Z.to_nat n) ds ++ js "." ++ skipn (Z.to_nat n) ds
  else if (-6 <? n) && (n <=? 0) then js "0." ++ zeros (- n) ++ ds
  else
    let ex := js (if n - 1 <? 0 then "e-" else "e+") ++ of_Z_nonneg (Z.abs (n - 1)) in
    if k =? 1 then ds ++ ex
    else firstn 1 ds ++ js "." ++ skipn 1 ds ++ ex.

Definition to_string (x : Number) : JSString :=
  match x with
  | S754_nan => js "NaN"
  | S754_zero _ => js "0"
  | S754_infinity s => js (if s then "-Infinity" else "Infinity")
  | S754_finite s m e =>
      let '(d, x) := shortest m e in
      (if s then js "-" else []) ++ format d x
  end.

(** *** Reading numerals *)

Definition is_digit (c : code_unit) : bool := ((48 <=? c) && (c <=? 57))%N.

Fixpoint span_digits (s : JSString) : JSString * JSString :=
  match s with
  | c :: r =>
      if is_digit c then let '(d, rest) := span_digits r in (c :: d, rest)
      else ([], s)
  | [] => ([], [])
  end.

Definition digits_value (d : JSString) : Z :=
  fold_left (fun acc c => 10 * acc + Z.of_N (c - 48)) d 0.

(** The exponent [e digits] with its optional sign, when there is one. *)
Definition exponent (s : JSString) : option (Z * JSString) :=
  match s with
  | c :: r =>
      if (N.eqb c 101 || N.eqb c 69)%bool then
        let '(neg, r') :=
          match r with
          | 45%N :: t => (true, t)
          | 43%N :: t => (false, t)
          | _ => (false, r)
          end in
        match span_digits r' with
        | ([], _) => None
        | (d, rest) => Some (if neg then (- digits_value d) else digits_value d, rest)
        end
      else Some (0, s)
  | [] => Some (0, [])
  end.

Definition hex_value (c : code_unit) : option N :=
  if is_digit c then Some (c - 48)%N
  else if ((97 <=? c) && (c <=? 102))%N then Some (c - 87)%N
  else if ((65 <=? c) && (c <=? 70))%N then Some (c - 55)%N
  else None.

Definition nan : Number := S754_nan.

(** The value of a run of digits in base [b], [nan] when the run is empty
    or holds another character. *)
Definition radix_value (b : N) (d : JSString) : Number :=
  match d with
  | [] => nan
  | _ =>
      if forallb (fun c => match hex_value c with
                           | Some h => (h <? b)%N
                           | None => false
                           end) d
      then of_Z (fold_left
                   (fun acc c => Z.of_N b * acc
                                 + Z.of_N (match hex_value c with Some h => h | None => 0 end))
                   d 0)
      else nan
  end.

(** StrUnsignedDecimalLiteral: [Infinity], or digits with an optional
    fraction and exponent, where the digits before or after the point may
    be missing but not both. *)
Definition unsigned_decimal (neg : bool) (s : JSString) : Number :=
  if JSStr.eqb s (js "Infinity") then S754_infinity neg
  else
    let '(ip, r1) := span_digits s in
    let '(fp, r2) :=
      match r1 with
      | 46%N :: r => span_digits r
      | _ => ([], r1)
      end in
    match ip ++ fp with
    | [] => nan
    | ds =>
        match exponent r2 with
        | Some (ex, []) => of_decimal neg (digits_value ds) (ex - Z.of_nat (List.length fp))
        | _ => nan
        end
    end.

(** StringToNumber: the number denoted by a string, [nan] when it denotes
    none; the empty string and white space denote zero. *)
Definition of_string (s : JSString) : Number :=
  match JSStr.trim s with
  | [] => S754_zero false
  | 48%N :: c :: r =>
      if (N.eqb c 120 || N.eqb c 88)%bool then radix_value 16 r
      else if (N.eqb c 111 || N.eqb c 79)%bool then radix_value 8 r
      else if (N.eqb c 98 || N.eqb c 66)%bool then radix_value 2 r
      else unsigned_decimal false (48%N :: c :: r)
  | 45%N :: r => unsigned_decimal true r
  | 43%N :: r => unsigned_decimal false r
  | t => unsigned_decimal false t
  end.

End JSNumber.

(** ** JavaScript values

    The values that reach the modelled functions are data trees: the
    results of [JSON.parse], request options and response payloads.
    An object is the list of its own properties in creation order. *)

Inductive JSValue : Type :=
| JUndefined
| JNull
| JBool (b : bool)
| JNumber (n : JSNumber.Number)
| JString (s : JSString)
| JArray (elems : list JSValue)
| JObject (props : list (JSString * JSValue)).

Definition Props := list (JSString * JSValue).

(** Induction over values that reaches the elements of arrays and the
    property values of objects. *)
Section JSValue_induction.
Variable P : JSValue -> Prop.
Hypothesis Hundef : P JUndefined.
Hypothesis Hnull : P JNull.
Hypothesis Hbool : forall b, P (JBool b).
Hypothesis Hnum : forall n, P (JNumber n).
Hypothesis Hstr : forall s, P (JString s).
Hypothesis Harr : forall l, Forall P l -> P (JArray l).
Hypothesis Hobj : forall o, Forall (fun kv => P (snd kv)) o -> P (JObject o).

Fixpoint JSValue_deep_ind (v : JSValue) : P v :=
  match v with
  | JUndefined => Hundef
  | JNull => Hnull
  | JBool b => Hbool b
  | JNumber n => Hnum n
  | JString s => Hstr s
  | JArray l =>
      Harr ((fix go (l : list JSValue) : Forall P l :=
               match l with
               | [] => Forall_nil P
               | x :: r => Forall_cons x (JSValue_deep_ind x) (go r)
               end) l)
  | JObject o =>
      Hobj ((fix go (o : Props) : Forall (fun kv => P (snd kv)) o :=
               match o with
               | [] => Forall_nil _
               | kv :: r => Forall_cons kv (JSValue_deep_ind (snd kv)) (go r)
               end) o)
  end.
End JSValue_induction.

(** *** Own properties *)

Module Obj.
Section Obj.
Variable V : Type.

(** [o[k]] for an own property, [None] when there is none. *)
Fixpoint get (o : list (JSString * V)) (k : JSString) : option V :=
  match o with
  | [] => None
  | (k', v) :: r => if JSStr.eqb k' k then Some v else get r k
  end.

(** [o[k] = v]: an existing property keeps its place, a new one is
    added last. *)
Fixpoint set (o : list (JSString * V)) (k : JSString) (v : V) : list (JSString * V) :=
  match o with
  | [] => [(k, v)]
  | (k', v') :: r =>
      if JSStr.eqb k' k then (k, v) :: r else (k', v') :: set r k v
  end.

Definition has (o : list (JSString * V)) (k : JSString) : bool :=
  match get o k with Some _ => true | None => false end.

(** [lodash.omit] on own properties. *)
Definition omit (o : list (JSString * V)) (ks : list JSString) : list (JSString * V) :=
  filter (fun kv => negb (existsb (JSStr.eqb (fst kv)) ks)) o.

(** The object holding the entries of a list, later entries overwriting
    earlier ones with the same key. *)
Definition of_entries (l : list (JSString * V)) : list (JSString * V) :=
  fold_left (fun acc kv => set acc (fst kv) (snd kv)) l [].
End Obj.
End Obj.

(** ** HTTP exchanges and thrown values *)

(** The description of a request: what is handed to the HTTP library, and
    what it attaches to responses and to its errors. The headers that the
    clients set per request are [Authorization] and [Content-Type]. *)
Record RequestConfig : Type := {
  cfg_method : JSString;
  cfg_url : JSString;
  cfg_data : JSValue;
  cfg_authorization : option JSString;
  cfg_content_type : option JSString;
  cfg_response_type : option JSString
}.

(** A response as delivered by the HTTP library; [res_request] stands for
    the underlying request handle. *)
Record AxiosResponse : Type := {
  res_status : Z;
  res_data : JSValue;
  res_config : RequestConfig;
  res_request : N
}.

Inductive ErrorName : Type :=
| SyntaxError
| TypeError
| InvariantViolation
| NetworkError
| AxiosError.

(** A thrown [Error] object: its name and message and, for errors of the
    HTTP layer, the request configuration, request and response. *)
Record JSError : Type := {
  err_name : ErrorName;
  err_message : JSString;
  err_config : option RequestConfig;
  err_request : option N;
  err_response : option AxiosResponse
}.

Definition plain_error (n : ErrorName) (msg : string) : JSError :=
  {| err_name := n; err_message := js msg;
     err_config := None; err_request := None; err_response := None |}.

(** The outcome of evaluating an expression or awaiting a promise: a value,
    or a thrown error (a rejected promise). *)
Inductive Completion (A : Type) : Type :=
| Normal (a : A)
| Throw (e : JSError).

Arguments Normal {A} a.
Arguments Throw {A} e.

Definition bind {A B : Type} (c : Completion A) (k : A -> Completion B) : Completion B :=
  match c with
  | Normal a => k a
  | Throw e => Throw e
  end.

(** [try { c } catch (err) { h err }]. *)
Definition try_catch {A : Type} (c : Completion A) (h : JSError -> Completion A) : Completion A :=
  match c with
  | Normal a => Normal a
  | Throw e => h e
  end.

Declare Scope js_scope.
Delimit Scope js_scope with js.
Notation "x <- c ;; k" := (bind c (fun x => k))
  (at level 61, c at next level, right associativity) : js_scope.
Notation "c ;;; k" := (bind c (fun _ => k))
  (at level 61, right associativity) : js_scope.
Local Open Scope js_scope.

Definition returns {A : Type} (c : Completion A) : Prop := exists a, c = Normal a.
Definition throws {A : Type} (c : Completion A) : Prop := exists e, c = Throw e.

(** ** Abstract operations of the language *)

Definition type_error (msg : string) {A : Type} : Completion A :=
  Throw (plain_error TypeError msg).

(** [ToBoolean]. *)
Definition ToBoolean (v : JSValue) : bool :=
  match v with
  | JUndefined | JNull => false
  | JBool b => b
  | JNumber n => JSNumber.to_boolean n
  | JString s => match s with [] => false | _ => true end
  | JArray _ | JObject _ => true
  end.

(** [Array.prototype.join] on already rendered elements. *)
Fixpoint join (sep : JSString) (l : list JSString) : JSString :=
  match l with
  | [] => []
  | [x] => x
  | x :: r => x ++ sep ++ join sep r
  end.

(** Evaluates the completions of a list from left to right. *)
Fixpoint sequence {A : Type} (l : list (Completion A)) : Completion (list A) :=
  match l with
  | [] => Normal []
  | c :: r => x <- c ;; xs <- sequence r ;; Normal (x :: xs)
  end.

(** [ToString]. An array is rendered by [Array.prototype.toString], which
    joins its elements with a comma. A plain object is rendered by
    [Object.prototype.toString], unless it has an own property [toString]:
    that property shadows the inherited method, it holds data and cannot be
    called, and the inherited [valueOf] returns the object itself, so the
    conversion fails with a [TypeError]. *)
Fixpoint ToString (v : JSValue) : Completion JSString :=
  match v with
  | JUndefined => Normal (js "undefined")
  | JNull => Normal (js "null")
  | JBool b => Normal (js (if b then "true" else "false"))
  | JNumber n => Normal (JSNumber.to_string n)
  | JString s => Normal s
  | JArray l =>
      parts <- sequence
        (map (fun x =>
                match x with
                | JUndefined | JNull => Normal []
                | _ => ToString x
                end) l) ;;
      Normal (join (js ",") parts)
  | JObject o =>
      if Obj.has o (js "toString")
      then type_error "Cannot convert object to primitive value"
      else Normal (js "[object Object]")
  end.

(** An array index written as a property name. *)
Definition index_of_key (k : JSString) : option nat :=
  match k with
  | [] => None
  | c :: r =>
      if forallb (fun d => (48 <=? d) && (d <=? 57))%N k
         && (negb (N.eqb c 48) || match r with [] => true | _ => false end)
      then Some (fold_left (fun acc d => 10 * acc + N.to_nat (d - 48)) k 0)
      else None
  end.

(** Property read [v.k], for a name [k] that none of the built-in
    prototypes defines, together with [length] and the indices of strings
    and arrays. Reading a property of [undefined] or [null] throws. *)
Definition Get (v : JSValue) (k : JSString) : Completion JSValue :=
  match v with
  | JUndefined | JNull => type_error "Cannot read properties of undefined or null"
  | JObject o =>
      Normal (match Obj.get o k with Some x => x | None => JUndefined end)
  | JArray l =>
      if JSStr.eqb k (js "length") then Normal (JNumber (JSNumber.of_Z (Z.of_nat (List.length l))))
      else Normal (match index_of_key k with
                   | Some i => nth i l JUndefined
                   | None => JUndefined
                   end)
  | JString s =>
      if JSStr.eqb k (js "length") then Normal (JNumber (JSNumber.of_Z (JSStr.length s)))
      else Normal (match index_of_key k with
                   | Some i => match nth_error s i with
                               | Some c => JString [c]
                               | None => JUndefined
                               end
                   | None => JUndefined
                   end)
  | JBool _ | JNumber _ => Normal JUndefined
  end.

(** [a || b] on values. *)
Definition or_else (a b : JSValue) : JSValue := if ToBoolean a then a else b.

(** ** [JSON.parse]

    The text is cut into tokens by a machine that reads one code unit at a
    time, and the tokens are assembled by a machine with a stack of open
    arrays and objects. Both are folds over their input. *)

Module JSON.
Import JSNumber.

Inductive token : Type :=
| TLBrace | TRBrace | TLBracket | TRBracket | TColon | TComma
| TStr (s : JSString)
| TAtom (v : JSValue).

Definition is_ws (c : code_unit) : bool :=
  existsb (N.eqb c) [9; 10; 13; 32]%N.

Definition punct (c : code_unit) : option token :=
  if N.eqb c 123 then Some TLBrace
  else if N.eqb c 125 then Some TRBrace
  else if N.eqb c 91 then Some TLBracket
  else if N.eqb c 93 then Some TRBracket
  else if N.eqb c 58 then Some TColon
  else if N.eqb c 44 then Some TComma
  else None.

(** The character denoted by a single-character escape. *)
Definition escape (c : code_unit) : option code_unit :=
  if existsb (N.eqb c) [34; 92; 47]%N then Some c
  else if N.eqb c 98 then Some 8%N
  else if N.eqb c 102 then Some 12%N
  else if N.eqb c 110 then Some 10%N
  else if N.eqb c 114 then Some 13%N
  else if N.eqb c 116 then Some 9%N
  else None.

(** *** Numbers and the three literal names *)

(** The fraction [. digits] of a number, when there is one. *)
Definition fraction (s : JSString) : option (JSString * JSString) :=
  match s with
  | 46%N :: r =>
      match span_digits r with
      | ([], _) => None
      | (f, rest) => Some (f, rest)
      end
  | _ => Some ([], s)
  end.

Definition number (w : JSString) : option JSNumber.Number :=
  let '(neg, r) := match w with 45%N :: t => (true, t) | _ => (false, w) end in
  match span_digits r with
  | ([], _) => None
  | (ip, r1) =>
      match ip with
      | 48%N :: _ :: _ => None
      | _ =>
          match fraction r1 with
          | None => None
          | Some (fp, r2) =>
              match exponent r2 with
              | Some (ex, []) =>
                  Some (JSNumber.of_decimal neg (digits_value (ip ++ fp))
                          (ex - Z.of_nat (List.length fp)))
              | _ => None
              end
          end
      end
  end.

Definition atom (w : JSString) : option JSValue :=
  if JSStr.eqb w (js "null") then Some JNull
  else if JSStr.eqb w (js "true") then Some (JBool true)
  else if JSStr.eqb w (js "false") then Some (JBool false)
  else option_map JNumber (number w).

(** *** Tokens *)

Inductive lex_state : Type :=
| LIdle
| LWord (acc : JSString)
| LStr (acc : JSString)
| LEsc (acc : JSString)
| LHex (acc : JSString) (hex : list N).

(** Accumulators hold their characters in reverse. *)
Definition close_word (acc : JSString) (out : list token) : option (list token) :=
  option_map (fun v => TAtom v :: out) (atom (rev acc)).

Definition lex_idle (c : code_unit) (out : list token) : option (lex_state * list token) :=
  if is_ws c then Some (LIdle, out)
  else match punct c with
       | Some t => Some (LIdle, t :: out)
       | None => if N.eqb c 34 then Some (LStr [], out) else Some (LWord [c], out)
       end.

Definition lex_step (st : lex_state * list token) (c : code_unit)
  : option (lex_state * list token) :=
  let '(s, out) := st in
  match s with
  | LIdle => lex_idle c out
  | LWord acc =>
      if is_ws c || N.eqb c 34 || match punct c with Some _ => true | None => false end
      then match close_word acc out with
           | Some out' => lex_idle c out'
           | None => None
           end
      else Some (LWord (c :: acc), out)
  | LStr acc =>
      if N.eqb c 34 then Some (LIdle, TStr (rev acc) :: out)
      else if N.eqb c 92 then Some (LEsc acc, out)
      else if (c <? 32)%N then None
      else Some (LStr (c :: acc), out)
  | LEsc acc =>
      if N.eqb c 117 then Some (LHex acc [], out)
      else match escape c with
           | Some x => Some (LStr (x :: acc), out)
           | None => None
           end
  | LHex acc hex =>
      match hex_value c with
      | None => None
      | Some h =>
          match hex with
          | [h2; h1; h0] => Some (LStr ((((h0 * 16 + h1) * 16 + h2) * 16 + h)%N :: acc), out)
          | _ => Some (LHex acc (h :: hex), out)
          end
      end
  end.

Fixpoint lex (st : lex_state * list token) (text : JSString)
  : option (lex_state * list token) :=
  match text with
  | [] => Some st
  | c :: r =>
      match lex_step st c with
      | Some st' => lex st' r
      | None => None
      end
  end.

Definition tokens (text : JSString) : option (list token) :=
  match lex (LIdle, []) text with
  | Some (LIdle, out) => Some (rev out)
  | Some (LWord acc, out) => option_map (@rev token) (close_word acc out)
  | _ => None
  end.

(** *** Values *)

(** An open array with its elements so far (in reverse), or an open object
    with its properties so far and the key that awaits its value. *)
Inductive frame : Type :=
| FArray (elems : list JSValue)
| FObject (props : Props) (key : option JSString).

Inductive mode : Type :=
| MValue        (* a value must follow *)
| MFirstElem    (* after [[]: a value or []] *)
| MFirstKey     (* after [{]: a key or [}] *)
| MKey          (* after a comma in an object: a key *)
| MColon        (* after a key *)
| MAfter        (* after a value inside an array or object *)
| MDone (v : JSValue).

(** A finished value goes to the innermost open array or object; a
    repeated key overwrites the earlier value. *)
Definition deliver (v : JSValue) (stack : list frame) : option (list frame * mode) :=
  match stack with
  | [] => Some ([], MDone v)
  | FArray l :: st => Some (FArray (v :: l) :: st, MAfter)
  | FObject o (Some k) :: st => Some (FObject (Obj.set o k v) None :: st, MAfter)
  | FObject _ None :: _ => None
  end.

Definition open_value (t : token) (stack : list frame) : option (list frame * mode) :=
  match t with
  | TAtom v => deliver v stack
  | TStr s => deliver (JString s) stack
  | TLBracket => Some (FArray [] :: stack, MFirstElem)
  | TLBrace => Some (FObject [] None :: stack, MFirstKey)
  | _ => None
  end.

Definition open_key (t : token) (stack : list frame) : option (list frame * mode) :=
  match t, stack with
  | TStr k, FObject o None :: st => Some (FObject o (Some k) :: st, MColon)
  | _, _ => None
  end.

Definition close (t : token) (stack : list frame) : option (list frame * mode) :=
  match t, stack with
  | TRBracket, FArray l :: st => deliver (JArray (rev l)) st
  | TRBrace, FObject o None :: st => deliver (JObject o) st
  | _, _ => None
  end.

Definition parse_step (st : list frame * mode) (t : token) : option (list frame * mode) :=
  let '(stack, m) := st in
  match m with
  | MValue => open_value t stack
  | MFirstElem => match t with TRBracket => close t stack | _ => open_value t stack end
  | MFirstKey => match t with TRBrace => close t stack | _ => open_key t stack end
  | MKey => open_key t stack
  | MColon => match t with TColon => Some (stack, MValue) | _ => None end
  | MAfter =>
      match t, stack with
      | TComma, FArray _ :: _ => Some (stack, MValue)
      | TComma, FObject _ _ :: _ => Some (stack, MKey)
      | _, _ => close t stack
      end
  | MDone _ => None
  end.

Fixpoint parse_tokens (st : list frame * mode) (ts : list token) : option JSValue :=
  match ts with
  | [] => match st with ([], MDone v) => Some v | _ => None end
  | t :: r =>
      match parse_step st t with
      | Some st' => parse_tokens st' r
      | None => None
      end
  end.

Definition parse_text (text : JSString) : option JSValue :=
  match tokens text with
  | Some ts => parse_tokens ([], MValue) ts
  | None => None
  end.

(** [JSON.parse(text)]: the value, or a thrown [SyntaxError]. *)
Definition parse (text : JSString) : Completion JSValue :=
  match parse_text text with
  | Some v => Normal v
  | None => Throw (plain_error SyntaxError "Unexpected token in JSON")
  end.

End JSON.

(** JSON texts and other strings that hold double quotes are written with
    apostrophes in their place. *)
Definition quoted (s : string) : JSString :=
  map (fun c => if N.eqb c 39 then 34%N else c) (js s).

(** [ToNumber]; arrays and objects are first rendered as strings. *)
Definition ToNumber (v : JSValue) : Completion JSNumber.Number :=
  match v with
  | JUndefined => Normal JSNumber.nan
  | JNull => Normal (S754_zero false)
  | JBool b => Normal (JSNumber.of_Z (if b then 1 else 0))
  | JNumber n => Normal n
  | JString s => Normal (JSNumber.of_string s)
  | JArray _ | JObject _ => s <- ToString v ;; Normal (JSNumber.of_string s)
  end.

(** [v > k] for a numeric literal [k]. *)
Definition gt_literal (v : JSValue) (k : Z) : Completion bool :=
  n <- ToNumber v ;; Normal (SFltb (JSNumber.of_Z k) n).

(** [RegExp.prototype.test] for a regular expression without flags whose
    pattern is the sequence of literal characters [pattern]: the argument is
    converted to a string, which is searched for the pattern. *)
Definition RegExp_test (pattern : JSString) (v : JSValue) : Completion bool :=
  s <- ToString v ;; Normal (JSStr.includes pattern s).

(** ** Messenger: classification of batch errors *)

Module MessengerBatch.

(** Modelled from the spec: the type [BatchRequestErrorInfo] of [./types],
    which the source imports and which is not part of the sources at hand.
    A batch result item holds a status code and the raw response body, and
    refers to the request item it answers. *)
Record BatchRequest : Type := {
  method : JSString;
  relative_url : JSString;
  name : option JSString
}.

(** Modelled from the spec: the response of a batch item, of [./types]: a
    status code and the raw body, expected to hold JSON. *)
Record BatchResponse : Type := {
  code : Z;
  body : JSString
}.

(** Modelled from the spec: [BatchRequestErrorInfo] of [./types], a
    failed item of a batch: the request and its response. *)
Record BatchRequestErrorInfo : Type := {
  request : BatchRequest;
  response : BatchResponse
}.

(** [getErrorMessage]: the [message] of the [error] of the parsed body;
    whatever is thrown on the way is caught and replaced by the empty
    string. The property is returned as it is found. *)
Definition getErrorMessage (errInfo : BatchRequestErrorInfo) : Completion JSValue :=
  try_catch
    (parsed <- JSON.parse (body (response errInfo)) ;;
     error <- Get parsed (js "error") ;;
     message <- Get error (js "message") ;;
     Normal message)
    (fun _ => Normal (JString [])).

(** [isError613]: the regular expression [/#613/] tested on the message. *)
Definition isError613 (errInfo : BatchRequestErrorInfo) : Completion bool :=
  message <- getErrorMessage errInfo ;;
  RegExp_test (js "#613") message.

(** The error information for a response body, with some request. *)
Definition with_body (b : JSString) : BatchRequestErrorInfo :=
  {| request := {| method := js "POST"; relative_url := js "me/messages"; name := None |};
     response := {| code := 400; body := b |} |}.

End MessengerBatch.

(** ** Key casing (messaging-api-common) *)

Module KeyCase.

Definition underscore : code_unit := 95%N.

Definition is_upper (c : code_unit) : bool := ((65 <=? c) && (c <=? 90))%N.
Definition is_lower (c : code_unit) : bool := ((97 <=? c) && (c <=? 122))%N.
Definition to_lower (c : code_unit) : code_unit := if is_upper c then (c + 32)%N else c.
Definition to_upper (c : code_unit) : code_unit := if is_lower c then (c - 32)%N else c.

(** The segments of a key between its underscores. *)
Fixpoint split (s : JSString) : list JSString :=
  match s with
  | [] => [[]]
  | c :: r =>
      if N.eqb c underscore then [] :: split r
      else match split r with
           | seg :: segs => (c :: seg) :: segs
           | [] => [[c]]
           end
  end.

Definition capitalize (s : JSString) : JSString :=
  match s with
  | [] => []
  | c :: r => to_upper c :: r
  end.

(** The later segments of a key, rewritten, given the segment before
    them. A non-empty segment that follows a non-empty segment is
    capitalized and joined to it without separator. An underscore that
    borders an empty segment is kept where it is, so that leading, trailing
    and doubled underscores are preserved; the segment that follows it is
    capitalized all the same. *)
Fixpoint camel_tail (prev : JSString) (segs : list JSString) : JSString :=
  match segs with
  | [] => []
  | s :: r =>
      match prev, s with
      | _ :: _, _ :: _ => capitalize s ++ camel_tail s r
      | _, _ => underscore :: capitalize s ++ camel_tail s r
      end
  end.

(** Modelled from the spec: the key rewrite rule towards camelCase of
    [camelcaseKeysDeep], a function of [messaging-api-common] that is not
    part of the sources at hand. The key is split on underscores; the first
    segment, lower-cased already in a snake_case key, is kept as it is;
    each later non-empty segment has its first character upper-cased; the
    segments are concatenated with no separator. Empty segments are
    preserved as literal underscores: the underscores of a leading, a
    trailing or a doubled underscore are all kept, none is dropped and none
    is added. A key without underscore passes through. Letters are the
    ASCII letters. *)
Definition camelCase (k : JSString) : JSString :=
  match split k with
  | [] => []
  | s :: rest => s ++ camel_tail s rest
  end.

(** The segments of a key rewritten to camelCase, for its segments after
    the first: [acc] is the segment of the result that is being built, and
    [prev] the segment of the key before [segs]. *)
Fixpoint merge (acc prev : JSString) (segs : list JSString) : list JSString :=
  match segs with
  | [] => [acc]
  | s :: r =>
      match prev, s with
      | _ :: _, _ :: _ => merge (acc ++ capitalize s) s r
      | _, _ => acc :: merge (capitalize s) s r
      end
  end.

(** Segments that the rule leaves as they are after the segment [a]: of
    two neighbours one is empty, and each is capitalized already. *)
Fixpoint settled (a : JSString) (segs : list JSString) : Prop :=
  match segs with
  | [] => True
  | b :: r => (a = [] \/ b = []) /\ capitalize b = b /\ settled b r
  end.

Fixpoint snake_tail (s : JSString) : JSString :=
  match s with
  | [] => []
  | c :: r => (if is_upper c then [underscore; to_lower c] else [c]) ++ snake_tail r
  end.

(** Modelled from the spec: the key rewrite rule towards snake_case of
    [snakecaseKeysDeep], a function of [messaging-api-common] that is not
    part of the sources at hand. An underscore is inserted before every
    upper-case letter except at position 0, each upper-case letter being a
    boundary of its own, and every letter is lower-cased. *)
Definition snakeCase (k : JSString) : JSString :=
  match k with
  | [] => []
  | c :: r => to_lower c :: snake_tail r
  end.

(** Modelled from the spec: the deep conversion shared by
    [camelcaseKeysDeep] and [snakecaseKeysDeep]. The result is a new tree of
    the same structure: every key of every mapping is rewritten, sequences
    are converted element by element, scalars are returned unchanged. The
    result of converting a mapping is again a mapping: a property whose
    rewritten key was already produced by an earlier property overwrites
    it, as assignment to an object does. *)
Fixpoint mapKeysDeep (f : JSString -> JSString) (v : JSValue) : JSValue :=
  match v with
  | JArray l => JArray (map (mapKeysDeep f) l)
  | JObject o =>
      JObject (Obj.of_entries (map (fun kv => (f (fst kv), mapKeysDeep f (snd kv))) o))
  | _ => v
  end.

(** Modelled from the spec: [camelcaseKeysDeep] of [messaging-api-common],
    the deep conversion with the rule towards camelCase. *)
Definition camelcaseKeysDeep : JSValue -> JSValue := mapKeysDeep camelCase.

(** Modelled from the spec: [snakecaseKeysDeep] of [messaging-api-common],
    the deep conversion with the rule towards snake_case. *)
Definition snakecaseKeysDeep : JSValue -> JSValue := mapKeysDeep snakeCase.

(** Modelled from the spec: the tag that names the style of the keys of a
    mapping. *)
Inductive CaseConvention : Type := Snake | Camel.

(** Modelled from the spec: the conversion of a tree toward a convention.
    The trees are the values [JSValue]: their keys are strings and they
    hold no opaque payload. *)
Definition convert (v : JSValue) (c : CaseConvention) : JSValue :=
  match c with
  | Snake => snakecaseKeysDeep v
  | Camel => camelcaseKeysDeep v
  end.

(** *** Predicates on trees *)

(** Every key of every mapping of the tree satisfies [p]. *)
Fixpoint all_keys (p : JSString -> bool) (v : JSValue) : bool :=
  match v with
  | JArray l => forallb (all_keys p) l
  | JObject o => forallb (fun kv => p (fst kv) && all_keys p (snd kv)) o
  | _ => true
  end.

Fixpoint distinct (ks : list JSString) : bool :=
  match ks with
  | [] => true
  | k :: r => negb (existsb (JSStr.eqb k) r) && distinct r
  end.

(** The tree is made of mappings: no object of it holds a key twice. *)
Fixpoint well_formed (v : JSValue) : bool :=
  match v with
  | JArray l => forallb well_formed l
  | JObject o => distinct (map fst o) && forallb (fun kv => well_formed (snd kv)) o
  | _ => true
  end.

(** A key that converting to snake_case and back gives again. *)
Definition round_trips (k : JSString) : bool :=
  JSStr.eqb (camelCase (snakeCase k)) k.

Definition no_upper (s : JSString) : bool := forallb (fun c => negb (is_upper c)) s.

Definition no_underscore (s : JSString) : bool :=
  forallb (fun c => negb (N.eqb c underscore)) s.

(** The property that a conversion makes of a property. *)
Definition entry (f : JSString -> JSString) (kv : JSString * JSValue) : JSString * JSValue :=
  (f (fst kv), mapKeysDeep f (snd kv)).

End KeyCase.

(** ** The uniform exception *)

(** Modelled from the spec: the class [AxiosError] of the package
    [axios-error], which the clients import and which is not part of the
    sources at hand. [new AxiosError(message, err)] is a uniform exception
    carrying the message given to it and the request config, the request
    and the raw response of [err]. *)
Definition new_AxiosError (message : JSString) (config : option RequestConfig)
    (request : option N) (response : option AxiosResponse) : JSError :=
  {| err_name := AxiosError; err_message := message;
     err_config := config; err_request := request; err_response := response |}.

Definition wrap_AxiosError (message : JSString) (err : JSError) : JSError :=
  new_AxiosError message (err_config err) (err_request err) (err_response err).

(** [o.k] for an object given by its own properties. *)
Definition prop (o : Props) (k : JSString) : JSValue :=
  match Obj.get o k with
  | Some v => v
  | None => JUndefined
  end.

(** [promise.then(onFulfilled, onRejected)]. *)
Definition then2 {A B : Type} (p : Completion A)
    (onFulfilled : A -> Completion B) (onRejected : JSError -> Completion B) : Completion B :=
  match p with
  | Normal a => onFulfilled a
  | Throw e => onRejected e
  end.

(** [invariant(condition, message)] of the package [invariant]. *)
Definition invariant (condition : bool) (message : string) : Completion unit :=
  if condition then Normal tt else Throw (plain_error InvariantViolation message).

(** ** Slack: [SlackOAuthClient.callMethod] *)

Module Slack.
Import KeyCase.

Record SlackOAuthClient : Type := { _token : JSString }.

(** [inputBody.accessToken || inputBody.token || this._token] *)
Definition token_to_use (self : SlackOAuthClient) (inputBody : Props) : JSValue :=
  or_else (or_else (prop inputBody (js "accessToken")) (prop inputBody (js "token")))
          (JString (_token self)).

(** The constant [body] of [callMethod]: the input without [token] and
    [accessToken], followed by the token to use. *)
Definition request_body (self : SlackOAuthClient) (inputBody : Props) : Props :=
  Obj.set (Obj.omit inputBody [js "token"; js "accessToken"]) (js "token")
    (token_to_use self inputBody).

(** The object handed to [querystring.stringify]. *)
Definition wire_body (self : SlackOAuthClient) (inputBody : Props) : JSValue :=
  snakecaseKeysDeep (JObject (request_body self inputBody)).

Section callMethod.
(** [this._axios.post] and [querystring.stringify], supplied by the
    libraries. *)
Variable axios_post : JSString -> JSString -> Completion AxiosResponse.
Variable querystring_stringify : JSValue -> JSString.

Definition callMethod (self : SlackOAuthClient) (method : JSString) (inputBody : Props)
  : Completion JSValue :=
  try_catch
    (response <- axios_post method (querystring_stringify (wire_body self inputBody)) ;;
     let data := camelcaseKeysDeep (res_data response) in
     ok <- Get data (js "ok") ;;
     if negb (ToBoolean ok) then
       error <- Get data (js "error") ;;
       text <- ToString error ;;
       Throw (new_AxiosError (js "Slack API - " ++ text)
                (Some (res_config response)) (Some (res_request response)) (Some response))
     else Normal data)
    (fun err => Throw (wrap_AxiosError (err_message err) err)).
End callMethod.

End Slack.

(** ** LINE: [handleError] and the getters of [LineClient] *)

Module Line.

(** The lines that [details.forEach] appends to the message. *)
Fixpoint append_details (details : list JSValue) (msg : JSString) : Completion JSString :=
  match details with
  | [] => Normal msg
  | detail :: rest =>
      property <- Get detail (js "property") ;;
      p <- ToString property ;;
      message <- Get detail (js "message") ;;
      m <- ToString message ;;
      append_details rest (msg ++ [10%N] ++ js "- " ++ p ++ js ": " ++ m)
  end.

(** [handleError]: never returns. *)
Definition handleError {A : Type} (err : JSError) : Completion A :=
  match err_response err with
  | Some response =>
      let data := res_data response in
      if ToBoolean data then
        message <- Get data (js "message") ;;
        details <- Get data (js "details") ;;
        m <- ToString message ;;
        let msg := js "LINE API - " ++ m in
        some <- (if ToBoolean details
                 then len <- Get details (js "length") ;; gt_literal len 0
                 else Normal false) ;;
        msg' <- (if some : bool
                 then match details with
                      | JArray l => append_details l msg
                      | _ => type_error "details.forEach is not a function"
                      end
                 else Normal msg) ;;
        Throw (wrap_AxiosError msg' err)
      else Throw (wrap_AxiosError (err_message err) err)
  | None => Throw (wrap_AxiosError (err_message err) err)
  end.

(** [err.response && err.response.status === 404]. *)
Definition is_404 (err : JSError) : bool :=
  match err_response err with
  | Some response => Z.eqb (res_status response) 404
  | None => false
  end.

Section LineClient.
(** The HTTP library: a request is answered by a response, or rejected
    with an error. [Buffer.from] and [imageType] come from the platform
    and from the package [image-type]. *)
Variable axios : RequestConfig -> Completion AxiosResponse.
Variable Buffer_from : JSValue -> Completion JSValue.
Variable imageType : JSValue -> option JSString.

(** The [Authorization] header of
    [customAccessToken === undefined ? undefined : { headers: ... }]. *)
Definition authorization (customAccessToken : option JSString) : option JSString :=
  option_map (fun t => js "Bearer " ++ t) customAccessToken.

(** The header of [...(customAccessToken && { Authorization: ... })]. *)
Definition authorization_if_set (customAccessToken : option JSString) : option JSString :=
  match customAccessToken with
  | Some (c :: r) => Some (js "Bearer " ++ c :: r)
  | _ => None
  end.

(** [this._axios.get(url, config)], [.post(url, data, config)],
    [.put(url, data, config)] and [.delete(url, config)]. *)
Definition call (verb : string) (url : JSString) (data : JSValue)
    (customAccessToken : option JSString) : Completion AxiosResponse :=
  axios {| cfg_method := js verb; cfg_url := url; cfg_data := data;
           cfg_authorization := authorization customAccessToken;
           cfg_content_type := None; cfg_response_type := None |}.

(** [res => res.data] *)
Definition data_of (res : AxiosResponse) : Completion JSValue := Normal (res_data res).

(** [err => { if (err.response && err.response.status === 404) return null;
    return handleError(err); }] *)
Definition null_if_404 (err : JSError) : Completion JSValue :=
  if is_404 err then Normal JNull else handleError err.

Definition replyRawBody (body : JSValue) (customAccessToken : option JSString) :=
  then2 (call "post" (js "/v2/bot/message/reply") body customAccessToken) data_of handleError.

Definition reply (replyToken : JSString) (messages : JSValue)
    (customAccessToken : option JSString) :=
  replyRawBody (JObject [(js "replyToken", JString replyToken); (js "messages", messages)])
               customAccessToken.

Definition pushRawBody (body : JSValue) (customAccessToken : option JSString) :=
  then2 (call "post" (js "/v2/bot/message/push") body customAccessToken) data_of handleError.

Definition push (to : JSString) (messages : JSValue) (customAccessToken : option JSString) :=
  pushRawBody (JObject [(js "to", JString to); (js "messages", messages)])
              customAccessToken.

Definition multicastRawBody (body : JSValue) (customAccessToken : option JSString) :=
  then2 (call "post" (js "/v2/bot/message/multicast") body customAccessToken)
        data_of handleError.

Definition multicast (to : list JSString) (messages : JSValue)
    (customAccessToken : option JSString) :=
  multicastRawBody (JObject [(js "to", JArray (map JString to)); (js "messages", messages)])
                   customAccessToken.

Definition retrieveMessageContent (messageId : JSString)
    (customAccessToken : option JSString) :=
  then2 (axios {| cfg_method := js "get";
                  cfg_url := js "/v2/bot/message/" ++ messageId ++ js "/content";
                  cfg_data := JUndefined;
                  cfg_authorization := authorization customAccessToken;
                  cfg_content_type := None;
                  cfg_response_type := option_map (fun _ => js "arraybuffer")
                                                  customAccessToken |})
        (fun res => Buffer_from (res_data res)) handleError.

Definition getUserProfile (userId : JSString) (customAccessToken : option JSString) :=
  try_catch
    (then2 (call "get" (js "/v2/bot/profile/" ++ userId) JUndefined customAccessToken)
           data_of handleError)
    null_if_404.

Definition getGroupMemberProfile (groupId userId : JSString)
    (customAccessToken : option JSString) :=
  then2 (call "get" (js "/v2/bot/group/" ++ groupId ++ js "/member/" ++ userId)
              JUndefined customAccessToken)
        data_of handleError.

Definition getRoomMemberProfile (roomId userId : JSString)
    (customAccessToken : option JSString) :=
  then2 (call "get" (js "/v2/bot/room/" ++ roomId ++ js "/member/" ++ userId)
              JUndefined customAccessToken)
        data_of handleError.

(** [start ? `?start=${start}` : ''] *)
Definition start_query (start : option JSString) : JSString :=
  match start with
  | Some (c :: r) => js "?start=" ++ c :: r
  | _ => []
  end.

Definition getGroupMemberIds (groupId : JSString) (start : option JSString)
    (customAccessToken : option JSString) :=
  then2 (call "get" (js "/v2/bot/group/" ++ groupId ++ js "/members/ids" ++ start_query start)
              JUndefined customAccessToken)
        data_of handleError.

Definition getRoomMemberIds (roomId : JSString) (start : option JSString)
    (customAccessToken : option JSString) :=
  then2 (call "get" (js "/v2/bot/room/" ++ roomId ++ js "/members/ids" ++ start_query start)
              JUndefined customAccessToken)
        data_of handleError.

Definition leaveGroup (groupId : JSString) (customAccessToken : option JSString) :=
  then2 (call "post" (js "/v2/bot/group/" ++ groupId ++ js "/leave") JNull customAccessToken)
        data_of handleError.

Definition leaveRoom (roomId : JSString) (customAccessToken : option JSString) :=
  then2 (call "post" (js "/v2/bot/room/" ++ roomId ++ js "/leave") JNull customAccessToken)
        data_of handleError.

Definition getRichMenuList (customAccessToken : option JSString) :=
  then2 (call "get" (js "/v2/bot/richmenu/list") JUndefined customAccessToken)
        (fun res => Get (res_data res) (js "richmenus")) handleError.

Definition getRichMenu (richMenuId : JSString) (customAccessToken : option JSString) :=
  try_catch
    (res <- call "get" (js "/v2/bot/richmenu/" ++ richMenuId) JUndefined customAccessToken ;;
     data_of res)
    null_if_404.

Definition createRichMenu (richMenu : JSValue) (customAccessToken : option JSString) :=
  then2 (call "post" (js "/v2/bot/richmenu") richMenu customAccessToken) data_of handleError.

Definition deleteRichMenu (richMenuId : JSString) (customAccessToken : option JSString) :=
  then2 (call "delete" (js "/v2/bot/richmenu/" ++ richMenuId) JUndefined customAccessToken)
        data_of handleError.

Definition getLinkedRichMenu (userId : JSString) (customAccessToken : option JSString) :=
  try_catch
    (res <- call "get" (js "/v2/bot/user/" ++ userId ++ js "/richmenu") JUndefined
                 customAccessToken ;;
     data_of res)
    null_if_404.

Definition linkRichMenu (userId richMenuId : JSString) (customAccessToken : option JSString) :=
  then2 (call "post" (js "/v2/bot/user/" ++ userId ++ js "/richmenu/" ++ richMenuId) JNull
              customAccessToken)
        data_of handleError.

Definition unlinkRichMenu (userId : JSString) (customAccessToken : option JSString) :=
  then2 (call "delete" (js "/v2/bot/user/" ++ userId ++ js "/richmenu") JUndefined
              customAccessToken)
        data_of handleError.

Definition getDefaultRichMenu (customAccessToken : option JSString) :=
  try_catch
    (res <- call "get" (js "/v2/bot/user/all/richmenu") JUndefined customAccessToken ;;
     data_of res)
    null_if_404.

Definition setDefaultRichMenu (richMenuId : JSString) (customAccessToken : option JSString) :=
  then2 (call "post" (js "/v2/bot/user/all/richmenu/" ++ richMenuId) JNull customAccessToken)
        data_of handleError.

Definition deleteDefaultRichMenu (customAccessToken : option JSString) :=
  then2 (call "delete" (js "/v2/bot/user/all/richmenu") JUndefined customAccessToken)
        data_of handleError.

Definition uploadRichMenuImage (richMenuId : JSString) (image : JSValue)
    (customAccessToken : option JSString) :=
  let type := imageType image in
  invariant (match type with
             | Some mime => JSStr.eqb mime (js "image/jpeg") || JSStr.eqb mime (js "image/png")
             | None => false
             end) "Image must be `image/jpeg` or `image/png`" ;;;
  then2 (axios {| cfg_method := js "post";
                  cfg_url := js "/v2/bot/richmenu/" ++ richMenuId ++ js "/content";
                  cfg_data := image;
                  cfg_authorization := authorization_if_set customAccessToken;
                  cfg_content_type := type;
                  cfg_response_type := None |})
        data_of handleError.

Definition downloadRichMenuImage (richMenuId : JSString)
    (customAccessToken : option JSString) :=
  try_catch
    (res <- axios {| cfg_method := js "get";
                     cfg_url := js "/v2/bot/richmenu/" ++ richMenuId ++ js "/content";
                     cfg_data := JUndefined;
                     cfg_authorization := authorization_if_set customAccessToken;
                     cfg_content_type := None;
                     cfg_response_type := Some (js "arraybuffer") |} ;;
     Buffer_from (res_data res))
    null_if_404.

Definition issueLinkToken (userId : JSString) (customAccessToken : option JSString) :=
  then2 (call "post" (js "/v2/bot/user/" ++ userId ++ js "/linkToken") JNull customAccessToken)
        data_of handleError.

Definition getLiffAppList (customAccessToken : option JSString) :=
  then2 (call "get" (js "/liff/v1/apps") JUndefined customAccessToken)
        (fun res => Get (res_data res) (js "apps")) handleError.

Definition createLiffApp (view : JSValue) (customAccessToken : option JSString) :=
  then2 (call "post" (js "/liff/v1/apps") view customAccessToken) data_of handleError.

Definition updateLiffApp (liffId : JSString) (view : JSValue)
    (customAccessToken : option JSString) :=
  then2 (call "put" (js "/liff/v1/apps/" ++ liffId ++ js "/view") view customAccessToken)
        data_of handleError.

Definition deleteLiffApp (liffId : JSString) (customAccessToken : option JSString) :=
  then2 (call "delete" (js "/liff/v1/apps/" ++ liffId) JUndefined customAccessToken)
        data_of handleError.

(** A call of a method of [LineClient] that issues one request, with its
    arguments. *)
Inductive Call : Type :=
| ReplyRawBody (body : JSValue)
| Reply (replyToken : JSString) (messages : JSValue)
| PushRawBody (body : JSValue)
| Push (to : JSString) (messages : JSValue)
| MulticastRawBody (body : JSValue)
| Multicast (to : list JSString) (messages : JSValue)
| RetrieveMessageContent (messageId : JSString)
| GetUserProfile (userId : JSString)
| GetGroupMemberProfile (groupId userId : JSString)
| GetRoomMemberProfile (roomId userId : JSString)
| GetGroupMemberIds (groupId : JSString) (start : option JSString)
| GetRoomMemberIds (roomId : JSString) (start : option JSString)
| LeaveGroup (groupId : JSString)
| LeaveRoom (roomId : JSString)
| GetRichMenuList
| GetRichMenu (richMenuId : JSString)
| CreateRichMenu (richMenu : JSValue)
| DeleteRichMenu (richMenuId : JSString)
| GetLinkedRichMenu (userId : JSString)
| LinkRichMenu (userId richMenuId : JSString)
| UnlinkRichMenu (userId : JSString)
| GetDefaultRichMenu
| SetDefaultRichMenu (richMenuId : JSString)
| DeleteDefaultRichMenu
| UploadRichMenuImage (richMenuId : JSString) (image : JSValue)
| DownloadRichMenuImage (richMenuId : JSString)
| IssueLinkToken (userId : JSString)
| GetLiffAppList
| CreateLiffApp (view : JSValue)
| UpdateLiffApp (liffId : JSString) (view : JSValue)
| DeleteLiffApp (liffId : JSString).

Definition invoke (c : Call) (customAccessToken : option JSString) : Completion JSValue :=
  match c with
  | ReplyRawBody body => replyRawBody body customAccessToken
  | Reply replyToken messages => reply replyToken messages customAccessToken
  | PushRawBody body => pushRawBody body customAccessToken
  | Push to messages => push to messages customAccessToken
  | MulticastRawBody body => multicastRawBody body customAccessToken
  | Multicast to messages => multicast to messages customAccessToken
  | RetrieveMessageContent messageId => retrieveMessageContent messageId customAccessToken
  | GetUserProfile userId => getUserProfile userId customAccessToken
  | GetGroupMemberProfile groupId userId =>
      getGroupMemberProfile groupId userId customAccessToken
  | GetRoomMemberProfile roomId userId => getRoomMemberProfile roomId userId customAccessToken
  | GetGroupMemberIds groupId start => getGroupMemberIds groupId start customAccessToken
  | GetRoomMemberIds roomId start => getRoomMemberIds roomId start customAccessToken
  | LeaveGroup groupId => leaveGroup groupId customAccessToken
  | LeaveRoom roomId => leaveRoom roomId customAccessToken
  | GetRichMenuList => getRichMenuList customAccessToken
  | GetRichMenu richMenuId => getRichMenu richMenuId customAccessToken
  | CreateRichMenu richMenu => createRichMenu richMenu customAccessToken
  | DeleteRichMenu richMenuId => deleteRichMenu richMenuId customAccessToken
  | GetLinkedRichMenu userId => getLinkedRichMenu userId customAccessToken
  | LinkRichMenu userId richMenuId => linkRichMenu userId richMenuId customAccessToken
  | UnlinkRichMenu userId => unlinkRichMenu userId customAccessToken
  | GetDefaultRichMenu => getDefaultRichMenu customAccessToken
  | SetDefaultRichMenu richMenuId => setDefaultRichMenu richMenuId customAccessToken
  | DeleteDefaultRichMenu => deleteDefaultRichMenu customAccessToken
  | UploadRichMenuImage richMenuId image =>
      uploadRichMenuImage richMenuId image customAccessToken
  | DownloadRichMenuImage richMenuId => downloadRichMenuImage richMenuId customAccessToken
  | IssueLinkToken userId => issueLinkToken userId customAccessToken
  | GetLiffAppList => getLiffAppList customAccessToken
  | CreateLiffApp view => createLiffApp view customAccessToken
  | UpdateLiffApp liffId view => updateLiffApp liffId view customAccessToken
  | DeleteLiffApp liffId => deleteLiffApp liffId customAccessToken
  end.

End LineClient.

End Line.

(** ** Telegram: [TelegramClient._request] *)

Module Telegram.
Section TelegramClient.
Variable http_post : JSString -> JSValue -> Completion AxiosResponse.

(** [_request]: every method of the client is a call of it. *)
Definition _request (url : JSString) (data : JSValue) : Completion JSValue :=
  res <- http_post url data ;; Normal (res_data res).

Definition sendMessage (chatId text : JSString) : Completion JSValue :=
  _request (js "/sendMessage")
    (JObject [(js "chat_id", JString chatId); (js "text", JString text)]).
End TelegramClient.
End Telegram.

(** ** Messenger: [createMessage] *)

Module Messenger.

(** A quick reply, with the fields that [validateQuickReplies] reads; a
    field that is not set is [None]. *)
Record QuickReply : Type := {
  content_type : JSString;
  title : option JSString;
  payload : option JSString;
  image_url : option JSString
}.

(** A message: its text or attachment, and the [quick_replies] that
    [createMessage] assigns. *)
Record Message : Type := {
  text : option JSString;
  attachment : option JSValue;
  quick_replies : option (list QuickReply)
}.

Record Options : Type := { options_quick_replies : option (list QuickReply) }.

Fixpoint forEach {A : Type} (l : list A) (f : A -> Completion unit) : Completion unit :=
  match l with
  | [] => Normal tt
  | x :: r => f x ;;; forEach r f
  end.

(** [s && s.trim().length <= 20] *)
Definition title_ok (t : option JSString) : bool :=
  match t with
  | Some (c :: r) => (JSStr.length (JSStr.trim (c :: r)) <=? 20)%Z
  | _ => false
  end.

(** [s && s.length <= 1000] *)
Definition payload_ok (p : option JSString) : bool :=
  match p with
  | Some (c :: r) => (JSStr.length (c :: r) <=? 1000)%Z
  | _ => false
  end.

Definition validateQuickReplies (quickReplies : list QuickReply) : Completion unit :=
  invariant (Z.of_nat (List.length quickReplies) <=? 11)%Z
    "quick_replies is an array and limited to 11" ;;;
  forEach quickReplies (fun quickReply =>
    if JSStr.eqb (content_type quickReply) (js "text") then
      invariant (title_ok (title quickReply))
        "title of quick reply has a 20 character limit, after that it gets truncated" ;;;
      invariant (payload_ok (payload quickReply))
        "payload of quick reply has a 1000 character limit"
    else Normal tt).

Definition createMessage (msg : Message) (options : Options) : Completion Message :=
  let message := msg in
  match options_quick_replies options with
  | Some (q :: r) =>
      validateQuickReplies (q :: r) ;;;
      Normal {| text := text message; attachment := attachment message;
                quick_replies := Some (q :: r) |}
  | _ => Normal message
  end.

Definition createText (t : JSString) (options : Options) : Completion Message :=
  createMessage {| text := Some t; attachment := None; quick_replies := None |} options.

End Messenger.

(** ** Data of the tests *)

Module TestData.
Local Open Scope string_scope.

Definition num (n : Z) : JSValue := JNumber (JSNumber.of_Z n).
Definition str (s : string) : JSValue := JString (js s).
Definition obj (l : list (string * JSValue)) : JSValue :=
  JObject (map (fun kv => (js (fst kv), snd kv)) l).

(** The yellow heart of the sticker tests, as its two code units. *)
Definition heart : JSValue := JString [55357; 56475]%N.

(** [reply.result] of the [getStickerSet] test: what the platform sends. *)
Definition sticker_set_reply : JSValue :=
  obj [("name", str "sticker set name");
       ("title", str "sticker set title");
       ("is_animated", JBool false);
       ("contains_masks", JBool false);
       ("stickers", JArray [
          obj [("width", num 512); ("height", num 512); ("emoji", heart);
               ("set_name", str "sticker set name");
               ("is_animated", JBool false);
               ("thumb", obj [("file_id", str "AAQEAANDAQACEDVoAAFVA7aGNPt1If3eYTAABAEAB20AAzkOAAIWB");
                              ("file_size", num 5706);
                              ("width", num 128); ("height", num 128)]);
               ("file_id", str "CAADBAADQwEAAhA1aAABVQO2hjT7dSEWB");
               ("file_size", num 36424)]])].

(** [result] of the [getStickerSet] test: what the client returns. *)
Definition sticker_set_result : JSValue :=
  obj [("name", str "sticker set name");
       ("title", str "sticker set title");
       ("isAnimated", JBool false);
       ("containsMasks", JBool false);
       ("stickers", JArray [
          obj [("width", num 512); ("height", num 512); ("emoji", heart);
               ("setName", str "sticker set name");
               ("isAnimated", JBool false);
               ("thumb", obj [("fileId", str "AAQEAANDAQACEDVoAAFVA7aGNPt1If3eYTAABAEAB20AAzkOAAIWB");
                              ("fileSize", num 5706);
                              ("width", num 128); ("height", num 128)]);
               ("fileId", str "CAADBAADQwEAAhA1aAABVQO2hjT7dSEWB");
               ("fileSize", num 36424)]])].

(** The options of the two [createNewStickerSet] tests. *)
Definition options_snakecase : JSValue :=
  obj [("contains_masks", JBool true);
       ("mask_position", obj [("point", str "eyes"); ("x_shift", num 10);
                              ("y_shift", num 10); ("scale", num 1)])].

Definition options_camelcase : JSValue :=
  obj [("containsMasks", JBool true);
       ("maskPosition", obj [("point", str "eyes"); ("xShift", num 10);
                             ("yShift", num 10); ("scale", num 1)])].

(** A response of the LINE platform for a resource that does not exist. *)
Definition not_found : JSError :=
  let config := {| cfg_method := js "get"; cfg_url := js "/v2/bot/richmenu/1";
                   cfg_data := JUndefined; cfg_authorization := None;
                   cfg_content_type := None; cfg_response_type := None |} in
  {| err_name := NetworkError;
     err_message := js "Request failed with status code 404";
     err_config := Some config;
     err_request := Some 1%N;
     err_response := Some {| res_status := 404;
                             res_data := obj [("message", str "Not found")];
                             res_config := config;
                             res_request := 1%N |} |}.

(** The same status with a body whose [details] is a text, not an array. *)
Definition not_found_oops : JSError :=
  let config := {| cfg_method := js "get"; cfg_url := js "/v2/bot/profile/U1";
                   cfg_data := JUndefined; cfg_authorization := None;
                   cfg_content_type := None; cfg_response_type := None |} in
  {| err_name := NetworkError;
     err_message := js "Request failed with status code 404";
     err_config := Some config;
     err_request := Some 3%N;
     err_response := Some {| res_status := 404;
                             res_data := obj [("message", str "Not found");
                                              ("details", str "oops")];
                             res_config := config;
                             res_request := 3%N |} |}.

(** A reply of the Slack platform that reports a failure, with status 200. *)
Definition channel_not_found : AxiosResponse :=
  {| res_status := 200;
     res_data := obj [("ok", JBool false); ("error", str "channel_not_found")];
     res_config := {| cfg_method := js "post"; cfg_url := js "chat.postMessage";
                      cfg_data := str "channel=C0&token=xoxb-stored";
                      cfg_authorization := None;
                      cfg_content_type := None; cfg_response_type := None |};
     res_request := 2%N |}.

(** A reply of the Slack platform that reports a failure whose [error] is
    an object that cannot be converted to a string. *)
Definition unprintable_error : AxiosResponse :=
  {| res_status := 200;
     res_data := obj [("ok", JBool false); ("error", obj [("toString", num 0)])];
     res_config := {| cfg_method := js "post"; cfg_url := js "chat.postMessage";
                      cfg_data := str "channel=C0&token=xoxb-stored";
                      cfg_authorization := None;
                      cfg_content_type := None; cfg_response_type := None |};
     res_request := 2%N |}.

Definition slack_client : Slack.SlackOAuthClient := {| Slack._token := js "xoxb-stored" |}.

(** Options whose access token is the empty string. *)
Definition empty_access_token : Props := [(js "accessToken", JString [])].

(** Options with a custom access token and two other fields. *)
Definition post_options : Props :=
  [(js "channel", str "C0"); (js "accessToken", str "xoxb-custom");
   (js "threadTs", str "1.5")].

(** Quick replies and a message that already has one. *)
Definition reply_red : Messenger.QuickReply :=
  {| Messenger.content_type := js "text"; Messenger.title := Some (js "Red");
     Messenger.payload := Some (js "PICKED_RED"); Messenger.image_url := None |}.

Definition reply_location : Messenger.QuickReply :=
  {| Messenger.content_type := js "location"; Messenger.title := None;
     Messenger.payload := None; Messenger.image_url := None |}.

Definition reply_untitled : Messenger.QuickReply :=
  {| Messenger.content_type := js "text"; Messenger.title := None;
     Messenger.payload := Some (js "PICKED"); Messenger.image_url := None |}.

Definition message_with_replies : Messenger.Message :=
  {| Messenger.text := Some (js "Pick a color:"); Messenger.attachment := None;
     Messenger.quick_replies := Some [reply_location] |}.

Definition options_red : Messenger.Options :=
  {| Messenger.options_quick_replies := Some [reply_red] |}.

Definition options_untitled : Messenger.Options :=
  {| Messenger.options_quick_replies := Some [reply_red; reply_untitled] |}.

End TestData.

(** ** Object spread, array concatenation and the paging loop *)

(** [{...a, ...b}]: the properties of [b] are assigned over those of [a]. *)
Definition spread (a b : Props) : Props :=
  fold_left (fun acc kv => Obj.set acc (fst kv) (snd kv)) b a.

(** [typeof v === 'string'] *)
Definition is_string (v : JSValue) : bool :=
  match v with
  | JString _ => true
  | _ => false
  end.

(** [a && a.k] *)
Definition and_get (a : JSValue) (k : JSString) : Completion JSValue :=
  if ToBoolean a then Get a k else Normal a.

(** [all.concat(v)]: the elements of an array are appended, another value
    is appended as one element. *)
Definition Array_concat (all : list JSValue) (v : JSValue) : list JSValue :=
  match v with
  | JArray l => all ++ l
  | _ => all ++ [v]
  end.

(** One page of a listing: its items and the cursor of the next page. *)
Record Page : Type := { items : JSValue; next : JSValue }.

(** The loop [do { ... } while (cursor)] of the [getAll...] methods, where
    [fetch] is the awaited call of the body at a cursor. The number of
    rounds is bounded by [fuel]; [None] is a loop that has not finished
    within it. *)
Fixpoint do_while (fuel : nat) (fetch : JSValue -> Completion Page)
    (all : list JSValue) (cursor : JSValue) : option (Completion (list JSValue)) :=
  match fuel with
  | O => None
  | S f =>
      match fetch cursor with
      | Throw e => Some (Throw e)
      | Normal page =>
          let all' := Array_concat all (items page) in
          if ToBoolean (next page) then do_while f fetch all' (next page)
          else Some (Normal all')
      end
  end.

(** A run of requests from a cursor: each of [pages] is fetched in turn at
    the cursor given by the page before it and has a truthy cursor; the
    request that follows them has the outcome [last], a rejection or a
    page without a truthy cursor. *)
Fixpoint pages_then (fetch : JSValue -> Completion Page) (cursor : JSValue)
    (pages : list Page) (last : Completion Page) : Prop :=
  match pages with
  | [] =>
      fetch cursor = last
      /\ match last with
         | Normal p => ToBoolean (next p) = false
         | Throw _ => True
         end
  | p :: rest =>
      fetch cursor = Normal p /\ ToBoolean (next p) = true
      /\ pages_then fetch (next p) rest last
  end.

(** What such a run leaves: the items of all pages, in order, or the
    rejection. *)
Definition collected (all : list JSValue) (pages : list Page) (last : Completion Page)
  : Completion (list JSValue) :=
  match last with
  | Normal p => Normal (fold_left Array_concat (map items (pages ++ [p])) all)
  | Throw e => Throw e
  end.

(** ** Slack: the methods of [SlackOAuthClient] *)

Module SlackMethods.
Import KeyCase Slack.

Definition DEFAULT_PAYLOAD_FIELDS_TO_STRINGIFY : list JSString :=
  [js "attachments"; js "blocks"].

(** A message given to [postMessage] or [postEphemeral]: a text, or an
    object. *)
Inductive MessageInput : Type :=
| TextInput (text : JSString)
| ObjectInput (message : Props).

(** A call of a method of [SlackOAuthClient] that makes one request, with
    its arguments; the calls named [Chat...] are those of the methods
    that the constructor binds under [this.chat]. *)
Inductive Call : Type :=
| GetChannelInfo (channelId : JSString) (options : Props)
| GetConversationInfo (channelId : JSString) (options : Props)
| GetConversationMembers (channelId : JSString) (options : Props)
| GetConversationList (options : Props)
| PostMessage (channel : JSString) (inputMessage : MessageInput) (options : Props)
| PostEphemeral (channel user : JSString) (inputMessage : MessageInput) (options : Props)
| ChatPostMessage (options : Props)
| ChatPostEphemeral (options : Props)
| ChatUpdate (options : Props)
| ChatDelete (options : Props)
| ChatMeMessage (options : Props)
| ChatGetPermalink (options : Props)
| ChatScheduleMessage (options : Props)
| ChatDeleteScheduledMessage (options : Props)
| ChatUnfurl (options : Props)
| ChatScheduledMessagesList (options : Props)
| GetUserInfo (userId : JSString) (options : Props)
| GetUserList (options : Props).

(** What such a call resolves to: a value, or a page. *)
Inductive Reply : Type :=
| Value (data : JSValue)
| Listing (page : Page).

(** The method of the Web API that each call posts to. *)
Definition method_of (c : Call) : JSString :=
  match c with
  | GetChannelInfo _ _ => js "channels.info"
  | GetConversationInfo _ _ => js "conversations.info"
  | GetConversationMembers _ _ => js "conversations.members"
  | GetConversationList _ => js "conversations.list"
  | PostMessage _ _ _ | ChatPostMessage _ => js "chat.postMessage"
  | PostEphemeral _ _ _ _ | ChatPostEphemeral _ => js "chat.postEphemeral"
  | ChatUpdate _ => js "chat.update"
  | ChatDelete _ => js "chat.delete"
  | ChatMeMessage _ => js "chat.meMessage"
  | ChatGetPermalink _ => js "chat.getPermalink"
  | ChatScheduleMessage _ => js "chat.scheduleMessage"
  | ChatDeleteScheduledMessage _ => js "chat.deleteScheduledMessage"
  | ChatUnfurl _ => js "chat.unfurl"
  | ChatScheduledMessagesList _ => js "chat.scheduledMessages.list"
  | GetUserInfo _ _ => js "users.info"
  | GetUserList _ => js "users.list"
  end.

Section Methods.
(** [this._axios.post], [querystring.stringify] and [JSON.stringify],
    supplied by the libraries. [JSON.stringify] is only applied to values
    that are truthy and not strings. *)
Variable axios_post : JSString -> JSString -> Completion AxiosResponse.
Variable querystring_stringify : JSValue -> JSString.
Variable JSON_stringify : JSValue -> JSString.
Variable self : SlackOAuthClient.

Definition call (method : string) (inputBody : Props) : Completion JSValue :=
  callMethod axios_post querystring_stringify self (js method) inputBody.

(** [stringifyPayloadFields]: each field of the list that holds a truthy
    value other than a string is assigned the JSON text of that value with
    its keys in snake_case. The payload is changed in place and returned;
    the result stands for both. The fields are names that
    [Object.prototype] does not define, as those of the default list are,
    so that [payload[field]] reads an own property. *)
Definition stringifyPayloadFields (payload : Props) (fields : list JSString) : Props :=
  fold_left
    (fun payload field =>
       if ToBoolean (prop payload field) && negb (is_string (prop payload field))
       then Obj.set payload field
              (JString (JSON_stringify (snakecaseKeysDeep (prop payload field))))
       else payload)
    fields payload.

Definition getChannelInfo (channelId : JSString) (options : Props) : Completion JSValue :=
  data <- call "channels.info" (spread [(js "channel", JString channelId)] options) ;;
  Get data (js "channel").

Definition getConversationInfo (channelId : JSString) (options : Props)
  : Completion JSValue :=
  data <- call "conversations.info" (spread [(js "channel", JString channelId)] options) ;;
  Get data (js "channel").

(** [data => ({ members: data.members, next: data.responseMetadata &&
    data.responseMetadata.nextCursor })], for the property [field] that
    holds the items. *)
Definition page_of (field : string) (data : JSValue) : Completion Page :=
  listed <- Get data (js field) ;;
  responseMetadata <- Get data (js "responseMetadata") ;;
  nextCursor <- and_get responseMetadata (js "nextCursor") ;;
  Normal {| items := listed; next := nextCursor |}.

Definition getConversationMembers (channelId : JSString) (options : Props)
  : Completion Page :=
  data <- call "conversations.members"
               (spread [(js "channel", JString channelId)] options) ;;
  page_of "members" data.

Definition getAllConversationMembers (fuel : nat) (channelId : JSString) (options : Props)
  : option (Completion (list JSValue)) :=
  do_while fuel
    (fun continuationCursor =>
       getConversationMembers channelId
         (spread [(js "cursor", continuationCursor)] options))
    [] JUndefined.

Definition getConversationList (options : Props) : Completion Page :=
  data <- call "conversations.list" options ;;
  page_of "channels" data.

Definition getAllConversationList (fuel : nat) (options : Props)
  : option (Completion (list JSValue)) :=
  do_while fuel
    (fun continuationCursor =>
       let nextOptions :=
         if ToBoolean continuationCursor
         then spread [(js "cursor", continuationCursor)] options
         else options in
       getConversationList nextOptions)
    [] JUndefined.

Definition _postMessage (options : Props) : Completion JSValue :=
  call "chat.postMessage"
       (stringifyPayloadFields options DEFAULT_PAYLOAD_FIELDS_TO_STRINGIFY).

(** [typeof inputMessage === 'string' ? { text: inputMessage } : inputMessage] *)
Definition message_of (inputMessage : MessageInput) : Props :=
  match inputMessage with
  | TextInput text => [(js "text", JString text)]
  | ObjectInput message => message
  end.

(** The deprecation notice that [postMessage] and [postEphemeral] print
    with [warning] changes nothing else and is left out. *)
Definition postMessage (channel : JSString) (inputMessage : MessageInput) (options : Props)
  : Completion JSValue :=
  _postMessage (spread (spread [(js "channel", JString channel)] (message_of inputMessage))
                       options).

Definition _postEphemeral (options : Props) : Completion JSValue :=
  call "chat.postEphemeral"
       (stringifyPayloadFields options DEFAULT_PAYLOAD_FIELDS_TO_STRINGIFY).

Definition postEphemeral (channel user : JSString) (inputMessage : MessageInput)
    (options : Props) : Completion JSValue :=
  _postEphemeral
    (spread (spread [(js "channel", JString channel); (js "user", JString user)]
                    (message_of inputMessage))
            options).

Definition _updateMessage (options : Props) : Completion JSValue :=
  call "chat.update" (stringifyPayloadFields options DEFAULT_PAYLOAD_FIELDS_TO_STRINGIFY).

Definition _deleteMessage (options : Props) : Completion JSValue :=
  call "chat.delete" options.

Definition _meMessage (options : Props) : Completion JSValue :=
  call "chat.meMessage" options.

Definition _getPermalink (options : Props) : Completion JSValue :=
  call "chat.getPermalink" options.

Definition _scheduleMessage (options : Props) : Completion JSValue :=
  call "chat.scheduleMessage"
       (stringifyPayloadFields options DEFAULT_PAYLOAD_FIELDS_TO_STRINGIFY).

Definition _deleteScheduledMessage (options : Props) : Completion JSValue :=
  call "chat.deleteScheduledMessage" options.

Definition _getScheduledMessages (options : Props) : Completion JSValue :=
  call "chat.scheduledMessages.list" options.

Definition _unfurl (options : Props) : Completion JSValue :=
  call "chat.unfurl" options.

Definition getUserInfo (userId : JSString) (options : Props) : Completion JSValue :=
  data <- call "users.info" (spread [(js "user", JString userId)] options) ;;
  Get data (js "user").

Definition getUserList (options : Props) : Completion Page :=
  data <- call "users.list" options ;;
  page_of "members" data.

Definition getAllUserList (fuel : nat) (options : Props)
  : option (Completion (list JSValue)) :=
  do_while fuel
    (fun continuationCursor =>
       getUserList (spread [(js "cursor", continuationCursor)] options))
    [] JUndefined.

(** The object that each call hands to [callMethod]. *)
Definition body_of (c : Call) : Props :=
  match c with
  | GetChannelInfo channelId options
  | GetConversationInfo channelId options
  | GetConversationMembers channelId options =>
      spread [(js "channel", JString channelId)] options
  | PostMessage channel inputMessage options =>
      stringifyPayloadFields
        (spread (spread [(js "channel", JString channel)] (message_of inputMessage)) options)
        DEFAULT_PAYLOAD_FIELDS_TO_STRINGIFY
  | PostEphemeral channel user inputMessage options =>
      stringifyPayloadFields
        (spread (spread [(js "channel", JString channel); (js "user", JString user)]
                        (message_of inputMessage))
                options)
        DEFAULT_PAYLOAD_FIELDS_TO_STRINGIFY
  | ChatPostMessage options | ChatPostEphemeral options | ChatUpdate options
  | ChatScheduleMessage options =>
      stringifyPayloadFields options DEFAULT_PAYLOAD_FIELDS_TO_STRINGIFY
  | GetUserInfo userId options => spread [(js "user", JString userId)] options
  | GetConversationList options | ChatDelete options | ChatMeMessage options
  | ChatGetPermalink options | ChatDeleteScheduledMessage options | ChatUnfurl options
  | ChatScheduledMessagesList options | GetUserList options => options
  end.

(** What each call makes of the data that [callMethod] returns. *)
Definition reply_of (c : Call) (data : JSValue) : Completion Reply :=
  match c with
  | GetChannelInfo _ _ | GetConversationInfo _ _ =>
      channel <- Get data (js "channel") ;; Normal (Value channel)
  | GetUserInfo _ _ => user <- Get data (js "user") ;; Normal (Value user)
  | GetConversationMembers _ _ | GetUserList _ =>
      page <- page_of "members" data ;; Normal (Listing page)
  | GetConversationList _ => page <- page_of "channels" data ;; Normal (Listing page)
  | _ => Normal (Value data)
  end.

Definition value (c : Completion JSValue) : Completion Reply :=
  data <- c ;; Normal (Value data).

Definition listing (c : Completion Page) : Completion Reply :=
  page <- c ;; Normal (Listing page).

Definition invoke (c : Call) : Completion Reply :=
  match c with
  | GetChannelInfo channelId options => value (getChannelInfo channelId options)
  | GetConversationInfo channelId options => value (getConversationInfo channelId options)
  | GetConversationMembers channelId options =>
      listing (getConversationMembers channelId options)
  | GetConversationList options => listing (getConversationList options)
  | PostMessage channel inputMessage options =>
      value (postMessage channel inputMessage options)
  | PostEphemeral channel user inputMessage options =>
      value (postEphemeral channel user inputMessage options)
  | ChatPostMessage options => value (_postMessage options)
  | ChatPostEphemeral options => value (_postEphemeral options)
  | ChatUpdate options => value (_updateMessage options)
  | ChatDelete options => value (_deleteMessage options)
  | ChatMeMessage options => value (_meMessage options)
  | ChatGetPermalink options => value (_getPermalink options)
  | ChatScheduleMessage options => value (_scheduleMessage options)
  | ChatDeleteScheduledMessage options => value (_deleteScheduledMessage options)
  | ChatUnfurl options => value (_unfurl options)
  | ChatScheduledMessagesList options => value (_getScheduledMessages options)
  | GetUserInfo userId options => value (getUserInfo userId options)
  | GetUserList options => listing (getUserList options)
  end.
End Methods.

End SlackMethods.

(** ** LINE: the member ids of a group or a room, page by page *)

Module LineMembers.
Import Line.

(** The methods that attach the access token with
    [customAccessToken && { Authorization: ... }]. *)
Definition sends_binary (c : Call) : bool :=
  match c with
  | UploadRichMenuImage _ _ | DownloadRichMenuImage _ => true
  | _ => false
  end.

(** The constructor of [LineClient] creates its axios instance with
    [headers: { Authorization: `Bearer ${this._accessToken}`, ... }]. *)
Definition default_authorization (accessToken : JSString) : JSString :=
  js "Bearer " ++ accessToken.

(** The [Authorization] header that goes out with a request of that
    instance: axios merges the config of a request over the defaults of
    the instance, so that a header given with the request replaces the
    one of the constructor, which stays when the request gives none. *)
Definition sent_authorization (accessToken : JSString) (config : RequestConfig)
  : JSString :=
  match cfg_authorization config with
  | Some header => header
  | None => default_authorization accessToken
  end.

(** The line that one round of [details.forEach] in [handleError] appends
    for a detail: a line feed, then the property and the message of the
    detail as texts. *)
Definition detail_line (detail : JSValue) (line : JSString) : Prop :=
  exists property message p m,
    Get detail (js "property") = Normal property
    /\ ToString property = Normal p
    /\ Get detail (js "message") = Normal message
    /\ ToString message = Normal m
    /\ line = [10%N] ++ js "- " ++ p ++ js ": " ++ m.

Section Members.
Variable axios : RequestConfig -> Completion AxiosResponse.

(** [start ? `?start=${start}` : ''] for a token as it is read from a
    reply. *)
Definition start_query_of (start : JSValue) : Completion JSString :=
  if ToBoolean start then s <- ToString start ;; Normal (js "?start=" ++ s)
  else Normal [].

(** [getGroupMemberIds] and [getRoomMemberIds] at such a token. *)
Definition getGroupMemberIds_at (groupId : JSString) (start : JSValue)
    (customAccessToken : option JSString) : Completion JSValue :=
  query <- start_query_of start ;;
  then2 (call axios "get" (js "/v2/bot/group/" ++ groupId ++ js "/members/ids" ++ query)
              JUndefined customAccessToken)
        data_of handleError.

Definition getRoomMemberIds_at (roomId : JSString) (start : JSValue)
    (customAccessToken : option JSString) : Completion JSValue :=
  query <- start_query_of start ;;
  then2 (call axios "get" (js "/v2/bot/room/" ++ roomId ++ js "/members/ids" ++ query)
              JUndefined customAccessToken)
        data_of handleError.

(** [const { memberIds, next } = data] *)
Definition member_page (data : JSValue) : Completion Page :=
  memberIds <- Get data (js "memberIds") ;;
  continuation <- Get data (js "next") ;;
  Normal {| items := memberIds; next := continuation |}.

Definition getAllGroupMemberIds (fuel : nat) (groupId : JSString)
    (customAccessToken : option JSString) : option (Completion (list JSValue)) :=
  do_while fuel
    (fun continuationToken =>
       data <- getGroupMemberIds_at groupId continuationToken customAccessToken ;;
       member_page data)
    [] JUndefined.

Definition getAllRoomMemberIds (fuel : nat) (roomId : JSString)
    (customAccessToken : option JSString) : option (Completion (list JSValue)) :=
  do_while fuel
    (fun continuationToken =>
       data <- getRoomMemberIds_at roomId continuationToken customAccessToken ;;
       member_page data)
    [] JUndefined.
End Members.

End LineMembers.

(** ** Messenger: attachments, uploads and templates *)

Module MessengerBuilders.
Import Messenger.

(** The argument of [createAudio], [createImage], [createVideo] and
    [createFile]: a string, a plain object, or anything else, which is
    taken for the data of a file. *)
Inductive Media (FileData : Type) : Type :=
| MediaUrl (url : JSString)
| MediaPayload (payload : Props)
| MediaFile (file : FileData).

Arguments MediaUrl {FileData} url.
Arguments MediaPayload {FileData} payload.
Arguments MediaFile {FileData} file.

(** The value of a field of a form: a text, or the data of a file. *)
Inductive FieldValue (FileData : Type) : Type :=
| TextValue (text : JSString)
| FileValue (file : FileData).

Arguments TextValue {FileData} text.
Arguments FileValue {FileData} file.

(** A field appended to a [FormData], with the options given to
    [append] if any. *)
Record Field (FileData : Type) : Type := {
  field_name : JSString;
  field_value : FieldValue FileData;
  field_options : option Options
}.

(** The options of [createGenericTemplate] and [createListTemplate]. *)
Record GenericOptions : Type := {
  image_aspect_ratio : option JSString;
  generic_quick_replies : option (list QuickReply)
}.

Record ListOptions : Type := {
  top_element_style : option JSString;
  list_quick_replies : option (list QuickReply)
}.

(** [s || d] for a string that may be missing. *)
Definition string_or (s : option JSString) (d : string) : JSString :=
  match s with
  | Some (c :: r) => c :: r
  | _ => js d
  end.

Section Builders.
(** The data of a file, a buffer or a stream, and [JSON.stringify] on
    messages. *)
Variable FileData : Type.
Variable JSON_stringify : Message -> JSString.

(** A [FormData], as the fields appended to it. *)
Definition FormData : Type := list (Field FileData).

(** [omit(options, ['quick_replies'])] *)
Definition omit_quick_replies (options : Options) : Options :=
  {| options_quick_replies := None |}.

Definition createMessageFormData (payload : Message) (filedata : FileData)
    (options : Options) : Completion FormData :=
  message <- match options_quick_replies options with
             | Some quickReplies =>
                 validateQuickReplies quickReplies ;;;
                 Normal {| text := text payload; attachment := attachment payload;
                           quick_replies := Some quickReplies |}
             | None => Normal payload
             end ;;
  Normal [ {| field_name := js "message";
              field_value := TextValue (JSON_stringify message);
              field_options := None |};
           {| field_name := js "filedata";
              field_value := FileValue filedata;
              field_options := Some (omit_quick_replies options) |} ].

Definition createAttachment (att : JSValue) (options : Options) : Completion Message :=
  createMessage {| text := None; attachment := Some att; quick_replies := None |} options.

Definition createAttachmentFormData (att : JSValue) (filedata : FileData)
    (options : Options) : Completion FormData :=
  createMessageFormData {| text := None; attachment := Some att; quick_replies := None |}
                        filedata options.

Definition createAudio (audio : Media FileData) (options : Options)
  : Completion (Message + FormData) :=
  match audio with
  | MediaUrl url =>
      message <- createAttachment
                   (JObject [(js "type", JString (js "audio"));
                             (js "payload", JObject [(js "url", JString url)])])
                   options ;;
      Normal (inl message)
  | MediaPayload payload =>
      message <- createAttachment
                   (JObject [(js "type", JString (js "audio"));
                             (js "payload", JObject payload)])
                   options ;;
      Normal (inl message)
  | MediaFile file =>
      formdata <- createAttachmentFormData
                    (JObject [(js "type", JString (js "audio")); (js "payload", JObject [])])
                    file options ;;
      Normal (inr formdata)
  end.

Definition createImage (image : Media FileData) (options : Options)
  : Completion (Message + FormData) :=
  match image with
  | MediaUrl url =>
      message <- createAttachment
                   (JObject [(js "type", JString (js "image"));
                             (js "payload", JObject [(js "url", JString url)])])
                   options ;;
      Normal (inl message)
  | MediaPayload payload =>
      message <- createAttachment
                   (JObject [(js "type", JString (js "image"));
                             (js "payload", JObject payload)])
                   options ;;
      Normal (inl message)
  | MediaFile file =>
      formdata <- createAttachmentFormData
                    (JObject [(js "type", JString (js "image")); (js "payload", JObject [])])
                    file options ;;
      Normal (inr formdata)
  end.

Definition createVideo (video : Media FileData) (options : Options)
  : Completion (Message + FormData) :=
  match video with
  | MediaUrl url =>
      message <- createAttachment
                   (JObject [(js "type", JString (js "video"));
                             (js "payload", JObject [(js "url", JString url)])])
                   options ;;
      Normal (inl message)
  | MediaPayload payload =>
      message <- createAttachment
                   (JObject [(js "type", JString (js "video"));
                             (js "payload", JObject payload)])
                   options ;;
      Normal (inl message)
  | MediaFile file =>
      formdata <- createAttachmentFormData
                    (JObject [(js "type", JString (js "video")); (js "payload", JObject [])])
                    file options ;;
      Normal (inr formdata)
  end.

Definition createFile (file : Media FileData) (options : Options)
  : Completion (Message + FormData) :=
  match file with
  | MediaUrl url =>
      message <- createAttachment
                   (JObject [(js "type", JString (js "file"));
                             (js "payload", JObject [(js "url", JString url)])])
                   options ;;
      Normal (inl message)
  | MediaPayload payload =>
      message <- createAttachment
                   (JObject [(js "type", JString (js "file"));
                             (js "payload", JObject payload)])
                   options ;;
      Normal (inl message)
  | MediaFile data =>
      formdata <- createAttachmentFormData
                    (JObject [(js "type", JString (js "file")); (js "payload", JObject [])])
                    data options ;;
      Normal (inr formdata)
  end.
(** The four builders of media messages, each with the type of its
    attachment. *)
Definition media_builders
  : list ((Media FileData -> Options -> Completion (Message + FormData)) * JSString) :=
  [(createAudio, js "audio"); (createImage, js "image");
   (createVideo, js "video"); (createFile, js "file")].
End Builders.

Definition createTemplate (payload : Props) (options : Options) : Completion Message :=
  createAttachment (JObject [(js "type", JString (js "template"));
                             (js "payload", JObject payload)])
                   options.

Definition createButtonTemplate (text : JSString) (buttons : JSValue) (options : Options)
  : Completion Message :=
  createTemplate [(js "template_type", JString (js "button"));
                  (js "text", JString text);
                  (js "buttons", buttons)]
                 options.

Definition createGenericTemplate (elements : JSValue) (options : GenericOptions)
  : Completion Message :=
  createTemplate [(js "template_type", JString (js "generic"));
                  (js "elements", elements);
                  (js "image_aspect_ratio",
                   JString (string_or (image_aspect_ratio options) "horizontal"))]
                 {| options_quick_replies := generic_quick_replies options |}.

(** [createListTemplate] and [createOpenGraphTemplate] are exported through
    [deprecated], which prints a notice and then calls them with the same
    arguments. *)
Definition createListTemplate (elements buttons : JSValue) (options : ListOptions)
  : Completion Message :=
  createTemplate [(js "template_type", JString (js "list"));
                  (js "elements", elements);
                  (js "buttons", buttons);
                  (js "top_element_style",
                   JString (string_or (top_element_style options) "large"))]
                 {| options_quick_replies := list_quick_replies options |}.

Definition createOpenGraphTemplate (elements : JSValue) (options : Options)
  : Completion Message :=
  createTemplate [(js "template_type", JString (js "open_graph"));
                  (js "elements", elements)]
                 options.

Definition createMediaTemplate (elements : JSValue) (options : Options)
  : Completion Message :=
  createTemplate [(js "template_type", JString (js "media"));
                  (js "elements", elements)]
                 options.

Definition createReceiptTemplate (attrs : Props) (options : Options) : Completion Message :=
  createTemplate (spread [(js "template_type", JString (js "receipt"))] attrs) options.

Definition createAirlineBoardingPassTemplate (attrs : Props) (options : Options)
  : Completion Message :=
  createTemplate (spread [(js "template_type", JString (js "airline_boardingpass"))] attrs)
                 options.

Definition createAirlineCheckinTemplate (attrs : Props) (options : Options)
  : Completion Message :=
  createTemplate (spread [(js "template_type", JString (js "airline_checkin"))] attrs)
                 options.

Definition createAirlineItineraryTemplate (attrs : Props) (options : Options)
  : Completion Message :=
  createTemplate (spread [(js "template_type", JString (js "airline_itinerary"))] attrs)
                 options.

Definition createAirlineUpdateTemplate (attrs : Props) (options : Options)
  : Completion Message :=
  createTemplate (spread [(js "template_type", JString (js "airline_update"))] attrs)
                 options.

(** A call of one of the builders of templates, with its arguments. *)
Inductive TemplateCall : Type :=
| ButtonTemplate (text : JSString) (buttons : JSValue) (options : Options)
| GenericTemplate (elements : JSValue) (options : GenericOptions)
| ListTemplate (elements buttons : JSValue) (options : ListOptions)
| OpenGraphTemplate (elements : JSValue) (options : Options)
| MediaTemplate (elements : JSValue) (options : Options)
| ReceiptTemplate (attrs : Props) (options : Options)
| AirlineBoardingPassTemplate (attrs : Props) (options : Options)
| AirlineCheckinTemplate (attrs : Props) (options : Options)
| AirlineItineraryTemplate (attrs : Props) (options : Options)
| AirlineUpdateTemplate (attrs : Props) (options : Options).

Definition build (c : TemplateCall) : Completion Message :=
  match c with
  | ButtonTemplate text buttons options => createButtonTemplate text buttons options
  | GenericTemplate elements options => createGenericTemplate elements options
  | ListTemplate elements buttons options => createListTemplate elements buttons options
  | OpenGraphTemplate elements options => createOpenGraphTemplate elements options
  | MediaTemplate elements options => createMediaTemplate elements options
  | ReceiptTemplate attrs options => createReceiptTemplate attrs options
  | AirlineBoardingPassTemplate attrs options =>
      createAirlineBoardingPassTemplate attrs options
  | AirlineCheckinTemplate attrs options => createAirlineCheckinTemplate attrs options
  | AirlineItineraryTemplate attrs options => createAirlineItineraryTemplate attrs options
  | AirlineUpdateTemplate attrs options => createAirlineUpdateTemplate attrs options
  end.

(** The [template_type] that each builder writes. *)
Definition template_type_of (c : TemplateCall) : JSString :=
  match c with
  | ButtonTemplate _ _ _ => js "button"
  | GenericTemplate _ _ => js "generic"
  | ListTemplate _ _ _ => js "list"
  | OpenGraphTemplate _ _ => js "open_graph"
  | MediaTemplate _ _ => js "media"
  | ReceiptTemplate _ _ => js "receipt"
  | AirlineBoardingPassTemplate _ _ => js "airline_boardingpass"
  | AirlineCheckinTemplate _ _ => js "airline_checkin"
  | AirlineItineraryTemplate _ _ => js "airline_itinerary"
  | AirlineUpdateTemplate _ _ => js "airline_update"
  end.

(** The quick replies among the options of a call, and the attributes
    that the call spreads into the payload, if it does. *)
Definition quick_replies_of (c : TemplateCall) : option (list QuickReply) :=
  match c with
  | GenericTemplate _ options => generic_quick_replies options
  | ListTemplate _ _ options => list_quick_replies options
  | ButtonTemplate _ _ options | OpenGraphTemplate _ options | MediaTemplate _ options
  | ReceiptTemplate _ options | AirlineBoardingPassTemplate _ options
  | AirlineCheckinTemplate _ options | AirlineItineraryTemplate _ options
  | AirlineUpdateTemplate _ options => options_quick_replies options
  end.

Definition attributes_of (c : TemplateCall) : Props :=
  match c with
  | ReceiptTemplate attrs _ | AirlineBoardingPassTemplate attrs _
  | AirlineCheckinTemplate attrs _ | AirlineItineraryTemplate attrs _
  | AirlineUpdateTemplate attrs _ => attrs
  | _ => []
  end.

End MessengerBuilders.

(** ** Replies and transports for the examples of the methods *)

Module Scenarios.
Import TestData.
Local Open Scope string_scope.

Definition slack_config : RequestConfig :=
  {| cfg_method := js "post"; cfg_url := js "users.list"; cfg_data := JUndefined;
     cfg_authorization := None; cfg_content_type := None; cfg_response_type := None |}.

Definition slack_reply (data : JSValue) : AxiosResponse :=
  {| res_status := 200; res_data := data; res_config := slack_config; res_request := 3%N |}.

(** Two pages of members, as the platform sends them. *)
Definition first_page : JSValue :=
  obj [("ok", JBool true);
       ("members", JArray [str "U1"; str "U2"]);
       ("response_metadata", obj [("next_cursor", str "dXNlcjpVMDYx")])].

Definition second_page : JSValue :=
  obj [("ok", JBool true);
       ("members", JArray [str "U3"]);
       ("response_metadata", obj [("next_cursor", str "")])].

(** A stand-in for [querystring.stringify] that keeps the cursor of the
    body only, and a transport that answers by the cursor. *)
Definition cursor_of (body : JSValue) : JSString :=
  match body with
  | JObject o =>
      match Obj.get o (js "cursor") with
      | Some (JString s) => s
      | _ => []
      end
  | _ => []
  end.

Definition paged (method body : JSString) : Completion AxiosResponse :=
  if JSStr.eqb body [] then Normal (slack_reply first_page)
  else if JSStr.eqb body (js "dXNlcjpVMDYx") then Normal (slack_reply second_page)
  else Throw (plain_error NetworkError "Request failed with status code 500").

(** The same pages, as the client reads them. *)
Definition first_members : Page :=
  {| items := JArray [str "U1"; str "U2"]; next := str "dXNlcjpVMDYx" |}.

Definition second_members : Page :=
  {| items := JArray [str "U3"]; next := str "" |}.

(** A transport that is always rejected with the response for a resource
    that does not exist. *)
Definition rejected (method body : JSString) : Completion AxiosResponse :=
  Throw not_found.

(** A stand-in for [JSON.stringify] that gives the first key of the first
    element of an array. *)
Definition first_key (v : JSValue) : JSString :=
  match v with
  | JArray (JObject ((k, _) :: _) :: _) => k
  | _ => []
  end.

(** Options of [chat.postMessage] with an attachment. *)
Definition bot_attachments : JSValue := JArray [obj [("authorName", str "bot")]].

Definition attachment_options : Props :=
  [(js "channel", str "C0"); (js "attachments", bot_attachments)].

(** The answer of the platform to a message that was posted. *)
Definition posted : AxiosResponse :=
  slack_reply (obj [("ok", JBool true); ("channel", str "C0");
                    ("ts", str "1405895017.000506");
                    ("message", obj [("bot_id", str "B19LU7CSY")])]).

(** Options that set a cursor of their own. *)
Definition cursor_options : Props := [(js "limit", num 2); (js "cursor", str "")].

(** A response of the LINE platform for a request body with two errors. *)
Definition line_config : RequestConfig :=
  {| cfg_method := js "post"; cfg_url := js "/v2/bot/message/push";
     cfg_data := JUndefined; cfg_authorization := None;
     cfg_content_type := None; cfg_response_type := None |}.

Definition two_details : list JSValue :=
  [obj [("message", str "May not be empty"); ("property", str "messages[0].text")];
   obj [("message", str "Must be one of the following values: [text, image]");
        ("property", str "messages[1].type")]].

Definition bad_request : JSError :=
  {| err_name := NetworkError;
     err_message := js "Request failed with status code 400";
     err_config := Some line_config;
     err_request := Some 4%N;
     err_response :=
       Some {| res_status := 400;
               res_data := obj [("message", str "The request body has 2 error(s)");
                                ("details", JArray two_details)];
               res_config := line_config;
               res_request := 4%N |} |}.

Definition two_lines : list JSString :=
  [(10%N :: js "- messages[0].text: May not be empty");
   (10%N :: js "- messages[1].type: Must be one of the following values: [text, image]")].

(** The member ids of a group in two pages, served by the address of the
    request. *)
Definition line_reply (data : JSValue) : AxiosResponse :=
  {| res_status := 200; res_data := data; res_config := line_config; res_request := 5%N |}.

Definition group_members (config : RequestConfig) : Completion AxiosResponse :=
  if JSStr.eqb (cfg_url config) (js "/v2/bot/group/G1/members/ids")
  then Normal (line_reply (obj [("memberIds", JArray [str "U1"; str "U2"]);
                                ("next", str "jxEWCEEP")]))
  else if JSStr.eqb (cfg_url config) (js "/v2/bot/group/G1/members/ids?start=jxEWCEEP")
  then Normal (line_reply (obj [("memberIds", JArray [str "U3"])]))
  else Throw not_found.

Definition first_ids : Page :=
  {| items := JArray [str "U1"; str "U2"]; next := str "jxEWCEEP" |}.

Definition last_ids : Page := {| items := JArray [str "U3"]; next := JUndefined |}.

(** A stand-in for [JSON.stringify] on messages that shows their quick
    replies only, and options whose quick replies are an empty array. *)
Definition replies_text (m : Messenger.Message) : JSString :=
  match Messenger.quick_replies m with
  | None => js "{}"
  | Some [] => quoted "{'quick_replies':[]}"
  | Some (_ :: _) => quoted "{'quick_replies':[...]}"
  end.

Definition no_replies : Messenger.Options :=
  {| Messenger.options_quick_replies := Some [] |}.

End Scenarios.

(** * Properties *)

(** ** Strings *)

Lemma str_eqb_eq (a b : JSString) : JSStr.eqb a b = true <-> a = b.
Proof.
  unfold JSStr.eqb. destruct (list_eq_dec N.eq_dec a b); split; congruence.
Qed.

Lemma str_eqb_refl (a : JSString) : JSStr.eqb a a = true.
Proof. apply str_eqb_eq. reflexivity. Qed.

Lemma str_eqb_neq (a b : JSString) : JSStr.eqb a b = false <-> a <> b.
Proof.
  unfold JSStr.eqb. destruct (list_eq_dec N.eq_dec a b); split; congruence.
Qed.

Lemma prefix_app (p s : JSString) :
  JSStr.prefix p s = true <-> exists post, s = p ++ post.
Proof.
  revert s. induction p as [|a p IH]; intros s; simpl.
  - split; [intros _; exists s; reflexivity | reflexivity].
  - destruct s as [|b s].
    + split; [discriminate | intros [post H]; discriminate].
    + rewrite andb_true_iff, N.eqb_eq, IH. split.
      * intros [-> [post ->]]. exists post. reflexivity.
      * intros [post H]. injection H as -> ->. split; [reflexivity | exists post; reflexivity].
Qed.

(** The search of [RegExp.prototype.test] for a literal pattern finds it
    exactly when it occurs as a substring. *)
Lemma includes_substring (p s : JSString) :
  JSStr.includes p s = true <-> exists pre post, s = pre ++ p ++ post.
Proof.
  induction s as [|c s IH]; simpl.
  - rewrite orb_false_r, prefix_app. split.
    + intros [post H]. exists [], post. exact H.
    + intros [pre [post H]]. destruct pre; [exists post; exact H | discriminate].
  - rewrite orb_true_iff, prefix_app, IH. split.
    + intros [[post H] | [pre [post H]]].
      * exists [], post. exact H.
      * exists (c :: pre), post. simpl. rewrite H. reflexivity.
    + intros [pre [post H]]. destruct pre as [|a pre].
      * left. exists post. exact H.
      * right. simpl in H. injection H as _ H. exists pre, post. exact H.
Qed.

(** ** Numbers and JSON texts, on examples *)

Example number_to_string_examples :
  map (fun me => JSNumber.to_string (JSNumber.of_decimal false (fst me) (snd me)))
      [(1, -1); (3, -1); (1, 3); (1, 21); (1, -7); (123456, -3); (9007199254740993, 0);
       (1, 400); (5, -324); (2, -324)]%Z
  = map js ["0.1"; "0.3"; "1000"; "1e+21"; "1e-7"; "123.456"; "9007199254740992";
            "Infinity"; "5e-324"; "0"]%string.
Proof. vm_compute. reflexivity. Qed.

Example string_to_number_examples :
  map (fun s => JSNumber.to_string (JSNumber.of_string (js s)))
      [""; " 12 "; "1.5"; ".5"; "5."; "0x1F"; "-0x1"; "1e3"; "12px"; "-Infinity"]%string
  = map js ["0"; "12"; "1.5"; "0.5"; "5"; "31"; "NaN"; "1000"; "NaN"; "-Infinity"]%string.
Proof. vm_compute. reflexivity. Qed.

Example JSON_parse_accepts :
  JSON.parse_text (quoted " { 'a' : [1, -2.5e1, true, null, 'x\n\u0041'], 'a' : {}, 'b' : [] } ")
  = Some (JObject [(js "a", JObject []); (js "b", JArray [])])
  /\ JSON.parse_text (quoted "['\u0023613', 0.5]")
     = Some (JArray [JString (js "#613"); JNumber (JSNumber.of_decimal false 5 (-1))])
  /\ JSON.parse_text (js "null") = Some JNull.
Proof. repeat split; vm_compute; reflexivity. Qed.

Example JSON_parse_rejects :
  forallb (fun s => match JSON.parse_text (quoted s) with None => true | Some _ => false end)
    ["not json"; ""; "[1,]"; "{'a':1,}"; "{a:1}"; "01"; "1."; ".5"; "+1"; "'abc"; "[1 2]";
     "{'a' 1}"; "1 2"; "[}"; "tru"; "'\x'"; "NaN"; "undefined"]%string
  = true.
Proof. vm_compute. reflexivity. Qed.

(** ** Batch error classification *)

Section MessengerBatchProperties.
Import MessengerBatch.

(** [getErrorMessage] returns for every input: nothing thrown inside its
    [try] block leaves it. *)
Lemma getErrorMessage_returns (errInfo : BatchRequestErrorInfo) :
  returns (getErrorMessage errInfo).
Proof.
  unfold getErrorMessage, returns, try_catch.
  destruct (_ <- _ ;; _)%js as [m | e]; eauto.
Qed.

(** A body that is not valid JSON gives the empty message, and the
    predicate answers [false]. *)
Lemma unparseable_body (errInfo : BatchRequestErrorInfo) :
  JSON.parse_text (body (response errInfo)) = None ->
  getErrorMessage errInfo = Normal (JString [])
  /\ isError613 errInfo = Normal false.
Proof.
  intros H. assert (G : getErrorMessage errInfo = Normal (JString [])).
  { unfold getErrorMessage, JSON.parse. rewrite H. reflexivity. }
  split; [exact G | unfold isError613; rewrite G; reflexivity].
Qed.

(** A body that parses to a value without [error], or whose [error] is
    [null], gives the empty message. *)
Lemma body_without_error (errInfo : BatchRequestErrorInfo) (v : JSValue) :
  JSON.parse_text (body (response errInfo)) = Some v ->
  (Get v (js "error") = Normal JUndefined \/ Get v (js "error") = Normal JNull) ->
  getErrorMessage errInfo = Normal (JString []).
Proof.
  intros H G. unfold getErrorMessage, JSON.parse. rewrite H. simpl.
  destruct G as [-> | ->]; reflexivity.
Qed.

(** When the body parses and its [error] is an object, the result is the
    [message] property of that object, whatever it holds, and [undefined]
    when the object has none. *)
Lemma body_with_error_object (errInfo : BatchRequestErrorInfo) (v : JSValue) (o : Props) :
  JSON.parse_text (body (response errInfo)) = Some v ->
  Get v (js "error") = Normal (JObject o) ->
  getErrorMessage errInfo = Normal (prop o (js "message")).
Proof.
  intros H G. unfold getErrorMessage, JSON.parse. rewrite H. simpl.
  rewrite G. reflexivity.
Qed.

(** C1. The claim is that [getErrorMessage] and [isError613] never throw,
    whatever the response body is. [getErrorMessage] returns the [message]
    property without looking at it; when it is an object with a property
    named [toString], the conversion to a string made by the regular
    expression test fails, and [isError613] throws a [TypeError]. *)
Theorem isError613_throws_on_object_message :
  isError613 (with_body (quoted "{'error':{'message':{'toString':0}}}"))
  = Throw (plain_error TypeError "Cannot convert object to primitive value").
Proof. vm_compute. reflexivity. Qed.

(** C2. The claim is that [getErrorMessage] returns the empty string when
    the error object has no [message]. The body parses, [error] is an
    object, nothing is thrown, and the absent property is returned as it
    is: [undefined], not a string. *)
Theorem getErrorMessage_undefined_without_message :
  getErrorMessage (with_body (quoted "{'error':{}}")) = Normal JUndefined.
Proof. vm_compute. reflexivity. Qed.

(** C3. [isError613] answers [true] exactly when the message extracted by
    [getErrorMessage], as text, contains [#613] as a substring; the body
    [{"error":{"message":"Error #613 occurred"}}] gives that message and
    the answer [true]. The function reads nothing but its argument, and of
    it nothing but the response body. *)
Theorem isError613_iff_contains :
  (forall errInfo : BatchRequestErrorInfo,
     isError613 errInfo = Normal true <->
     exists (message : JSValue) (s pre post : JSString),
       getErrorMessage errInfo = Normal message
       /\ ToString message = Normal s
       /\ s = pre ++ js "#613" ++ post)
  /\ (forall errInfo errInfo' : BatchRequestErrorInfo,
        body (response errInfo) = body (response errInfo') ->
        isError613 errInfo = isError613 errInfo')
  /\ getErrorMessage (with_body (quoted "{'error':{'message':'Error #613 occurred'}}"))
     = Normal (JString (js "Error #613 occurred"))
  /\ isError613 (with_body (quoted "{'error':{'message':'Error #613 occurred'}}"))
     = Normal true.
Proof.
  split; [| split; [| split; vm_compute; reflexivity]].
  2: { intros errInfo errInfo' H. unfold isError613, getErrorMessage. rewrite H. reflexivity. }
  intros errInfo. unfold isError613.
  destruct (getErrorMessage_returns errInfo) as [m Hm]. rewrite Hm. simpl.
  unfold RegExp_test. split.
  - intros H. destruct (ToString m) as [s | e] eqn:Hs; simpl in H; [| discriminate].
    injection H as H. apply includes_substring in H. destruct H as [pre [post H]].
    exists m, s, pre, post. auto.
  - intros [m' [s [pre [post [H1 [H2 H3]]]]]]. injection H1 as <-.
    rewrite H2. simpl. f_equal. apply includes_substring. exists pre, post. exact H3.
Qed.

(** [isError613] returns whenever the message is not an object or an
    array: a string, a number, a boolean, [null] or [undefined]. *)
Lemma isError613_returns_on_primitive (errInfo : BatchRequestErrorInfo) (message : JSValue) :
  getErrorMessage errInfo = Normal message ->
  match message with JArray _ | JObject _ => False | _ => True end ->
  returns (isError613 errInfo).
Proof.
  intros H Hp. unfold isError613. rewrite H. unfold returns, RegExp_test.
  destruct message; try contradiction; simpl; eauto.
Qed.

(** For a message that is a string, the answer is the substring test on
    that string. *)
Lemma isError613_string_message (errInfo : BatchRequestErrorInfo) (s : JSString) :
  getErrorMessage errInfo = Normal (JString s) ->
  isError613 errInfo = Normal (JSStr.includes (js "#613") s).
Proof. intros H. unfold isError613. rewrite H. reflexivity. Qed.

End MessengerBatchProperties.

(** ** Objects *)

Section ObjProperties.
Variable V : Type.
Implicit Types (o l : list (JSString * V)) (k : JSString) (v : V).

Lemma existsb_eqb_In (k : JSString) (ks : list JSString) :
  existsb (JSStr.eqb k) ks = true <-> In k ks.
Proof.
  rewrite existsb_exists. split.
  - intros [x [Hx He]]. apply str_eqb_eq in He. subst. exact Hx.
  - intros H. exists k. split; [exact H | apply str_eqb_refl].
Qed.

Lemma distinct_NoDup (ks : list JSString) :
  KeyCase.distinct ks = true <-> NoDup ks.
Proof.
  induction ks as [|k r IH]; simpl.
  - split; [constructor | reflexivity].
  - rewrite andb_true_iff, negb_true_iff, IH. split.
    + intros [H1 H2]. constructor; [| exact H2].
      intros Hin. apply existsb_eqb_In in Hin. congruence.
    + intros H. inversion H as [| ? ? H1 H2]; subst. split; [| exact H2].
      destruct (existsb (JSStr.eqb k) r) eqn:E; [| reflexivity].
      apply existsb_eqb_In in E. contradiction.
Qed.

Lemma get_None_keys o k : Obj.get o k = None <-> ~ In k (map fst o).
Proof.
  induction o as [|[k' v'] r IH]; simpl.
  - split; [intros _ [] | reflexivity].
  - destruct (JSStr.eqb k' k) eqn:E.
    + apply str_eqb_eq in E. subst. split; [discriminate | intros H; exfalso; auto].
    + apply str_eqb_neq in E. rewrite IH. split.
      * intros H [H1 | H1]; auto.
      * intros H H1. apply H. right. exact H1.
Qed.

Lemma has_keys o k : Obj.has o k = true <-> In k (map fst o).
Proof.
  unfold Obj.has. destruct (Obj.get o k) eqn:E.
  - split; [intros _ | reflexivity].
    destruct (in_dec (list_eq_dec N.eq_dec) k (map fst o)) as [H | H]; [exact H |].
    apply get_None_keys in H. congruence.
  - apply get_None_keys in E. split; [discriminate | contradiction].
Qed.

Lemma get_In o k v : Obj.get o k = Some v -> In (k, v) o.
Proof.
  induction o as [|[k' v'] r IH]; simpl; [discriminate |].
  destruct (JSStr.eqb k' k) eqn:E.
  - apply str_eqb_eq in E. intros H. injection H as ->. subst. left. reflexivity.
  - intros H. right. exact (IH H).
Qed.

Lemma In_get_NoDup o k v : NoDup (map fst o) -> In (k, v) o -> Obj.get o k = Some v.
Proof.
  induction o as [|[k' v'] r IH]; simpl; [intros _ [] |].
  intros Hnd [H | H].
  - injection H as -> ->. rewrite str_eqb_refl. reflexivity.
  - inversion Hnd as [| ? ? H1 H2]; subst.
    destruct (JSStr.eqb k' k) eqn:E.
    + apply str_eqb_eq in E. subst. exfalso. apply H1.
      change k with (fst (k, v)). apply in_map. exact H.
    + exact (IH H2 H).
Qed.

(** Assigning a property the object does not have adds it last. *)
Lemma set_new o k v : ~ In k (map fst o) -> Obj.set o k v = o ++ [(k, v)].
Proof.
  induction o as [|[k' v'] r IH]; simpl; intros H; [reflexivity |].
  destruct (JSStr.eqb k' k) eqn:E.
  - apply str_eqb_eq in E. exfalso. auto.
  - rewrite IH; auto.
Qed.

Lemma set_keys o k v :
  map fst (Obj.set o k v) = if Obj.has o k then map fst o else map fst o ++ [k].
Proof.
  unfold Obj.has. induction o as [|[k' v'] r IH]; simpl; [reflexivity |].
  destruct (JSStr.eqb k' k) eqn:E; simpl.
  - apply str_eqb_eq in E. subst. reflexivity.
  - rewrite IH. destruct (Obj.get r k); reflexivity.
Qed.

Lemma set_NoDup o k v : NoDup (map fst o) -> NoDup (map fst (Obj.set o k v)).
Proof.
  intros H. rewrite set_keys. destruct (Obj.has o k) eqn:E; [exact H |].
  assert (Hn : ~ In k (map fst o)).
  { intros Hin. apply has_keys in Hin. congruence. }
  apply NoDup_app; [exact H | repeat constructor; intros [] |].
  intros x Hx [<- | []]. contradiction.
Qed.

Lemma set_In o k v kv : In kv (Obj.set o k v) -> In kv o \/ kv = (k, v).
Proof.
  induction o as [|[k' v'] r IH]; simpl.
  - intros [H | []]. right. symmetry. exact H.
  - destruct (JSStr.eqb k' k); simpl.
    + intros [H | H]; [right; symmetry; exact H | left; right; exact H].
    + intros [H | H]; [left; left; exact H |].
      destruct (IH H) as [H1 | H1]; [left; right; exact H1 | right; exact H1].
Qed.

Lemma get_set_same o k v : Obj.get (Obj.set o k v) k = Some v.
Proof.
  induction o as [|[k' v'] r IH]; simpl.
  - rewrite str_eqb_refl. reflexivity.
  - destruct (JSStr.eqb k' k) eqn:E; simpl; rewrite ?str_eqb_refl, ?E; auto.
Qed.

Lemma get_set_other o k k' v : k' <> k -> Obj.get (Obj.set o k v) k' = Obj.get o k'.
Proof.
  intros Hne. induction o as [|[k0 v0] r IH]; simpl.
  - destruct (JSStr.eqb k k') eqn:E; [apply str_eqb_eq in E; congruence | reflexivity].
  - destruct (JSStr.eqb k0 k) eqn:E; simpl.
    + apply str_eqb_eq in E. subst k0.
      destruct (JSStr.eqb k k') eqn:E'; [apply str_eqb_eq in E'; congruence | reflexivity].
    + rewrite IH. reflexivity.
Qed.

(** Folding assignments over a list whose keys are new and distinct
    appends the list. *)
Lemma fold_set_distinct l o :
  NoDup (map fst (o ++ l)) ->
  fold_left (fun acc kv => Obj.set acc (fst kv) (snd kv)) l o = o ++ l.
Proof.
  revert o. induction l as [|[k v] r IH]; intros o H; simpl.
  - rewrite app_nil_r. reflexivity.
  - rewrite set_new.
    + rewrite IH; rewrite <- app_assoc; [reflexivity | exact H].
    + rewrite map_app in H. simpl in H. apply NoDup_remove_2 in H.
      intros Hin. apply H. apply in_or_app. left. exact Hin.
Qed.

Lemma of_entries_distinct l : NoDup (map fst l) -> Obj.of_entries l = l.
Proof. intros H. unfold Obj.of_entries. rewrite fold_set_distinct; auto. Qed.

Lemma fold_set_NoDup l o :
  NoDup (map fst o) ->
  NoDup (map fst (fold_left (fun acc kv => Obj.set acc (fst kv) (snd kv)) l o)).
Proof.
  revert o. induction l as [|[k v] r IH]; intros o H; simpl; [exact H |].
  apply IH. apply set_NoDup. exact H.
Qed.

Lemma of_entries_NoDup l : NoDup (map fst (Obj.of_entries l)).
Proof. apply fold_set_NoDup. constructor. Qed.

Lemma fold_set_In l o kv :
  In kv (fold_left (fun acc kv => Obj.set acc (fst kv) (snd kv)) l o) ->
  In kv o \/ In kv l.
Proof.
  revert o. induction l as [|[k v] r IH]; intros o H; simpl in *; [left; exact H |].
  destruct (IH _ H) as [H1 | H1]; [| right; right; exact H1].
  destruct (set_In _ _ _ _ H1) as [H2 | H2]; [left; exact H2 | right; left; symmetry; exact H2].
Qed.

(** Every property of the object built from a list is an entry of the
    list. *)
Lemma of_entries_In l kv : In kv (Obj.of_entries l) -> In kv l.
Proof. intros H. destruct (fold_set_In _ _ _ H) as [[] | H1]. exact H1. Qed.

Lemma fold_set_has l o k :
  In k (map fst o) \/ In k (map fst l) ->
  In k (map fst (fold_left (fun acc kv => Obj.set acc (fst kv) (snd kv)) l o)).
Proof.
  revert o. induction l as [|[k' v'] r IH]; intros o H; simpl in *.
  - destruct H as [H | []]. exact H.
  - apply IH. rewrite set_keys.
    destruct H as [H | [H | H]].
    + left. destruct (Obj.has o k'); [exact H | apply in_or_app; left; exact H].
    + subst k'. left. destruct (Obj.has o k) eqn:E.
      * apply has_keys. exact E.
      * apply in_or_app. right. left. reflexivity.
    + right. exact H.
Qed.

(** Every key of the list is a key of the object built from it. *)
Lemma of_entries_has l k : In k (map fst l) -> Obj.has (Obj.of_entries l) k = true.
Proof. intros H. apply has_keys. apply fold_set_has. right. exact H. Qed.

(** The last entry of a list is a property of the object built from it. *)
Lemma of_entries_last l k v : Obj.get (Obj.of_entries (l ++ [(k, v)])) k = Some v.
Proof.
  unfold Obj.of_entries. rewrite fold_left_app. simpl. apply get_set_same.
Qed.
End ObjProperties.

(** ** Key casing *)

Section KeyCaseProperties.
Import KeyCase.

Variable f : JSString -> JSString.

Lemma mapKeysDeep_object (o : Props) :
  mapKeysDeep f (JObject o) = JObject (Obj.of_entries (map (entry f) o)).
Proof. reflexivity. Qed.

(** The result of a conversion is made of mappings, whatever the input. *)
Lemma mapKeysDeep_well_formed (v : JSValue) : well_formed (mapKeysDeep f v) = true.
Proof.
  induction v as [| | | | | l IH | o IH] using JSValue_deep_ind; try reflexivity.
  - simpl. apply forallb_forall. intros x Hx. apply in_map_iff in Hx.
    destruct Hx as [y [<- Hy]]. rewrite Forall_forall in IH. auto.
  - rewrite mapKeysDeep_object. simpl. apply andb_true_iff. split.
    + apply distinct_NoDup. apply of_entries_NoDup.
    + apply forallb_forall. intros kv Hkv. apply of_entries_In in Hkv.
      apply in_map_iff in Hkv. destruct Hkv as [kv0 [<- H0]].
      rewrite Forall_forall in IH. exact (IH kv0 H0).
Qed.

(** A tree made of mappings whose keys the rewrite rule leaves alone is
    left alone by the conversion. *)
Lemma mapKeysDeep_fixed (v : JSValue) :
  well_formed v = true ->
  all_keys (fun k => JSStr.eqb (f k) k) v = true ->
  mapKeysDeep f v = v.
Proof.
  induction v as [| | | | | l IH | o IH] using JSValue_deep_ind; try reflexivity;
    simpl; intros Hwf Hk.
  - f_equal. rewrite forallb_forall in Hwf, Hk. rewrite Forall_forall in IH.
    rewrite <- (map_id l) at 2. apply map_ext_in. intros x Hx. auto.
  - f_equal. apply andb_true_iff in Hwf. destruct Hwf as [Hd Hwf].
    rewrite forallb_forall in Hwf, Hk. rewrite Forall_forall in IH.
    assert (E : map (fun kv => (f (fst kv), mapKeysDeep f (snd kv))) o = o).
    { rewrite <- (map_id o) at 2. apply map_ext_in. intros [k x] Hx.
      specialize (Hk _ Hx). apply andb_true_iff in Hk. destruct Hk as [Hk1 Hk2].
      apply str_eqb_eq in Hk1. specialize (IH _ Hx (Hwf _ Hx) Hk2).
      simpl in *. rewrite Hk1, IH. reflexivity. }
    rewrite E. apply of_entries_distinct. apply distinct_NoDup. exact Hd.
Qed.

(** When rewriting a key of the tree twice gives what rewriting it once
    gives, the rule leaves the keys of the converted tree alone. *)
Lemma mapKeysDeep_keys_fixed (v : JSValue) :
  all_keys (fun k => JSStr.eqb (f (f k)) (f k)) v = true ->
  all_keys (fun k => JSStr.eqb (f k) k) (mapKeysDeep f v) = true.
Proof.
  induction v as [| | | | | l IH | o IH] using JSValue_deep_ind; try reflexivity;
    simpl; intros Hk.
  - rewrite forallb_forall in Hk. rewrite Forall_forall in IH.
    apply forallb_forall. intros x Hx. apply in_map_iff in Hx.
    destruct Hx as [y [<- Hy]]. auto.
  - rewrite forallb_forall in Hk. rewrite Forall_forall in IH.
    apply forallb_forall. intros kv Hkv. apply of_entries_In in Hkv.
    apply in_map_iff in Hkv. destruct Hkv as [kv0 [<- H0]]. simpl.
    specialize (Hk _ H0). apply andb_true_iff in Hk. destruct Hk as [Hk1 Hk2].
    rewrite Hk1. simpl. exact (IH _ H0 Hk2).
Qed.

Lemma mapKeysDeep_idempotent (v : JSValue) :
  all_keys (fun k => JSStr.eqb (f (f k)) (f k)) v = true ->
  mapKeysDeep f (mapKeysDeep f v) = mapKeysDeep f v.
Proof.
  intros H. apply mapKeysDeep_fixed.
  - apply mapKeysDeep_well_formed.
  - apply mapKeysDeep_keys_fixed. exact H.
Qed.

End KeyCaseProperties.

Lemma all_keys_always (p : JSString -> bool) (v : JSValue) :
  (forall k, p k = true) -> KeyCase.all_keys p v = true.
Proof.
  intros Hp. induction v as [| | | | | l IH | o IH] using JSValue_deep_ind;
    try reflexivity; simpl; apply forallb_forall; rewrite Forall_forall in IH.
  - exact IH.
  - intros kv Hkv. rewrite Hp. simpl. exact (IH kv Hkv).
Qed.

Lemma all_keys_impl (p q : JSString -> bool) (v : JSValue) :
  (forall k, p k = true -> q k = true) ->
  KeyCase.all_keys p v = true -> KeyCase.all_keys q v = true.
Proof.
  intros Hpq. induction v as [| | | | | l IH | o IH] using JSValue_deep_ind;
    try reflexivity; simpl; rewrite !forallb_forall; rewrite Forall_forall in IH;
    intros H x Hx.
  - auto.
  - specialize (H x Hx). apply andb_true_iff in H. destruct H as [H1 H2].
    rewrite (Hpq _ H1). simpl. auto.
Qed.

Section KeyRules.
Import KeyCase.

Lemma to_lower_not_upper (c : code_unit) : is_upper (to_lower c) = false.
Proof.
  unfold to_lower. destruct (is_upper c) eqn:E; [| exact E].
  unfold is_upper in *. apply andb_true_iff in E. destruct E as [E1 E2].
  apply N.leb_le in E1, E2. apply andb_false_iff. right. apply N.leb_gt. lia.
Qed.

Lemma snake_tail_no_upper (s : JSString) : no_upper (snake_tail s) = true.
Proof.
  unfold no_upper. induction s as [|c r IH]; simpl; [reflexivity |].
  destruct (is_upper c) eqn:E; simpl.
  - rewrite to_lower_not_upper. simpl. exact IH.
  - rewrite E. simpl. exact IH.
Qed.

(** No upper-case letter is left in a key rewritten to snake_case. *)
Lemma snakeCase_no_upper (k : JSString) : no_upper (snakeCase k) = true.
Proof.
  destruct k as [|c r]; simpl; [reflexivity |].
  rewrite to_lower_not_upper. simpl. apply snake_tail_no_upper.
Qed.

Lemma snake_tail_fixed (s : JSString) : no_upper s = true -> snake_tail s = s.
Proof.
  unfold no_upper. induction s as [|c r IH]; simpl; [reflexivity |].
  intros H. apply andb_true_iff in H. destruct H as [H1 H2].
  apply negb_true_iff in H1. rewrite H1. simpl. rewrite IH; auto.
Qed.

(** A key without upper-case letter passes through unchanged. *)
Lemma snakeCase_fixed (k : JSString) : no_upper k = true -> snakeCase k = k.
Proof.
  destruct k as [|c r]; simpl; [reflexivity |].
  intros H. apply andb_true_iff in H. destruct H as [H1 H2].
  apply negb_true_iff in H1. unfold to_lower. rewrite H1.
  rewrite snake_tail_fixed; auto.
Qed.

Lemma snakeCase_idempotent (k : JSString) : snakeCase (snakeCase k) = snakeCase k.
Proof. apply snakeCase_fixed. apply snakeCase_no_upper. Qed.

Lemma split_segments (k : JSString) :
  Forall (fun seg => no_underscore seg = true) (split k).
Proof.
  induction k as [|c r IH]; simpl.
  - repeat constructor.
  - destruct (N.eqb c underscore) eqn:E.
    + constructor; [reflexivity | exact IH].
    + destruct (split r) as [|seg segs].
      * repeat constructor. unfold no_underscore. simpl. rewrite E. reflexivity.
      * inversion IH as [| ? ? H1 H2]; subst. constructor; [| exact H2].
        unfold no_underscore in *. simpl. rewrite E. exact H1.
Qed.

Lemma split_no_underscore (s : JSString) : no_underscore s = true -> split s = [s].
Proof.
  unfold no_underscore. induction s as [|c r IH]; simpl; [reflexivity |].
  intros H. apply andb_true_iff in H. destruct H as [H1 H2].
  apply negb_true_iff in H1. rewrite H1, (IH H2). reflexivity.
Qed.

(** A key without underscore passes through unchanged. *)
Lemma camelCase_fixed (s : JSString) : no_underscore s = true -> camelCase s = s.
Proof.
  intros H. unfold camelCase. rewrite (split_no_underscore _ H). apply app_nil_r.
Qed.

Lemma to_upper_not_underscore (c : code_unit) :
  N.eqb c underscore = false -> N.eqb (to_upper c) underscore = false.
Proof.
  unfold to_upper, is_lower, underscore. intros H.
  destruct ((97 <=? c)%N && (c <=? 122)%N) eqn:E; [| exact H].
  apply andb_true_iff in E. destruct E as [E1 E2]. apply N.leb_le in E1, E2.
  apply N.eqb_neq. lia.
Qed.

Lemma capitalize_no_underscore (s : JSString) :
  no_underscore s = true -> no_underscore (capitalize s) = true.
Proof.
  unfold no_underscore. destruct s as [|c r]; simpl; [reflexivity |].
  intros H. apply andb_true_iff in H. destruct H as [H1 H2].
  apply negb_true_iff in H1. rewrite (to_upper_not_underscore _ H1). exact H2.
Qed.

Lemma to_upper_idempotent (c : code_unit) : to_upper (to_upper c) = to_upper c.
Proof.
  unfold to_upper, is_lower.
  destruct ((97 <=? c)%N && (c <=? 122)%N) eqn:E; [| rewrite E; reflexivity].
  apply andb_true_iff in E. destruct E as [E1 E2]. apply N.leb_le in E1, E2.
  assert (H : ((97 <=? c - 32)%N && (c - 32 <=? 122)%N) = false).
  { apply andb_false_iff. left. apply N.leb_gt. lia. }
  rewrite H. reflexivity.
Qed.

(** After a non-empty segment, non-empty segments are capitalized and
    concatenated. *)
Lemma camel_tail_plain (segs : list JSString) : forall prev,
  prev <> [] ->
  forallb (fun s => match s with [] => false | _ => true end) segs = true ->
  camel_tail prev segs = List.concat (map capitalize segs).
Proof.
  induction segs as [|s r IH]; intros prev Hp Hne; simpl; [reflexivity |].
  simpl in Hne. apply andb_true_iff in Hne. destruct Hne as [Hs Hr].
  destruct prev as [|p prev]; [contradiction |]. destruct s as [|c t]; [discriminate |].
  rewrite IH; [reflexivity | discriminate | exact Hr].
Qed.

Lemma join_cons (sep x : JSString) (l : list JSString) :
  l <> [] -> join sep (x :: l) = x ++ sep ++ join sep l.
Proof. destruct l; [contradiction | reflexivity]. Qed.

Lemma merge_not_nil (segs : list JSString) : forall acc prev, merge acc prev segs <> [].
Proof.
  induction segs as [|s r IH]; intros acc prev; simpl; [discriminate |].
  destruct prev, s; try discriminate. apply IH.
Qed.

(** The rewritten key is its segments joined by the underscores that are
    kept. *)
Lemma merge_join (segs : list JSString) : forall acc prev,
  acc ++ camel_tail prev segs = join [underscore] (merge acc prev segs).
Proof.
  induction segs as [|s r IH]; intros acc prev; simpl; [apply app_nil_r |].
  destruct prev as [|p prev]; [| destruct s as [|c t]];
    try (rewrite join_cons by apply merge_not_nil; rewrite <- IH; reflexivity).
  rewrite <- IH, <- app_assoc. reflexivity.
Qed.

Lemma merge_no_underscore (segs : list JSString) : forall acc prev,
  no_underscore acc = true ->
  Forall (fun seg => no_underscore seg = true) segs ->
  Forall (fun seg => no_underscore seg = true) (merge acc prev segs).
Proof.
  induction segs as [|s r IH]; intros acc prev Ha HF; simpl; [repeat constructor; exact Ha |].
  inversion HF as [| ? ? H1 H2]; subst.
  pose proof (capitalize_no_underscore _ H1) as Hc.
  destruct prev as [|p prev]; [| destruct s as [|c t]];
    try (constructor; [exact Ha | apply IH; assumption]).
  apply IH; [| exact H2]. unfold no_underscore in *. rewrite forallb_app.
  apply andb_true_iff. split; [exact Ha | exact Hc].
Qed.

(** The segments of a rewritten key are left as they are by the rule. *)
Lemma merge_settled (segs : list JSString) : forall acc prev,
  (prev = [] <-> acc = []) ->
  exists x rest,
    merge acc prev segs = (acc ++ x) :: rest
    /\ (prev = [] -> x = [])
    /\ settled (acc ++ x) rest.
Proof.
  induction segs as [|s r IH]; intros acc prev Hi; simpl.
  - exists [], []. rewrite app_nil_r. repeat split.
  - assert (Hs : s = [] <-> capitalize s = []) by (destruct s; simpl; split; congruence).
    destruct (IH (capitalize s) s Hs) as [x' [rest' [E' [Hx' Hset']]]].
    assert (Hcap : capitalize (capitalize s ++ x') = capitalize s ++ x').
    { destruct s as [|c t]; [rewrite (Hx' eq_refl); reflexivity |].
      simpl. rewrite to_upper_idempotent. reflexivity. }
    destruct prev as [|p prev].
    + exists [], (merge (capitalize s) s r). rewrite app_nil_r. split; [reflexivity |].
      split; [reflexivity |]. rewrite E'. simpl. split; [| split; assumption].
      left. apply Hi. reflexivity.
    + destruct s as [|c t].
      * cbn [capitalize] in *.
        exists [], (merge [] [] r). rewrite app_nil_r. split; [reflexivity |].
        split; [discriminate |]. rewrite E'. simpl. split; [| split; assumption].
        right. rewrite (Hx' eq_refl). reflexivity.
      * assert (Hi2 : (c :: t = [] <-> acc ++ capitalize (c :: t) = [])).
        { split; [discriminate |]. intros H. apply app_eq_nil in H. destruct H as [_ H].
          discriminate H. }
        destruct (IH (acc ++ capitalize (c :: t)) (c :: t) Hi2) as [x [rest [E [_ Hset]]]].
        exists (capitalize (c :: t) ++ x), rest. rewrite app_assoc.
        split; [exact E |]. split; [discriminate | exact Hset].
Qed.

(** The rule leaves settled segments joined by underscores as they are. *)
Lemma camel_tail_settled (segs : list JSString) : forall a,
  settled a segs -> a ++ camel_tail a segs = join [underscore] (a :: segs).
Proof.
  induction segs as [|b r IH]; intros a H; simpl camel_tail; [apply app_nil_r |].
  destruct H as [H1 [H2 H3]]. rewrite join_cons by discriminate. rewrite <- (IH b H3).
  destruct a as [|p a]; [| destruct b as [|c t]]; rewrite ?H2; try reflexivity.
  destruct H1; discriminate.
Qed.

End KeyRules.

Section Conversions.
Import KeyCase TestData.

Lemma split_app_underscore (x t : JSString) :
  no_underscore x = true -> split (x ++ underscore :: t) = x :: split t.
Proof.
  unfold no_underscore. induction x as [|c x IH]; simpl; [reflexivity |].
  intros H. apply andb_true_iff in H. destruct H as [H1 H2].
  apply negb_true_iff in H1. rewrite H1, (IH H2). reflexivity.
Qed.

(** Splitting undoes joining with underscores. *)
Lemma split_join (s : JSString) (segs : list JSString) :
  Forall (fun seg => no_underscore seg = true) (s :: segs) ->
  split (join [underscore] (s :: segs)) = s :: segs.
Proof.
  revert s. induction segs as [|s' r IH]; intros s H; inversion H as [| ? ? H1 H2]; subst.
  - simpl. apply split_no_underscore. exact H1.
  - change (join [underscore] (s :: s' :: r))
      with (s ++ underscore :: join [underscore] (s' :: r)).
    rewrite (split_app_underscore _ _ H1), (IH _ H2). reflexivity.
Qed.

(** The rewrite rule on a key given by its segments: the first segment is
    kept, each later one is capitalized, and they are concatenated. *)
Lemma camelCase_segments (s : JSString) (segs : list JSString) :
  Forall (fun seg => no_underscore seg = true) (s :: segs) ->
  forallb (fun x => match x with [] => false | _ => true end) (s :: segs) = true ->
  camelCase (join [underscore] (s :: segs)) = s ++ List.concat (map capitalize segs).
Proof.
  intros HF Hne. unfold camelCase. rewrite (split_join HF).
  simpl in Hne. apply andb_true_iff in Hne. destruct Hne as [Hs Hr].
  rewrite camel_tail_plain; [reflexivity | | exact Hr].
  destruct s; [discriminate Hs | discriminate].
Qed.

(** Rewriting a key to camelCase twice gives what rewriting it once
    gives: the underscores that the first pass keeps border an empty
    segment, and the second pass keeps them again. *)
Lemma camelCase_idempotent (k : JSString) : camelCase (camelCase k) = camelCase k.
Proof.
  unfold camelCase at 2 3. pose proof (split_segments k) as HF.
  destruct (split k) as [|s rest]; [reflexivity |].
  inversion HF as [| ? ? H1 H2]; subst.
  rewrite merge_join.
  destruct (@merge_settled rest s s (conj (fun H => H) (fun H => H)))
    as [x [segs [E [_ Hset]]]].
  pose proof (@merge_no_underscore rest s s H1 H2) as Hno. rewrite E in *.
  unfold camelCase.
  replace (split (join [underscore] ((s ++ x) :: segs))) with ((s ++ x) :: segs)
    by (symmetry; exact (split_join Hno)).
  apply camel_tail_settled. exact Hset.
Qed.

(** C4. Converting a tree twice toward a convention gives what converting
    it once gives, for both conventions and for every tree: a tree is a
    value whose mappings have strings as keys and which holds no opaque
    payload. *)
Theorem convert_idempotent (M : JSValue) (C : CaseConvention) :
  convert (convert M C) C = convert M C.
Proof.
  destruct C; simpl; apply mapKeysDeep_idempotent; apply all_keys_always; intros k;
    apply str_eqb_eq; [apply snakeCase_idempotent | apply camelCase_idempotent].
Qed.

(** Keys with leading, trailing and doubled underscores keep all of them,
    once and twice. *)
Example camelCase_keeps_underscores :
  map (fun k => camelCase (js k)) ["a__b"; "_"; "__"; "_a"; "a_"; "a_b__c_d"; "user_id"]%string
  = map js ["a__B"; "_"; "__"; "_A"; "a_"; "aB__CD"; "userId"]%string
  /\ map (fun k => camelCase (camelCase (js k)))
         ["a__b"; "_"; "__"; "_a"; "a_"; "a_b__c_d"; "user_id"]%string
     = map js ["a__B"; "_"; "__"; "_A"; "a_"; "aB__CD"; "userId"]%string.
Proof. split; vm_compute; reflexivity. Qed.

(** C5. The conversion toward camelCase goes through the whole tree:
    arrays are converted element by element; every property of a converted
    object comes from a property of the object, with its key rewritten and
    its value converted, and every property of the object gives one; when
    the rewritten keys are distinct the properties correspond one to one;
    the other values are returned unchanged. A key made of non-empty
    segments joined by underscores is rewritten to its first segment
    followed by the later segments capitalized. *)
Theorem camelcaseKeysDeep_rewrites_keys :
  (forall l, camelcaseKeysDeep (JArray l) = JArray (map camelcaseKeysDeep l))
  /\ (forall o, exists o',
        camelcaseKeysDeep (JObject o) = JObject o'
        /\ (forall k v, In (k, v) o' ->
              exists k0 v0, In (k0, v0) o /\ k = camelCase k0 /\ v = camelcaseKeysDeep v0)
        /\ (forall k0 v0, In (k0, v0) o -> Obj.has o' (camelCase k0) = true)
        /\ (NoDup (map (fun kv => camelCase (fst kv)) o) ->
            o' = map (fun kv => (camelCase (fst kv), camelcaseKeysDeep (snd kv))) o))
  /\ (forall v, match v with JArray _ | JObject _ => True | _ => camelcaseKeysDeep v = v end)
  /\ (forall s segs,
        Forall (fun seg => no_underscore seg = true) (s :: segs) ->
        forallb (fun x => match x with [] => false | _ => true end) (s :: segs) = true ->
        camelCase (join [underscore] (s :: segs)) = s ++ List.concat (map capitalize segs))
  /\ camelcaseKeysDeep (obj [("user_id"%string, num 1); ("profile_pic"%string, str "x")])
     = obj [("userId"%string, num 1); ("profilePic"%string, str "x")]
  /\ camelcaseKeysDeep (JArray [obj [("a_b"%string, num 1)]])
     = JArray [obj [("aB"%string, num 1)]]
  /\ camelcaseKeysDeep sticker_set_reply = sticker_set_result.
Proof.
  split; [reflexivity |]. split.
  { intros o. eexists. split; [reflexivity |]. split; [| split].
    - intros k v H. apply of_entries_In in H. apply in_map_iff in H.
      destruct H as [[k0 v0] [E H]]. injection E as <- <-. eauto.
    - intros k0 v0 H. apply of_entries_has. rewrite map_map. simpl.
      change (camelCase k0) with ((fun kv : JSString * JSValue => camelCase (fst kv)) (k0, v0)).
      apply in_map. exact H.
    - intros H. apply of_entries_distinct. rewrite map_map. exact H. }
  split; [intros []; auto |].
  split; [exact camelCase_segments |].
  repeat split; vm_compute; reflexivity.
Qed.

End Conversions.

Section RoundTrip.
Import KeyCase TestData.

Lemma NoDup_map_on (A B : Type) (g : A -> B) (l : list A) :
  (forall x y, In x l -> In y l -> g x = g y -> x = y) ->
  NoDup l -> NoDup (map g l).
Proof.
  induction l as [|a r IH]; simpl; intros Hinj Hnd; [constructor |].
  inversion Hnd as [| ? ? H1 H2]; subst. constructor.
  - intros Hin. apply in_map_iff in Hin. destruct Hin as [x [E Hx]].
    assert (x = a) by (apply Hinj; auto). subst. contradiction.
  - apply IH; auto.
Qed.

(** The keys of a mapping that round-trip stay distinct in snake_case. *)
Lemma snake_keys_distinct (o : Props) :
  NoDup (map fst o) ->
  forallb (fun kv => round_trips (fst kv)) o = true ->
  NoDup (map fst (map (entry snakeCase) o)).
Proof.
  intros Hnd Hk. rewrite map_map. simpl.
  rewrite <- (map_map fst snakeCase). apply NoDup_map_on; [| exact Hnd].
  intros x y Hx Hy E. rewrite forallb_forall in Hk.
  apply in_map_iff in Hx, Hy. destruct Hx as [kx [<- Hx]]. destruct Hy as [ky [<- Hy]].
  pose proof (Hk _ Hx) as Rx. pose proof (Hk _ Hy) as Ry.
  apply str_eqb_eq in Rx, Ry. rewrite <- Rx, <- Ry, E. reflexivity.
Qed.

Lemma round_trip_tree (M : JSValue) :
  well_formed M = true ->
  all_keys round_trips M = true ->
  camelcaseKeysDeep (snakecaseKeysDeep M) = M.
Proof.
  unfold camelcaseKeysDeep, snakecaseKeysDeep.
  induction M as [| | | | | l IH | o IH] using JSValue_deep_ind; try reflexivity;
    simpl; intros Hwf Hk.
  - f_equal. rewrite map_map. rewrite forallb_forall in Hwf, Hk.
    rewrite Forall_forall in IH. rewrite <- (map_id l) at 2.
    apply map_ext_in. intros x Hx. auto.
  - f_equal. apply andb_true_iff in Hwf. destruct Hwf as [Hd Hwf].
    apply distinct_NoDup in Hd.
    assert (Hk1 : forallb (fun kv => round_trips (fst kv)) o = true).
    { rewrite forallb_forall in *. intros kv Hkv. specialize (Hk _ Hkv).
      apply andb_true_iff in Hk. tauto. }
    fold (entry snakeCase).
    rewrite (of_entries_distinct _ (snake_keys_distinct o Hd Hk1)).
    rewrite map_map.
    assert (E : map (fun x => (camelCase (fst (entry snakeCase x)),
                               mapKeysDeep camelCase (snd (entry snakeCase x)))) o = o).
    { rewrite <- (map_id o) at 2. apply map_ext_in. intros [k x] Hx.
      rewrite forallb_forall in Hwf, Hk. rewrite Forall_forall in IH.
      specialize (Hk _ Hx). apply andb_true_iff in Hk. destruct Hk as [Hk2 Hk3].
      apply str_eqb_eq in Hk2. specialize (IH _ Hx (Hwf _ Hx) Hk3).
      simpl in *. rewrite Hk2, IH. reflexivity. }
    rewrite E. apply of_entries_distinct. exact Hd.
Qed.

(** C6. A mapping whose keys are unchanged by the conversion to snake_case
    and back is given again by converting it to snake_case and back;
    [{userId: 1, profilePic: "x"}] becomes [{user_id: 1, profile_pic: "x"}];
    a tree and its snake_case counterpart are sent as the same body, as
    are the camelCase and the snake_case options of the sticker tests. *)
Theorem camel_snake_round_trip :
  (forall M : JSValue,
     well_formed M = true ->
     all_keys round_trips M = true ->
     convert (convert M Snake) Camel = M)
  /\ convert (obj [("userId"%string, num 1); ("profilePic"%string, str "x")]) Snake
     = obj [("user_id"%string, num 1); ("profile_pic"%string, str "x")]
  /\ (forall M : JSValue, snakecaseKeysDeep (convert M Snake) = snakecaseKeysDeep M)
  /\ snakecaseKeysDeep options_camelcase = options_snakecase
  /\ snakecaseKeysDeep options_camelcase = snakecaseKeysDeep options_snakecase.
Proof.
  split; [exact round_trip_tree |]. split; [vm_compute; reflexivity |]. split.
  - intros M. apply mapKeysDeep_idempotent. apply all_keys_always.
    intros k. apply str_eqb_eq. apply snakeCase_idempotent.
  - split; vm_compute; reflexivity.
Qed.

Lemma camel_snake_round_trip_witness :
  well_formed options_camelcase = true
  /\ all_keys round_trips options_camelcase = true
  /\ convert (convert options_camelcase Snake) Camel = options_camelcase.
Proof.
  split; [vm_compute; reflexivity |]. split; [vm_compute; reflexivity |].
  apply (proj1 camel_snake_round_trip options_camelcase); vm_compute; reflexivity.
Defined.

End RoundTrip.

Section ObjLookup.
Variable V : Type.
Implicit Types (o l : list (JSString * V)) (k : JSString) (v : V).

Lemma get_app o l k :
  Obj.get (o ++ l) k = match Obj.get o k with Some v => Some v | None => Obj.get l k end.
Proof.
  induction o as [|[k' v'] r IH]; simpl; [reflexivity |].
  destruct (JSStr.eqb k' k); [reflexivity | exact IH].
Qed.

Lemma get_set o k k' v :
  Obj.get (Obj.set o k v) k' = if JSStr.eqb k k' then Some v else Obj.get o k'.
Proof.
  destruct (JSStr.eqb k k') eqn:E.
  - apply str_eqb_eq in E. subst. apply get_set_same.
  - apply str_eqb_neq in E. apply get_set_other. congruence.
Qed.

Lemma fold_set_get l o k :
  Obj.get (fold_left (fun acc kv => Obj.set acc (fst kv) (snd kv)) l o) k
  = match Obj.get (rev l) k with Some v => Some v | None => Obj.get o k end.
Proof.
  revert o. induction l as [|[k1 v1] r IH]; intros o; simpl; [reflexivity |].
  rewrite IH, get_app, get_set. simpl.
  destruct (Obj.get (rev r) k); [reflexivity |].
  destruct (JSStr.eqb k1 k); reflexivity.
Qed.

(** A property of the object built from a list holds the value of the last
    entry of the list with its key. *)
Lemma of_entries_get l k : Obj.get (Obj.of_entries l) k = Obj.get (rev l) k.
Proof.
  unfold Obj.of_entries. rewrite fold_set_get. destruct (Obj.get (rev l) k); reflexivity.
Qed.

Lemma of_entries_get_unique l k v :
  In (k, v) l -> (forall v', In (k, v') l -> v' = v) ->
  Obj.get (Obj.of_entries l) k = Some v.
Proof.
  intros Hin Hu. rewrite of_entries_get.
  destruct (Obj.get (rev l) k) as [v' |] eqn:E.
  - apply get_In in E. apply in_rev in E. rewrite (Hu _ E). reflexivity.
  - apply get_None_keys in E. exfalso. apply E.
    change k with (fst (k, v)). apply in_map. apply in_rev. rewrite rev_involutive. exact Hin.
Qed.

Lemma omit_In o (ks : list JSString) (kv : JSString * V) :
  In kv (Obj.omit o ks) <-> In kv o /\ ~ In (fst kv) ks.
Proof.
  unfold Obj.omit. rewrite filter_In, negb_true_iff. split; intros [H1 H2]; split; auto.
  - intros Hin. apply existsb_eqb_In in Hin. congruence.
  - destruct (existsb (JSStr.eqb (fst kv)) ks) eqn:E; [| reflexivity].
    apply existsb_eqb_In in E. contradiction.
Qed.

Lemma omit_keys o (ks : list JSString) k :
  In k (map fst (Obj.omit o ks)) -> In k (map fst o) /\ ~ In k ks.
Proof.
  intros H. apply in_map_iff in H. destruct H as [kv [<- H]].
  apply omit_In in H. destruct H as [H1 H2]. split; [apply in_map; exact H1 | exact H2].
Qed.

Lemma omit_NoDup o (ks : list JSString) :
  NoDup (map fst o) -> NoDup (map fst (Obj.omit o ks)).
Proof.
  unfold Obj.omit. induction o as [|[k v] r IH]; simpl; intros H; [constructor |].
  inversion H as [| ? ? H1 H2]; subst.
  destruct (negb (existsb (JSStr.eqb k) ks)); simpl; [| auto].
  constructor; [| auto]. intros Hin. apply H1.
  apply in_map_iff in Hin. destruct Hin as [kv [E Hkv]]. apply filter_In in Hkv.
  rewrite <- E. apply in_map. tauto.
Qed.

Lemma NoDup_keys_unique o k v v' :
  NoDup (map fst o) -> In (k, v) o -> In (k, v') o -> v = v'.
Proof.
  intros Hnd H1 H2. apply (In_get_NoDup _ _ _ Hnd) in H1, H2. congruence.
Qed.
End ObjLookup.

(** ** Slack *)

Section SlackProperties.
Import KeyCase Slack TestData.

Lemma request_body_last (self : SlackOAuthClient) (inputBody : Props) :
  request_body self inputBody
  = Obj.omit inputBody [js "token"; js "accessToken"] ++ [(js "token", token_to_use self inputBody)].
Proof.
  unfold request_body. apply set_new. intros H. apply omit_keys in H.
  destruct H as [_ H]. apply H. left. reflexivity.
Qed.

Lemma wire_body_object (self : SlackOAuthClient) (inputBody : Props) :
  wire_body self inputBody
  = JObject (Obj.of_entries (map (entry snakeCase) (request_body self inputBody))).
Proof. reflexivity. Qed.

(** When the reply, with its keys in camelCase, has a falsy [ok],
    [callMethod] throws an [AxiosError]; when its [error] can be rendered
    as text, the message is [Slack API - ] followed by that text, and the
    error carries the request config, the request and the response. When
    [ok] is truthy the reply with its keys in camelCase is returned. *)
Lemma callMethod_not_ok_throws
    (axios_post : JSString -> JSString -> Completion AxiosResponse)
    (querystring_stringify : JSValue -> JSString)
    (self : SlackOAuthClient) (method : JSString) (inputBody : Props)
    (response : AxiosResponse) (ok : JSValue) :
  axios_post method (querystring_stringify (wire_body self inputBody)) = Normal response ->
  Get (camelcaseKeysDeep (res_data response)) (js "ok") = Normal ok ->
  (ToBoolean ok = false ->
   exists e,
     callMethod axios_post querystring_stringify self method inputBody = Throw e
     /\ err_name e = AxiosError
     /\ forall error text,
          Get (camelcaseKeysDeep (res_data response)) (js "error") = Normal error ->
          ToString error = Normal text ->
          err_message e = js "Slack API - " ++ text
          /\ JSStr.includes text (err_message e) = true
          /\ err_config e = Some (res_config response)
          /\ err_request e = Some (res_request response)
          /\ err_response e = Some response)
  /\ (ToBoolean ok = true ->
      callMethod axios_post querystring_stringify self method inputBody
      = Normal (camelcaseKeysDeep (res_data response))).
Proof.
  intros Hpost Hok. unfold callMethod. rewrite Hpost. simpl. rewrite Hok. simpl. split.
  - intros Hb. rewrite Hb. simpl.
    destruct (Get (camelcaseKeysDeep (res_data response)) (js "error")) as [error | e0] eqn:He;
      simpl.
    + destruct (ToString error) as [text | e1] eqn:Ht; simpl.
      * eexists. split; [reflexivity |]. split; [reflexivity |].
        intros error' text' E1 E2. injection E1 as <-. rewrite Ht in E2. injection E2 as <-.
        split; [reflexivity |]. split; [| repeat split].
        apply includes_substring. exists (js "Slack API - "), [].
        rewrite app_nil_r. reflexivity.
      * eexists. split; [reflexivity |]. split; [reflexivity |].
        intros error' text' E1 E2. injection E1 as <-. congruence.
    + eexists. split; [reflexivity |]. split; [reflexivity |]. intros ? ? E. discriminate.
  - intros Hb. rewrite Hb. reflexivity.
Qed.

Example callMethod_channel_not_found :
  callMethod (fun _ _ => Normal channel_not_found) (fun _ => []) slack_client
             (js "chat.postMessage") post_options
  = Throw (new_AxiosError (js "Slack API - channel_not_found")
             (Some (res_config channel_not_found)) (Some (res_request channel_not_found))
             (Some channel_not_found)).
Proof.
  destruct (@callMethod_not_ok_throws (fun _ _ => Normal channel_not_found) (fun _ => [])
              slack_client (js "chat.postMessage") post_options channel_not_found
              (JBool false) eq_refl eq_refl)
    as [H _].
  destruct (H eq_refl) as [e [He [Hn Hm]]].
  destruct (Hm (TestData.str "channel_not_found") (js "channel_not_found") eq_refl eq_refl)
    as [H1 [_ [H2 [H3 H4]]]].
  rewrite He. destruct e as [n m c r p]. simpl in *. subst. reflexivity.
Qed.

(** C7. The claim is that whenever [ok] is false the exception thrown has
    the error of the platform in its message and carries the request
    config and the raw response. For a reply whose [error] is an object
    with a property named [toString], building the message fails inside
    the [try] block; the [catch] block wraps that failure, which has
    neither config nor response: what is thrown carries neither, and its
    message is that of the failed conversion. *)
Theorem callMethod_unprintable_error
    (axios_post : JSString -> JSString -> Completion AxiosResponse)
    (querystring_stringify : JSValue -> JSString)
    (self : SlackOAuthClient) (method : JSString) (inputBody : Props) :
  Get (camelcaseKeysDeep (res_data unprintable_error)) (js "ok") = Normal (JBool false)
  /\ (axios_post method (querystring_stringify (wire_body self inputBody))
      = Normal unprintable_error ->
      exists e,
        callMethod axios_post querystring_stringify self method inputBody = Throw e
        /\ err_name e = AxiosError
        /\ err_message e = js "Cannot convert object to primitive value"
        /\ JSStr.includes (js "Slack API") (err_message e) = false
        /\ err_config e = None
        /\ err_request e = None
        /\ err_response e = None).
Proof.
  split; [reflexivity |]. intros H. unfold callMethod. rewrite H.
  eexists. split; [reflexivity |]. repeat split.
Qed.

Lemma callMethod_unprintable_error_witness :
  callMethod (fun _ _ => Normal unprintable_error) (fun _ => []) slack_client
             (js "chat.postMessage") post_options
  = Throw (new_AxiosError (js "Cannot convert object to primitive value") None None None).
Proof.
  destruct (proj2 (@callMethod_unprintable_error
                     (fun _ _ => Normal unprintable_error) (fun _ => []) slack_client
                     (js "chat.postMessage") post_options) eq_refl)
    as [e [He [Hn [Hm [_ [Hc [Hq Hr]]]]]]].
  rewrite He. destruct e as [n m c q r]. simpl in *. subst. reflexivity.
Defined.

(** C9, as stated, at options whose [accessToken] is the empty string:
    the property is present, and the token that is posted is the stored
    one. *)
Lemma empty_accessToken_not_sent :
  Obj.get empty_access_token (js "accessToken") = Some (JString [])
  /\ Get (wire_body slack_client empty_access_token) (js "token")
     <> Normal (prop empty_access_token (js "accessToken")).
Proof. split; [reflexivity | vm_compute; discriminate]. Qed.

(** C9, amended. The posted object has exactly one [token] property. Its
    value is [inputBody.accessToken] when that is truthy (present and not
    empty), otherwise [inputBody.token] when that is truthy, otherwise the
    stored access token. The [accessToken] and the [token] of [inputBody]
    are not sent themselves: every property of the posted object is the
    [token] property or comes from a property of [inputBody] other than
    these two, with its key in snake_case and its value converted. Every
    such property of [inputBody] is passed in this way, as long as no other
    property is given the same key. *)
Theorem callMethod_token (self : SlackOAuthClient) (inputBody : Props) :
  exists o,
    wire_body self inputBody = JObject o
    /\ NoDup (map fst o)
    /\ Obj.get o (js "token") = Some (snakecaseKeysDeep (token_to_use self inputBody))
    /\ (forall s, token_to_use self inputBody = JString s ->
          Obj.get o (js "token") = Some (JString s))
    /\ (ToBoolean (prop inputBody (js "accessToken")) = true ->
          token_to_use self inputBody = prop inputBody (js "accessToken"))
    /\ (ToBoolean (prop inputBody (js "accessToken")) = false ->
        ToBoolean (prop inputBody (js "token")) = true ->
          token_to_use self inputBody = prop inputBody (js "token"))
    /\ (ToBoolean (prop inputBody (js "accessToken")) = false ->
        ToBoolean (prop inputBody (js "token")) = false ->
          token_to_use self inputBody = JString (_token self))
    /\ Obj.has o (js "accessToken") = false
    /\ (forall k v,
          NoDup (map fst inputBody) ->
          In (k, v) inputBody ->
          k <> js "token" -> k <> js "accessToken" ->
          (forall k', In k' (map fst (request_body self inputBody)) ->
                      snakeCase k' = snakeCase k -> k' = k) ->
          Obj.get o (snakeCase k) = Some (snakecaseKeysDeep v))
    /\ (forall k' v',
          In (k', v') o ->
          (k' = js "token" /\ v' = snakecaseKeysDeep (token_to_use self inputBody))
          \/ exists k v,
               In (k, v) inputBody
               /\ k <> js "token" /\ k <> js "accessToken"
               /\ k' = snakeCase k /\ v' = snakecaseKeysDeep v).
Proof.
  eexists. split; [apply wire_body_object |].
  split; [apply of_entries_NoDup |].
  assert (Htok : Obj.get (Obj.of_entries (map (entry snakeCase) (request_body self inputBody)))
                   (js "token") = Some (snakecaseKeysDeep (token_to_use self inputBody))).
  { rewrite request_body_last, map_app. simpl map at 2.
    change (entry snakeCase (js "token", token_to_use self inputBody))
      with (js "token", snakecaseKeysDeep (token_to_use self inputBody)).
    apply of_entries_last. }
  split; [exact Htok |].
  split; [intros s Hs; rewrite Htok, Hs; reflexivity |].
  unfold token_to_use, or_else.
  split; [intros Ha; rewrite Ha; cbv iota; rewrite Ha; reflexivity |].
  split; [intros Ha Ht; rewrite Ha; cbv iota; rewrite Ht; reflexivity |].
  split; [intros Ha Ht; rewrite Ha; cbv iota; rewrite Ht; reflexivity |].
  split.
  - destruct (Obj.has _ (js "accessToken")) eqn:E; [| reflexivity].
    apply has_keys in E. apply in_map_iff in E. destruct E as [kv [E Hkv]].
    apply of_entries_In in Hkv. apply in_map_iff in Hkv. destruct Hkv as [kv0 [<- _]].
    simpl in E. pose proof (snakeCase_no_upper (fst kv0)) as Hu. rewrite E in Hu.
    vm_compute in Hu. discriminate.
  - split.
    2: { intros k' v' Hin. apply of_entries_In in Hin. apply in_map_iff in Hin.
         destruct Hin as [[k v] [E Hkv]]. injection E as <- <-.
         rewrite request_body_last in Hkv. apply in_app_or in Hkv.
         destruct Hkv as [Hkv | [Hkv | []]].
         - right. apply omit_In in Hkv. destruct Hkv as [Hkv Hno]. simpl in Hno.
           exists k, v. split; [exact Hkv |].
           split; [intros ->; apply Hno; left; reflexivity |].
           split; [intros ->; apply Hno; right; left; reflexivity |].
           split; reflexivity.
         - left. injection Hkv as <- <-. split; reflexivity. }
    intros k v Hnd Hin Hk1 Hk2 Hinj.
    assert (Hbody : In (k, v) (request_body self inputBody)).
    { rewrite request_body_last. apply in_or_app. left. apply omit_In. split; [exact Hin |].
      simpl. intros [H | [H | []]]; congruence. }
    assert (Hnd' : NoDup (map fst (request_body self inputBody))).
    { unfold request_body. apply set_NoDup. apply omit_NoDup. exact Hnd. }
    apply of_entries_get_unique.
    + change (snakeCase k, snakecaseKeysDeep v) with (entry snakeCase (k, v)).
      apply in_map. exact Hbody.
    + intros v' Hv'. apply in_map_iff in Hv'. destruct Hv' as [[k0 v0] [E H0]].
      injection E as E1 E2. subst v'.
      assert (k0 = k).
      { apply Hinj; [| exact E1]. change k0 with (fst (k0, v0)). apply in_map. exact H0. }
      subst k0. rewrite (NoDup_keys_unique _ _ _ _ Hnd' H0 Hbody). reflexivity.
Qed.

Lemma callMethod_token_witness :
  Get (wire_body slack_client post_options) (js "token") = Normal (TestData.str "xoxb-custom")
  /\ Get (wire_body slack_client post_options) (js "thread_ts") = Normal (TestData.str "1.5")
  /\ Get (wire_body slack_client post_options) (js "accessToken") = Normal JUndefined
  /\ Get (wire_body slack_client post_options) (js "access_token") = Normal JUndefined.
Proof.
  destruct (callMethod_token slack_client post_options)
    as [o [Ho [_ [_ [Ht [_ [_ [_ [Ha [Hp Hfrom]]]]]]]]]].
  rewrite Ho. unfold Get. unfold Obj.has in Ha.
  rewrite (Ht (js "xoxb-custom") eq_refl).
  change (js "thread_ts") with (snakeCase (js "threadTs")).
  rewrite (Hp (js "threadTs") (TestData.str "1.5")).
  - destruct (Obj.get o (js "accessToken")); [discriminate |].
    destruct (Obj.get o (js "access_token")) as [v' |] eqn:E; [| repeat split].
    exfalso. apply get_In in E. destruct (Hfrom _ _ E) as [[H _] | [k [v [Hin [H1 [H2 [H3 _]]]]]]].
    + discriminate H.
    + destruct Hin as [Hin | [Hin | [Hin | []]]]; injection Hin as <- <-;
        try discriminate H3. apply H2. reflexivity.
  - apply distinct_NoDup. reflexivity.
  - right. right. left. reflexivity.
  - discriminate.
  - discriminate.
  - vm_compute. intros k' [<- | [<- | [<- | []]]] H; try reflexivity; discriminate.
Defined.

End SlackProperties.

(** ** LINE *)

Section LineProperties.
Import Line TestData.

(** The errors thrown by the operations of the language carry no
    response. *)
Lemma sequence_throws (A : Type) (l : list (Completion A)) (e : JSError) :
  sequence l = Throw e -> In (Throw e) l.
Proof.
  induction l as [|c r IH]; simpl; [discriminate |].
  destruct c as [a | e0]; simpl.
  - destruct (sequence r) as [xs | e1]; simpl; [discriminate |].
    intros H. injection H as <-. right. apply IH. reflexivity.
  - intros H. injection H as <-. left. reflexivity.
Qed.

Lemma ToString_throws (v : JSValue) (e : JSError) :
  ToString v = Throw e -> err_response e = None.
Proof.
  induction v as [| | | | | l IH | o IH] using JSValue_deep_ind; simpl; try discriminate.
  - destruct (sequence _) as [parts | e0] eqn:E; simpl; [discriminate |].
    intros H. injection H as <-. apply sequence_throws in E. apply in_map_iff in E.
    destruct E as [x [Hx Hin]]. rewrite Forall_forall in IH.
    destruct x; try discriminate; apply (IH _ Hin); exact Hx.
  - destruct (Obj.has o (js "toString")); [| discriminate].
    intros H. injection H as <-. reflexivity.
Qed.

Lemma Get_throws (v : JSValue) (k : JSString) (e : JSError) :
  Get v k = Throw e -> err_response e = None.
Proof.
  destruct v; simpl; try discriminate;
    try (intros H; injection H as <-; reflexivity);
    destruct (JSStr.eqb k (js "length")); discriminate.
Qed.

Lemma ToNumber_throws (v : JSValue) (e : JSError) :
  ToNumber v = Throw e -> err_response e = None.
Proof.
  unfold ToNumber. destruct v; try discriminate.
  - destruct (ToString (JArray elems)) eqn:E; simpl; [discriminate |].
    intros H. injection H as <-. exact (ToString_throws _ E).
  - destruct (ToString (JObject props)) eqn:E; simpl; [discriminate |].
    intros H. injection H as <-. exact (ToString_throws _ E).
Qed.

Lemma gt_literal_throws (v : JSValue) (k : Z) (e : JSError) :
  gt_literal v k = Throw e -> err_response e = None.
Proof.
  unfold gt_literal. destruct (ToNumber v) eqn:E; simpl; [discriminate |].
  intros H. injection H as <-. exact (ToNumber_throws _ E).
Qed.

Lemma append_details_throws (details : list JSValue) (msg : JSString) (e : JSError) :
  append_details details msg = Throw e -> err_response e = None.
Proof.
  revert msg. induction details as [|d r IH]; intros msg; simpl; [discriminate |].
  destruct (Get d (js "property")) as [p |] eqn:E1; simpl;
    [| intros H; injection H as <-; exact (Get_throws _ _ E1)].
  destruct (ToString p) as [ps |] eqn:E2; simpl;
    [| intros H; injection H as <-; exact (ToString_throws _ E2)].
  destruct (Get d (js "message")) as [m |] eqn:E3; simpl;
    [| intros H; injection H as <-; exact (Get_throws _ _ E3)].
  destruct (ToString m) as [ms |] eqn:E4; simpl;
    [| intros H; injection H as <-; exact (ToString_throws _ E4)].
  apply IH.
Qed.

(** [handleError] always throws; what it throws carries the response of
    the error it was given, or none. *)
Lemma handleError_throws (A : Type) (err : JSError) :
  exists e, @handleError A err = Throw e
            /\ (err_response e = err_response err \/ err_response e = None).
Proof.
  unfold handleError. destruct (err_response err) as [response |] eqn:Er;
    [| eexists; split; [reflexivity | left; exact Er]].
  destruct (ToBoolean (res_data response));
    [| eexists; split; [reflexivity | left; exact Er]].
  destruct (Get (res_data response) (js "message")) as [message |] eqn:E1; simpl;
    [| eexists; split; [reflexivity | right; exact (Get_throws _ _ E1)]].
  destruct (Get (res_data response) (js "details")) as [details |] eqn:E2; simpl;
    [| eexists; split; [reflexivity | right; exact (Get_throws _ _ E2)]].
  destruct (ToString message) as [m |] eqn:E3; simpl;
    [| eexists; split; [reflexivity | right; exact (ToString_throws _ E3)]].
  assert (Hsome : forall c : Completion bool,
            (forall e, c = Throw e -> err_response e = None) ->
            exists e,
              (some <- c ;;
               msg' <- (if some : bool
                        then match details with
                             | JArray l => append_details l (js "LINE API - " ++ m)
                             | _ => type_error "details.forEach is not a function"
                             end
                        else Normal (js "LINE API - " ++ m)) ;;
               @Throw A (wrap_AxiosError msg' err)) = Throw e
              /\ (err_response e = err_response err \/ err_response e = None)).
  { intros c Hc. destruct c as [[|] | e0]; cbv beta iota delta [bind].
    - destruct details; cbv beta iota delta [bind];
        try (eexists; split; [reflexivity | right; reflexivity]).
      destruct (append_details elems (js "LINE API - " ++ m)) as [msg' |] eqn:E4.
      + eexists. split; [reflexivity | left; reflexivity].
      + eexists. split; [reflexivity | right; exact (append_details_throws _ _ E4)].
    - eexists. split; [reflexivity | left; reflexivity].
    - eexists. split; [reflexivity | right; exact (Hc _ eq_refl)]. }
  rewrite <- Er. destruct (ToBoolean details).
  - apply Hsome. intros e. destruct (Get details (js "length")) as [len |] eqn:E5; simpl.
    + apply gt_literal_throws.
    + intros H. injection H as <-. exact (Get_throws _ _ E5).
  - apply Hsome. discriminate.
Qed.

Lemma handleError_never_returns (A : Type) (err : JSError) : throws (@handleError A err).
Proof. destruct (handleError_throws A err) as [e [H _]]. exists e. exact H. Qed.

Lemma is_404_response (e e' : JSError) :
  err_response e' = err_response e \/ err_response e' = None ->
  is_404 e' = true -> is_404 e = true.
Proof.
  unfold is_404. intros [-> | ->]; [auto | discriminate].
Qed.







(** A user profile that does not exist is reported as [null]. *)
Example getUserProfile_not_found :
  getUserProfile (fun _ => Throw not_found) (js "U1") None = Normal JNull.
Proof. reflexivity. Qed.

(** When the body of the 404 has details that are a text, [handleError]
    fails on [details.forEach]; what it throws has no response, so
    [getUserProfile] hands it to [handleError] again and throws, while
    [getRichMenu], which tests the status before [handleError], returns
    [null]. *)
Example getUserProfile_not_found_text_details :
  is_404 not_found_oops = true
  /\ getUserProfile (fun _ => Throw not_found_oops) (js "U1") None
     = Throw (new_AxiosError (js "details.forEach is not a function") None None None)
  /\ getRichMenu (fun _ => Throw not_found_oops) (js "1") None = Normal JNull.
Proof. repeat split; vm_compute; reflexivity. Qed.

End LineProperties.

(** ** Messenger *)

Section MessengerProperties.
Import Messenger TestData.

Lemma forEach_throws (A : Type) (f : A -> Completion unit) (l : list A) (x : A) :
  In x l -> throws (f x) -> throws (forEach l f).
Proof.
  induction l as [|a r IH]; simpl; [intros [] |].
  intros [-> | Hin] Hx.
  - destruct Hx as [e He]. rewrite He. exists e. reflexivity.
  - destruct (f a) as [[] | e]; simpl; [auto | exists e; reflexivity].
Qed.

Lemma forEach_returns (A : Type) (f : A -> Completion unit) (l : list A) :
  (forall x, In x l -> f x = Normal tt) -> forEach l f = Normal tt.
Proof.
  induction l as [|a r IH]; simpl; intros H; [reflexivity |].
  rewrite (H a (or_introl eq_refl)). simpl. apply IH. intros x Hx. apply H. right. exact Hx.
Qed.

(** A title passes when it is set, not empty, and of at most 20 characters
    once trimmed. *)
Lemma title_ok_false (t : option JSString) :
  title_ok t = false <->
  t = None \/ t = Some [] \/ exists s, t = Some s /\ (20 < JSStr.length (JSStr.trim s))%Z.
Proof.
  destruct t as [[|c r] |]; simpl.
  - split; [auto | reflexivity].
  - rewrite Z.leb_gt. split.
    + intros H. right. right. eexists. split; [reflexivity | exact H].
    + intros [H | [H | [s [H1 H2]]]]; try discriminate. injection H1 as <-. exact H2.
  - split; [auto | reflexivity].
Qed.

(** A payload passes when it is set, not empty, and of at most 1000
    characters. *)
Lemma payload_ok_false (p : option JSString) :
  payload_ok p = false <->
  p = None \/ p = Some [] \/ exists s, p = Some s /\ (1000 < JSStr.length s)%Z.
Proof.
  destruct p as [[|c r] |]; unfold payload_ok.
  - split; [auto | reflexivity].
  - rewrite Z.leb_gt. split.
    + intros H. right. right. eexists. split; [reflexivity | exact H].
    + intros [H | [H | [s [H1 H2]]]]; try discriminate. injection H1 as <-. exact H2.
  - split; [auto | reflexivity].
Qed.

Lemma validateQuickReplies_too_many (qs : list QuickReply) :
  (11 < Z.of_nat (List.length qs))%Z -> throws (validateQuickReplies qs).
Proof.
  intros H. unfold validateQuickReplies. apply Z.leb_gt in H. rewrite H. simpl.
  eexists. reflexivity.
Qed.

Lemma validateQuickReplies_bad_text (qs : list QuickReply) (q : QuickReply) :
  In q qs -> content_type q = js "text" ->
  title_ok (title q) = false \/ payload_ok (payload q) = false ->
  throws (validateQuickReplies qs).
Proof.
  intros Hin Hct Hbad. unfold validateQuickReplies.
  destruct (invariant _ _) as [[] | e]; simpl; [| exists e; reflexivity].
  apply (forEach_throws _ _ q Hin). rewrite Hct, str_eqb_refl.
  destruct (title_ok (title q)); simpl; [| eexists; reflexivity].
  destruct Hbad as [H | H]; [discriminate |]. rewrite H. eexists. reflexivity.
Qed.

(** The validation passes when there are at most 11 quick replies and each
    quick reply of type text has a title and a payload that pass. *)
Lemma validateQuickReplies_returns (qs : list QuickReply) :
  (Z.of_nat (List.length qs) <= 11)%Z ->
  (forall q, In q qs -> content_type q = js "text" ->
             title_ok (title q) = true /\ payload_ok (payload q) = true) ->
  validateQuickReplies qs = Normal tt.
Proof.
  intros Hlen Hq. unfold validateQuickReplies. apply Z.leb_le in Hlen. rewrite Hlen. simpl.
  apply forEach_returns. intros q Hin.
  destruct (JSStr.eqb (content_type q) (js "text")) eqn:E; [| reflexivity].
  apply str_eqb_eq in E. destruct (Hq q Hin E) as [-> ->]. reflexivity.
Qed.

(** C10, as stated, at a message that already has quick replies and
    options with one quick reply: the call returns, and the
    [quick_replies] of the message are not those of the result. *)
Lemma createMessage_replaces_quick_replies :
  exists r, createMessage message_with_replies options_red = Normal r
            /\ quick_replies r <> quick_replies message_with_replies.
Proof. eexists. split; [reflexivity | discriminate]. Qed.

(** C10, amended. [createMessage] returns the message as it is unless
    [options.quick_replies] is a non-empty array. It throws when that
    array has more than 11 items, or holds a quick reply of type text
    whose title is missing, empty or longer than 20 characters once
    trimmed, or whose payload is missing, empty or longer than 1000
    characters. Whenever it returns, the text and the attachment of the
    message are unchanged, and its [quick_replies] are replaced by the
    non-empty array of the options and unchanged otherwise. *)
Theorem createMessage_quick_replies (msg : Message) (options : Options) :
  (match options_quick_replies options with
   | Some (_ :: _) => True
   | _ => createMessage msg options = Normal msg
   end)
  /\ (forall qs, options_quick_replies options = Some qs ->
        (11 < Z.of_nat (List.length qs))%Z -> throws (createMessage msg options))
  /\ (forall qs q, options_quick_replies options = Some qs ->
        In q qs -> content_type q = js "text" ->
        (title q = None \/ title q = Some []
         \/ exists s, title q = Some s /\ (20 < JSStr.length (JSStr.trim s))%Z)
        \/ (payload q = None \/ payload q = Some []
            \/ exists s, payload q = Some s /\ (1000 < JSStr.length s)%Z) ->
        throws (createMessage msg options))
  /\ (forall r, createMessage msg options = Normal r ->
        text r = text msg
        /\ attachment r = attachment msg
        /\ quick_replies r = match options_quick_replies options with
                             | Some (q :: qs) => Some (q :: qs)
                             | _ => quick_replies msg
                             end).
Proof.
  unfold createMessage. split; [| split; [| split]].
  - destruct (options_quick_replies options) as [[|q qs] |]; auto.
  - intros qs -> Hlen. destruct qs as [|q qs]; [simpl in Hlen; lia |].
    destruct (validateQuickReplies_too_many (q :: qs) Hlen) as [e He].
    rewrite He. exists e. reflexivity.
  - intros qs q -> Hin Hct Hbad. destruct qs as [|q0 qs]; [destruct Hin |].
    assert (Hb : title_ok (title q) = false \/ payload_ok (payload q) = false).
    { destruct Hbad as [H | H]; [left; apply title_ok_false | right; apply payload_ok_false];
        exact H. }
    destruct (validateQuickReplies_bad_text (q0 :: qs) q Hin Hct Hb) as [e He].
    rewrite He. exists e. reflexivity.
  - intros r. destruct (options_quick_replies options) as [[|q qs] |].
    + intros H. injection H as <-. auto.
    + destruct (validateQuickReplies (q :: qs)) as [[] | e]; simpl; [| discriminate].
      intros H. injection H as <-. auto.
    + intros H. injection H as <-. auto.
Qed.

Lemma createMessage_quick_replies_witness :
  throws (createMessage message_with_replies options_untitled)
  /\ createMessage message_with_replies {| options_quick_replies := Some [] |}
     = Normal message_with_replies.
Proof.
  split.
  - destruct (createMessage_quick_replies message_with_replies options_untitled)
      as [_ [_ [H _]]].
    apply (H [reply_red; reply_untitled] reply_untitled eq_refl).
    + right. left. reflexivity.
    + reflexivity.
    + left. left. reflexivity.
  - exact (proj1 (createMessage_quick_replies message_with_replies
                    {| options_quick_replies := Some [] |})).
Defined.

End MessengerProperties.

(** ** Batch error classification: the helper on its own *)

Section BatchCases.
Import MessengerBatch.

(** X1. [getErrorMessage] returns for every response body. It returns the
    empty string when the body is not valid JSON, when the body is the
    JSON text [null], and when the parsed body has no [error] or an
    [error] that is [null]. For any other [error] it returns what the
    property [message] of it holds. *)
Theorem getErrorMessage_cases (errInfo : BatchRequestErrorInfo) :
  returns (getErrorMessage errInfo)
  /\ (JSON.parse_text (body (response errInfo)) = None ->
      getErrorMessage errInfo = Normal (JString []))
  /\ (JSON.parse_text (body (response errInfo)) = Some JNull ->
      getErrorMessage errInfo = Normal (JString []))
  /\ (forall v error,
        JSON.parse_text (body (response errInfo)) = Some v ->
        Get v (js "error") = Normal error ->
        match error with
        | JUndefined | JNull => getErrorMessage errInfo = Normal (JString [])
        | _ => exists message, Get error (js "message") = Normal message
                               /\ getErrorMessage errInfo = Normal message
        end).
Proof.
  split; [apply getErrorMessage_returns |].
  split; [intros H; apply (unparseable_body errInfo H) |].
  split.
  - intros H. unfold getErrorMessage, JSON.parse. rewrite H. reflexivity.
  - intros v error H G. unfold getErrorMessage, JSON.parse. rewrite H.
    cbv beta iota delta [bind try_catch]. rewrite G.
    destruct error; try reflexivity; cbv beta iota delta [bind try_catch];
      destruct (Get _ (js "message")) as [m | e] eqn:E;
      try (exists m; split; reflexivity);
      simpl in E; try discriminate;
      destruct (JSStr.eqb (js "message") (js "length")); discriminate.
Qed.

Lemma getErrorMessage_cases_witness :
  getErrorMessage (with_body (js "Service Unavailable")) = Normal (JString [])
  /\ getErrorMessage (with_body (quoted "{'error':'throttled'}")) = Normal JUndefined.
Proof.
  split.
  - destruct (getErrorMessage_cases (with_body (js "Service Unavailable"))) as [_ [H _]].
    apply H. reflexivity.
  - destruct (getErrorMessage_cases (with_body (quoted "{'error':'throttled'}")))
      as [_ [_ [_ H]]].
    destruct (H (JObject [(js "error", JString (js "throttled"))])
                (JString (js "throttled")) eq_refl eq_refl) as [m [Hm ->]].
    injection Hm as <-. reflexivity.
Defined.

(** X2. [isError613] throws only when the extracted message is an array
    or an object; bodies that are not valid JSON, or have no [error], are
    answered [false]. *)
Theorem isError613_throws_only_on_objects (errInfo : BatchRequestErrorInfo) :
  (throws (isError613 errInfo) ->
   exists message,
     getErrorMessage errInfo = Normal message
     /\ match message with JArray _ | JObject _ => True | _ => False end)
  /\ (getErrorMessage errInfo = Normal (JString []) -> isError613 errInfo = Normal false).
Proof.
  split.
  - intros [e He]. destruct (getErrorMessage_returns errInfo) as [m Hm].
    exists m. split; [exact Hm |].
    destruct m; try exact I;
      destruct (@isError613_returns_on_primitive errInfo _ Hm I) as [r Hr]; congruence.
  - intros H. rewrite (isError613_string_message errInfo H). reflexivity.
Qed.

Lemma isError613_throws_only_on_objects_witness :
  exists message,
    getErrorMessage (with_body (quoted "{'error':{'message':{'toString':0}}}"))
    = Normal message
    /\ match message with JArray _ | JObject _ => True | _ => False end.
Proof.
  apply (isError613_throws_only_on_objects
           (with_body (quoted "{'error':{'message':{'toString':0}}}"))).
  eexists. vm_compute. reflexivity.
Defined.

End BatchCases.

(** ** Slack: what [callMethod] throws and what it returns *)

Section SlackCallMethod.
Import KeyCase Slack TestData Scenarios.

(** X3. Whatever [callMethod] throws has been built by its [catch]
    block: it is an [AxiosError]. When the request itself is rejected,
    the error thrown has the message of the rejection and its config,
    request and response. When the reply is [null], nothing of the reply
    reaches the error: it has no response. *)
Theorem callMethod_throws_AxiosError
    (axios_post : JSString -> JSString -> Completion AxiosResponse)
    (querystring_stringify : JSValue -> JSString)
    (self : SlackOAuthClient) (method : JSString) (inputBody : Props) (e : JSError) :
  callMethod axios_post querystring_stringify self method inputBody = Throw e ->
  err_name e = AxiosError
  /\ (forall e0,
        axios_post method (querystring_stringify (wire_body self inputBody)) = Throw e0 ->
        e = wrap_AxiosError (err_message e0) e0)
  /\ (forall response,
        axios_post method (querystring_stringify (wire_body self inputBody))
        = Normal response ->
        res_data response = JNull ->
        err_response e = None).
Proof.
  unfold callMethod.
  destruct (axios_post method (querystring_stringify (wire_body self inputBody)))
    as [response | e0]; cbv beta iota delta [bind].
  - match goal with
    | |- try_catch ?c _ = _ -> _ => destruct c as [data | e1] eqn:E
    end; cbv beta iota delta [try_catch]; [discriminate |].
    intros H. injection H as <-. split; [reflexivity |]. split; [discriminate |].
    intros response' H Hnull. injection H as <-. rewrite Hnull in E.
    simpl in E. injection E as <-. reflexivity.
  - cbv beta iota delta [try_catch]. intros H. injection H as <-.
    split; [reflexivity |]. split; [| discriminate].
    intros e1 H. injection H as <-. reflexivity.
Qed.

Lemma callMethod_throws_AxiosError_witness :
  callMethod rejected cursor_of slack_client (js "users.list") []
  = Throw (wrap_AxiosError (err_message not_found) not_found)
  /\ err_name (wrap_AxiosError (err_message not_found) not_found) = AxiosError
  /\ err_response (wrap_AxiosError (js "Cannot read properties of undefined or null")
                     (plain_error TypeError "Cannot read properties of undefined or null"))
     = None.
Proof.
  split; [reflexivity |]. split.
  - exact (proj1 (@callMethod_throws_AxiosError rejected cursor_of slack_client
                    (js "users.list") []
                    (wrap_AxiosError (err_message not_found) not_found) eq_refl)).
  - exact (proj2 (proj2 (@callMethod_throws_AxiosError
                           (fun _ _ => Normal (slack_reply JNull)) cursor_of slack_client
                           (js "users.list") [] _ eq_refl))
             (slack_reply JNull) eq_refl eq_refl).
Defined.

(** X4. When [callMethod] returns, the request has been answered, the
    value returned is the reply with its keys in camelCase, and its [ok]
    is truthy. *)
Theorem callMethod_returns_ok
    (axios_post : JSString -> JSString -> Completion AxiosResponse)
    (querystring_stringify : JSValue -> JSString)
    (self : SlackOAuthClient) (method : JSString) (inputBody : Props) (data : JSValue) :
  callMethod axios_post querystring_stringify self method inputBody = Normal data ->
  exists response ok,
    axios_post method (querystring_stringify (wire_body self inputBody)) = Normal response
    /\ data = camelcaseKeysDeep (res_data response)
    /\ Get data (js "ok") = Normal ok
    /\ ToBoolean ok = true.
Proof.
  unfold callMethod.
  destruct (axios_post method (querystring_stringify (wire_body self inputBody)))
    as [response | e0]; cbv beta iota delta [bind try_catch]; [| discriminate].
  destruct (Get (camelcaseKeysDeep (res_data response)) (js "ok")) as [ok | e1] eqn:Hok;
    [| discriminate].
  destruct (ToBoolean ok) eqn:Hb; cbv beta iota delta [negb].
  - intros H. injection H as <-. exists response, ok. auto.
  - destruct (Get (camelcaseKeysDeep (res_data response)) (js "error")) as [error | e2];
      [| discriminate].
    destruct (ToString error); discriminate.
Qed.

Lemma callMethod_returns_ok_witness :
  exists response ok,
    paged (js "users.list") (cursor_of (wire_body slack_client [])) = Normal response
    /\ camelcaseKeysDeep first_page = camelcaseKeysDeep (res_data response)
    /\ Get (camelcaseKeysDeep first_page) (js "ok") = Normal ok
    /\ ToBoolean ok = true.
Proof.
  apply (@callMethod_returns_ok paged cursor_of slack_client (js "users.list") []).
  reflexivity.
Defined.

End SlackCallMethod.

(** ** Object spread *)

Section SpreadProperties.
Implicit Types (a b : Props) (k : JSString) (v : JSValue).

Lemma get_rev_NoDup b k : NoDup (map fst b) -> Obj.get (rev b) k = Obj.get b k.
Proof.
  intros Hnd. destruct (Obj.get b k) as [v |] eqn:E.
  - apply In_get_NoDup.
    + rewrite map_rev. apply NoDup_rev. exact Hnd.
    + apply in_rev. rewrite rev_involutive. apply get_In. exact E.
  - apply get_None_keys. apply get_None_keys in E. intros H. apply E.
    rewrite map_rev in H. apply in_rev in H. exact H.
Qed.

(** A property of [{...a, ...b}] is that of [b] when [b] has it, and
    that of [a] otherwise. *)
Lemma spread_get a b k :
  NoDup (map fst b) ->
  Obj.get (spread a b) k
  = match Obj.get b k with Some v => Some v | None => Obj.get a k end.
Proof.
  intros Hnd. unfold spread. rewrite fold_set_get, get_rev_NoDup; [reflexivity | exact Hnd].
Qed.

Lemma spread_prop a b k :
  NoDup (map fst b) ->
  prop (spread a b) k = if Obj.has b k then prop b k else prop a k.
Proof.
  intros Hnd. unfold prop, Obj.has. rewrite spread_get by exact Hnd.
  destruct (Obj.get b k); reflexivity.
Qed.

Lemma spread_NoDup a b : NoDup (map fst a) -> NoDup (map fst (spread a b)).
Proof. apply fold_set_NoDup. Qed.

(** Properties that [a] does not have are added after those of [a], in
    the order of [b]. *)
Lemma spread_new a b : NoDup (map fst (a ++ b)) -> spread a b = a ++ b.
Proof. apply fold_set_distinct. Qed.

Lemma set_set a k v v' : Obj.set (Obj.set a k v) k v' = Obj.set a k v'.
Proof.
  induction a as [|[k0 v0] r IH]; simpl.
  - rewrite str_eqb_refl. reflexivity.
  - destruct (JSStr.eqb k0 k) eqn:E; simpl.
    + rewrite str_eqb_refl. reflexivity.
    + rewrite E, IH. reflexivity.
Qed.

Lemma set_swap a k k' v v' :
  k <> k' -> In k (map fst a) ->
  Obj.set (Obj.set a k v) k' v' = Obj.set (Obj.set a k' v') k v.
Proof.
  intros Hne. induction a as [|[k0 v0] r IH]; simpl; [intros [] |].
  intros Hin. destruct (JSStr.eqb k0 k) eqn:E; simpl.
  - apply str_eqb_eq in E. subst k0.
    destruct (JSStr.eqb k k') eqn:E'; [apply str_eqb_eq in E'; contradiction |].
    simpl. rewrite ?E', ?str_eqb_refl. reflexivity.
  - destruct (JSStr.eqb k0 k') eqn:E'; simpl.
    + apply str_eqb_eq in E'. subst k0. rewrite ?E, ?str_eqb_refl. reflexivity.
    + rewrite ?E, ?E'. rewrite IH; [reflexivity |].
      destruct Hin as [H | H]; [| exact H]. apply str_eqb_neq in E. contradiction.
Qed.

(** When [b] has the property [k], what [a] holds at [k] does not show
    in [{...a, ...b}]. *)
Lemma spread_overwritten b : forall a k v,
  In k (map fst a) -> In k (map fst b) ->
  spread (Obj.set a k v) b = spread a b.
Proof.
  unfold spread. induction b as [|[k1 v1] r IH]; intros a k v Ha Hb; simpl in *;
    [contradiction |].
  destruct (JSStr.eqb k k1) eqn:E.
  - apply str_eqb_eq in E. subst k1. rewrite set_set. reflexivity.
  - apply str_eqb_neq in E. destruct Hb as [Hb | Hb]; [congruence |].
    rewrite set_swap by assumption. apply IH; [| exact Hb].
    rewrite set_keys. destruct (Obj.has a k1); [exact Ha | apply in_or_app; left; exact Ha].
Qed.

Lemma spread_own_key b k v v' :
  Obj.has b k = true -> spread [(k, v)] b = spread [(k, v')] b.
Proof.
  intros H. apply has_keys in H.
  assert (E : [(k, v)] = Obj.set [(k, v')] k v)
    by (simpl; rewrite str_eqb_refl; reflexivity).
  rewrite E. apply spread_overwritten; [left; reflexivity | exact H].
Qed.

End SpreadProperties.

(** ** The paging loop *)

Section Paging.
Variable fetch : JSValue -> Completion Page.

(** The loop ends within its rounds exactly when the requests form a run
    of fewer pages than rounds, and then gives what the run leaves. *)
Lemma do_while_run (fuel : nat) : forall all cursor r,
  do_while fuel fetch all cursor = Some r <->
  exists pages last,
    List.length pages < fuel
    /\ pages_then fetch cursor pages last
    /\ r = collected all pages last.
Proof.
  induction fuel as [|f IH]; intros all cursor r; simpl.
  - split; [discriminate | intros [pages [last [H _]]]; lia].
  - destruct (fetch cursor) as [p | e] eqn:E.
    + destruct (ToBoolean (next p)) eqn:Hn.
      * rewrite IH. split.
        -- intros [pages [last [H1 [H2 H3]]]]. exists (p :: pages), last.
           split; [simpl; lia |]. split; [simpl; auto |].
           rewrite H3. unfold collected. destruct last; reflexivity.
        -- intros [pages [last [H1 [H2 H3]]]]. destruct pages as [|q pages]; simpl in H2.
           ++ destruct H2 as [H2 H4]. rewrite E in H2. subst last. congruence.
           ++ destruct H2 as [H2 [_ H4]]. rewrite E in H2. injection H2 as <-.
              exists pages, last. split; [simpl in H1; lia |]. split; [exact H4 |].
              rewrite H3. unfold collected. destruct last; reflexivity.
      * split.
        -- intros H. injection H as <-. exists [], (Normal p).
           split; [simpl; lia |]. split; [simpl; auto | reflexivity].
        -- intros [pages [last [H1 [H2 H3]]]]. destruct pages as [|q pages]; simpl in H2.
           ++ destruct H2 as [H2 _]. rewrite E in H2. subst last. rewrite H3. reflexivity.
           ++ destruct H2 as [H2 [H4 _]]. rewrite E in H2. injection H2 as <-. congruence.
    + split.
      * intros H. injection H as <-. exists [], (Throw e).
        split; [simpl; lia |]. split; [simpl; auto | reflexivity].
      * intros [pages [last [H1 [H2 H3]]]]. destruct pages as [|q pages]; simpl in H2.
        -- destruct H2 as [H2 _]. rewrite E in H2. subst last. rewrite H3. reflexivity.
        -- destruct H2 as [H2 _]. rewrite E in H2. discriminate.
Qed.

(** A run from a cursor is unique. *)
Lemma pages_then_unique (pages : list Page) : forall cursor last pages' last',
  pages_then fetch cursor pages last -> pages_then fetch cursor pages' last' ->
  pages = pages' /\ last = last'.
Proof.
  induction pages as [|p rest IH]; intros cursor last pages' last' H H'; simpl in H.
  - destruct H as [H1 H2]. destruct pages' as [|p' rest']; simpl in H'.
    + destruct H' as [H1' _]. split; congruence.
    + destruct H' as [H1' [H2' _]]. rewrite H1' in H1. subst last. congruence.
  - destruct H as [H1 [H2 H3]]. destruct pages' as [|p' rest']; simpl in H'.
    + destruct H' as [H1' H2']. rewrite H1 in H1'. subst last'. congruence.
    + destruct H' as [H1' [H2' H3']]. rewrite H1 in H1'. injection H1' as <-.
      destruct (IH _ _ _ _ H3 H3') as [-> ->]. split; reflexivity.
Qed.

(** More rounds do not change what the loop gives. *)
Lemma do_while_more (fuel fuel' : nat) (all : list JSValue) (cursor : JSValue)
    (r : Completion (list JSValue)) :
  do_while fuel fetch all cursor = Some r -> fuel <= fuel' ->
  do_while fuel' fetch all cursor = Some r.
Proof.
  intros H Hle. apply do_while_run in H. destruct H as [pages [last [H1 H2]]].
  apply do_while_run. exists pages, last. split; [lia | exact H2].
Qed.

(** When every request is answered by a page with a truthy cursor, the
    loop does not end. *)
Lemma do_while_endless (fuel : nat) : forall all cursor,
  (forall c, exists p, fetch c = Normal p /\ ToBoolean (next p) = true) ->
  do_while fuel fetch all cursor = None.
Proof.
  induction fuel as [|f IH]; intros all cursor H; simpl; [reflexivity |].
  destruct (H cursor) as [p [-> ->]]. apply IH. exact H.
Qed.

(** A rejection that the loop gives is that of one of its requests. *)
Lemma do_while_throws (fuel : nat) : forall all cursor e,
  do_while fuel fetch all cursor = Some (Throw e) -> exists c, fetch c = Throw e.
Proof.
  induction fuel as [|f IH]; intros all cursor e; simpl; [discriminate |].
  destruct (fetch cursor) as [p | e0] eqn:E.
  - destruct (ToBoolean (next p)); [apply IH | discriminate].
  - intros H. injection H as <-. exists cursor. exact E.
Qed.

End Paging.

(** The items of pages that hold arrays are put one after the other. *)
Lemma Array_concat_arrays (ls : list (list JSValue)) : forall all,
  fold_left Array_concat (map JArray ls) all = all ++ List.concat ls.
Proof.
  induction ls as [|l ls IH]; intros all; simpl.
  - rewrite app_nil_r. reflexivity.
  - rewrite IH, app_assoc. reflexivity.
Qed.

(** ** Slack: the methods *)

Section SlackMethodsProperties.
Import KeyCase Slack SlackMethods TestData Scenarios.

Section Stringify.
Variable JSON_stringify : JSValue -> JSString.

Lemma set_present_keys (o : Props) (k : JSString) (v : JSValue) :
  ToBoolean (prop o k) = true -> map fst (Obj.set o k v) = map fst o.
Proof.
  intros H. rewrite set_keys. unfold Obj.has, prop in *.
  destruct (Obj.get o k); [reflexivity | discriminate].
Qed.

Lemma prop_set (o : Props) (k k' : JSString) (v : JSValue) :
  prop (Obj.set o k v) k' = if JSStr.eqb k k' then v else prop o k'.
Proof. unfold prop. rewrite get_set. destruct (JSStr.eqb k k'); reflexivity. Qed.

Lemma stringifyPayloadFields_keys (fields : list JSString) : forall payload,
  map fst (stringifyPayloadFields JSON_stringify payload fields) = map fst payload.
Proof.
  unfold stringifyPayloadFields.
  induction fields as [|f fs IH]; intros payload; simpl; [reflexivity |].
  rewrite IH. destruct (ToBoolean (prop payload f)) eqn:E; simpl; [| reflexivity].
  destruct (is_string (prop payload f)); simpl; [reflexivity |].
  apply set_present_keys. exact E.
Qed.

Lemma stringifyPayloadFields_prop (fields : list JSString) : forall payload k,
  prop (stringifyPayloadFields JSON_stringify payload fields) k
  = if existsb (JSStr.eqb k) fields
       && (ToBoolean (prop payload k) && negb (is_string (prop payload k)))
    then JString (JSON_stringify (snakecaseKeysDeep (prop payload k)))
    else prop payload k.
Proof.
  unfold stringifyPayloadFields.
  induction fields as [|f fs IH]; intros payload k; simpl; [reflexivity |].
  rewrite IH. destruct (JSStr.eqb k f) eqn:Ek.
  - apply str_eqb_eq in Ek. subst f.
    destruct (ToBoolean (prop payload k)) eqn:E1;
      destruct (is_string (prop payload k)) eqn:E2; simpl;
      rewrite ?prop_set, ?str_eqb_refl, ?E1, ?E2; simpl;
      rewrite ?andb_false_r; reflexivity.
  - simpl. assert (Hk : f <> k) by (apply str_eqb_neq in Ek; congruence).
    destruct (ToBoolean (prop payload f) && negb (is_string (prop payload f))).
    + rewrite prop_set. apply str_eqb_neq in Hk. rewrite Hk. reflexivity.
    + reflexivity.
Qed.

Lemma stringifyPayloadFields_unchanged (fields : list JSString) : forall payload,
  (forall f, In f fields ->
             ToBoolean (prop payload f) && negb (is_string (prop payload f)) = false) ->
  stringifyPayloadFields JSON_stringify payload fields = payload.
Proof.
  unfold stringifyPayloadFields.
  induction fields as [|f fs IH]; intros payload H; simpl; [reflexivity |].
  rewrite (H f (or_introl eq_refl)). apply IH. intros f' Hf. apply H. right. exact Hf.
Qed.

(** X5. [stringifyPayloadFields] keeps the properties of the payload and
    their order. A listed field that holds a truthy value other than a
    string holds afterwards the JSON text of that value with its keys in
    snake_case; every other value is unchanged, so are strings, [null],
    [false] and absent fields. Applying it again changes nothing: a
    payload that has been through it is sent as it is. *)
Theorem stringifyPayloadFields_fields (payload : Props) (fields : list JSString) :
  map fst (stringifyPayloadFields JSON_stringify payload fields) = map fst payload
  /\ (forall k,
        prop (stringifyPayloadFields JSON_stringify payload fields) k
        = if existsb (JSStr.eqb k) fields
             && (ToBoolean (prop payload k) && negb (is_string (prop payload k)))
          then JString (JSON_stringify (snakecaseKeysDeep (prop payload k)))
          else prop payload k)
  /\ stringifyPayloadFields JSON_stringify
       (stringifyPayloadFields JSON_stringify payload fields) fields
     = stringifyPayloadFields JSON_stringify payload fields.
Proof.
  split; [apply stringifyPayloadFields_keys |].
  split; [apply stringifyPayloadFields_prop |].
  apply stringifyPayloadFields_unchanged. intros f Hf.
  rewrite stringifyPayloadFields_prop.
  assert (He : existsb (JSStr.eqb f) fields = true).
  { apply existsb_exists. exists f. split; [exact Hf | apply str_eqb_refl]. }
  rewrite He. simpl.
  destruct (ToBoolean (prop payload f) && negb (is_string (prop payload f))) eqn:E;
    [| exact E].
  simpl. apply andb_false_r.
Qed.

End Stringify.

Lemma wire_body_get (self : SlackOAuthClient) (inputBody : Props) (k : JSString)
    (v : JSValue) :
  NoDup (map fst inputBody) ->
  In (k, v) inputBody ->
  k <> js "token" -> k <> js "accessToken" ->
  (forall k', In k' (map fst inputBody) -> snakeCase k' = snakeCase k -> k' = k) ->
  snakeCase k <> js "token" ->
  Get (wire_body self inputBody) (snakeCase k) = Normal (snakecaseKeysDeep v).
Proof.
  intros Hnd Hin Hk1 Hk2 Hinj Htok. rewrite wire_body_object. unfold Get.
  assert (Hbody : In (k, v) (request_body self inputBody)).
  { rewrite request_body_last. apply in_or_app. left. apply omit_In. split; [exact Hin |].
    simpl. intros [H | [H | []]]; congruence. }
  assert (Hnd' : NoDup (map fst (request_body self inputBody))).
  { unfold request_body. apply set_NoDup. apply omit_NoDup. exact Hnd. }
  rewrite (@of_entries_get_unique _ _ (snakeCase k) (snakecaseKeysDeep v)); [reflexivity | |].
  - change (snakeCase k, snakecaseKeysDeep v) with (entry snakeCase (k, v)).
    apply in_map. exact Hbody.
  - intros v' Hv'. apply in_map_iff in Hv'. destruct Hv' as [[k0 v0] [E H0]].
    injection E as E1 E2. subst v'.
    assert (k0 = k).
    { rewrite request_body_last in H0. apply in_app_or in H0. destruct H0 as [H0 | H0].
      - apply omit_In in H0. apply Hinj; [| exact E1].
        change k0 with (fst (k0, v0)). apply in_map. apply H0.
      - destruct H0 as [H0 | []]. injection H0 as <- _.
        exfalso. apply Htok. rewrite <- E1. reflexivity. }
    subst k0. rewrite (NoDup_keys_unique _ _ _ _ Hnd' H0 Hbody). reflexivity.
Qed.

Lemma callMethod_rejected
    (axios_post : JSString -> JSString -> Completion AxiosResponse)
    (querystring_stringify : JSValue -> JSString)
    (self : SlackOAuthClient) (method : JSString) (inputBody : Props) (e : JSError) :
  axios_post method (querystring_stringify (wire_body self inputBody)) = Throw e ->
  callMethod axios_post querystring_stringify self method inputBody
  = Throw (wrap_AxiosError (err_message e) e).
Proof. intros H. unfold callMethod. rewrite H. reflexivity. Qed.

Lemma callMethod_answered
    (axios_post : JSString -> JSString -> Completion AxiosResponse)
    (querystring_stringify : JSValue -> JSString)
    (self : SlackOAuthClient) (method : JSString) (inputBody : Props)
    (response : AxiosResponse) (ok : JSValue) :
  axios_post method (querystring_stringify (wire_body self inputBody)) = Normal response ->
  Get (camelcaseKeysDeep (res_data response)) (js "ok") = Normal ok ->
  ToBoolean ok = true ->
  callMethod axios_post querystring_stringify self method inputBody
  = Normal (camelcaseKeysDeep (res_data response)).
Proof.
  intros H Hok Hb. unfold callMethod. rewrite H. cbv beta iota delta [bind].
  rewrite Hok. cbv beta iota delta [bind]. rewrite Hb. reflexivity.
Qed.

(** X6. [chat.postMessage] posts once, to the method [chat.postMessage],
    the options with their keys in snake_case and the token. When the
    options hold under [attachments] or [blocks] a truthy value that is
    not a string, and no other option is given that key by the conversion
    to snake_case, the body that is posted holds under that key the JSON
    text of the value with its keys in snake_case. When that request is
    rejected, the error is thrown again as an [AxiosError] with the same
    message, config, request and response; when it is answered with a
    truthy [ok], the answer is returned with its keys in camelCase.
    Nothing but the answer to that request decides the result. *)
Theorem postMessage_posts_JSON_text
    (axios_post : JSString -> JSString -> Completion AxiosResponse)
    (querystring_stringify JSON_stringify : JSValue -> JSString)
    (self : SlackOAuthClient) (options : Props) (field : JSString) (v : JSValue) :
  NoDup (map fst options) ->
  In field DEFAULT_PAYLOAD_FIELDS_TO_STRINGIFY ->
  Obj.get options field = Some v ->
  ToBoolean v = true -> is_string v = false ->
  (forall k, In k (map fst options) -> snakeCase k = field -> k = field) ->
  exists body,
    body = wire_body self
             (stringifyPayloadFields JSON_stringify options
                DEFAULT_PAYLOAD_FIELDS_TO_STRINGIFY)
    /\ Get body field = Normal (JString (JSON_stringify (snakecaseKeysDeep v)))
    /\ (forall e,
          axios_post (js "chat.postMessage") (querystring_stringify body) = Throw e ->
          _postMessage axios_post querystring_stringify JSON_stringify self options
          = Throw (wrap_AxiosError (err_message e) e))
    /\ (forall response ok,
          axios_post (js "chat.postMessage") (querystring_stringify body)
          = Normal response ->
          Get (camelcaseKeysDeep (res_data response)) (js "ok") = Normal ok ->
          ToBoolean ok = true ->
          _postMessage axios_post querystring_stringify JSON_stringify self options
          = Normal (camelcaseKeysDeep (res_data response)))
    /\ forall axios_post',
         axios_post' (js "chat.postMessage") (querystring_stringify body)
         = axios_post (js "chat.postMessage") (querystring_stringify body) ->
         _postMessage axios_post' querystring_stringify JSON_stringify self options
         = _postMessage axios_post querystring_stringify JSON_stringify self options.
Proof.
  intros Hnd Hf Hget Ht Hs Hinj.
  assert (Hfix : snakeCase field = field).
  { destruct Hf as [<- | [<- | []]]; reflexivity. }
  assert (He : existsb (JSStr.eqb field) DEFAULT_PAYLOAD_FIELDS_TO_STRINGIFY = true).
  { apply existsb_exists. exists field. split; [exact Hf | apply str_eqb_refl]. }
  destruct (stringifyPayloadFields_fields JSON_stringify options
              DEFAULT_PAYLOAD_FIELDS_TO_STRINGIFY) as [Hkeys [Hprop _]].
  specialize (Hprop field). rewrite He in Hprop.
  unfold _postMessage, call.
  remember (stringifyPayloadFields JSON_stringify options
              DEFAULT_PAYLOAD_FIELDS_TO_STRINGIFY) as payload eqn:Hpayload.
  clear Hpayload. eexists. split; [reflexivity |]. split; [| split; [| split]].
  - rewrite <- Hfix at 1.
    change (JString (JSON_stringify (snakecaseKeysDeep v)))
      with (snakecaseKeysDeep (JString (JSON_stringify (snakecaseKeysDeep v)))).
    apply wire_body_get.
    + rewrite Hkeys. exact Hnd.
    + apply get_In. unfold prop in Hprop. rewrite Hget, Ht, Hs in Hprop.
      destruct (Obj.get payload field) as [w |] eqn:E.
      * simpl in Hprop. rewrite Hprop. reflexivity.
      * apply get_None_keys in E. rewrite Hkeys in E. exfalso. apply E.
        change field with (fst (field, v)). apply in_map. apply get_In. exact Hget.
    + destruct Hf as [<- | [<- | []]]; discriminate.
    + destruct Hf as [<- | [<- | []]]; discriminate.
    + rewrite Hkeys, Hfix. exact Hinj.
    + rewrite Hfix. destruct Hf as [<- | [<- | []]]; discriminate.
  - intros e H. apply callMethod_rejected. exact H.
  - intros response ok H Hok Hb. apply (callMethod_answered _ _ _ _ _ H Hok Hb).
  - intros axios_post' H. unfold callMethod. rewrite H. reflexivity.
Qed.

Lemma postMessage_posts_JSON_text_witness :
  Get (wire_body slack_client
         (stringifyPayloadFields first_key attachment_options
            DEFAULT_PAYLOAD_FIELDS_TO_STRINGIFY))
      (js "attachments") = Normal (JString (js "author_name"))
  /\ _postMessage (fun _ _ => Throw not_found) cursor_of first_key slack_client
                  attachment_options
     = Throw (wrap_AxiosError (err_message not_found) not_found)
  /\ _postMessage (fun _ _ => Normal posted) cursor_of first_key slack_client
                  attachment_options
     = Normal (camelcaseKeysDeep (res_data posted)).
Proof.
  assert (Hnd : NoDup (map fst attachment_options)) by (apply distinct_NoDup; reflexivity).
  assert (Hinj : forall k, In k (map fst attachment_options) ->
                           snakeCase k = js "attachments" -> k = js "attachments").
  { intros k [<- | [<- | []]] H; [discriminate H | reflexivity]. }
  split; [| split].
  - destruct (@postMessage_posts_JSON_text (fun _ _ => Throw not_found) cursor_of first_key
                slack_client attachment_options (js "attachments") bot_attachments
                Hnd (or_introl eq_refl) eq_refl eq_refl eq_refl Hinj)
      as [body [-> [H _]]]. exact H.
  - destruct (@postMessage_posts_JSON_text (fun _ _ => Throw not_found) cursor_of first_key
                slack_client attachment_options (js "attachments") bot_attachments
                Hnd (or_introl eq_refl) eq_refl eq_refl eq_refl Hinj)
      as [body [_ [_ [H _]]]]. exact (H not_found eq_refl).
  - destruct (@postMessage_posts_JSON_text (fun _ _ => Normal posted) cursor_of first_key
                slack_client attachment_options (js "attachments") bot_attachments
                Hnd (or_introl eq_refl) eq_refl eq_refl eq_refl Hinj)
      as [body [_ [_ [_ [H _]]]]]. exact (H posted (JBool true) eq_refl eq_refl eq_refl).
Defined.

(** X7. [postMessage] hands to [chat.postMessage] one object made of the
    channel, the message and the options: a property of the options
    comes first, then one of the message, and the channel given as
    argument is used only when neither has a property [channel].
    [postEphemeral] does the same with the channel and the user. *)
Theorem postMessage_precedence
    (axios_post : JSString -> JSString -> Completion AxiosResponse)
    (querystring_stringify JSON_stringify : JSValue -> JSString)
    (self : SlackOAuthClient) (channel user : JSString) (inputMessage : MessageInput)
    (options : Props) :
  NoDup (map fst options) -> NoDup (map fst (message_of inputMessage)) ->
  (exists body,
     postMessage axios_post querystring_stringify JSON_stringify self
                 channel inputMessage options
     = _postMessage axios_post querystring_stringify JSON_stringify self body
     /\ NoDup (map fst body)
     /\ forall k,
          Obj.get body k
          = match Obj.get options k with
            | Some v => Some v
            | None =>
                match Obj.get (message_of inputMessage) k with
                | Some v => Some v
                | None => Obj.get [(js "channel", JString channel)] k
                end
            end)
  /\ (exists body,
        postEphemeral axios_post querystring_stringify JSON_stringify self
                      channel user inputMessage options
        = _postEphemeral axios_post querystring_stringify JSON_stringify self body
        /\ NoDup (map fst body)
        /\ forall k,
             Obj.get body k
             = match Obj.get options k with
               | Some v => Some v
               | None =>
                   match Obj.get (message_of inputMessage) k with
                   | Some v => Some v
                   | None =>
                       Obj.get [(js "channel", JString channel); (js "user", JString user)] k
                   end
               end).
Proof.
  intros Ho Hm. split.
  - eexists. split; [reflexivity |]. split.
    + apply spread_NoDup, spread_NoDup. apply distinct_NoDup. reflexivity.
    + intros k. rewrite spread_get by exact Ho. rewrite spread_get by exact Hm.
      reflexivity.
  - eexists. split; [reflexivity |]. split.
    + apply spread_NoDup, spread_NoDup. apply distinct_NoDup. reflexivity.
    + intros k. rewrite spread_get by exact Ho. rewrite spread_get by exact Hm.
      reflexivity.
Qed.

Lemma postMessage_precedence_witness :
  exists body,
    postMessage paged cursor_of first_key slack_client (js "C1")
                (ObjectInput [(js "text", str "hello"); (js "channel", str "C2")])
                [(js "text", str "bye")]
    = _postMessage paged cursor_of first_key slack_client body
    /\ Obj.get body (js "text") = Some (str "bye")
    /\ Obj.get body (js "channel") = Some (str "C2").
Proof.
  destruct (@postMessage_precedence paged cursor_of first_key slack_client (js "C1") (js "U1")
              (ObjectInput [(js "text", str "hello"); (js "channel", str "C2")])
              [(js "text", str "bye")])
    as [[body [H1 [_ H2]]] _].
  - apply distinct_NoDup. reflexivity.
  - apply distinct_NoDup. reflexivity.
  - exists body. split; [exact H1 |]. split; rewrite H2; reflexivity.
Defined.

(** X8. [getAllConversationMembers], [getAllUserList] and
    [getAllConversationList] end exactly when their requests form a run:
    pages with a truthy [nextCursor], each asked for with the cursor of
    the page before it, followed by a rejection or by a page without one.
    They then give the rejection, or the items of all the pages in the
    order of the requests. The first request of the first two is made
    with a [cursor] that is [undefined], that of the third with the
    options as they are. More rounds never change the outcome. *)
Theorem getAll_runs
    (axios_post : JSString -> JSString -> Completion AxiosResponse)
    (querystring_stringify : JSValue -> JSString)
    (self : SlackOAuthClient) (channelId : JSString) (options : Props) (fuel : nat)
    (r : Completion (list JSValue)) :
  (getAllConversationMembers axios_post querystring_stringify self fuel channelId options
   = Some r <->
   exists pages last,
     List.length pages < fuel
     /\ pages_then
          (fun cursor =>
             getConversationMembers axios_post querystring_stringify self channelId
               (spread [(js "cursor", cursor)] options))
          JUndefined pages last
     /\ r = collected [] pages last)
  /\ (getAllUserList axios_post querystring_stringify self fuel options = Some r <->
      exists pages last,
        List.length pages < fuel
        /\ pages_then
             (fun cursor =>
                getUserList axios_post querystring_stringify self
                  (spread [(js "cursor", cursor)] options))
             JUndefined pages last
        /\ r = collected [] pages last)
  /\ (getAllConversationList axios_post querystring_stringify self fuel options = Some r <->
      exists first,
        getConversationList axios_post querystring_stringify self options = first
        /\ match first with
           | Throw e => 0 < fuel /\ r = Throw e
           | Normal p =>
               if ToBoolean (next p) then
                 exists pages last,
                   S (List.length pages) < fuel
                   /\ pages_then
                        (fun cursor =>
                           getConversationList axios_post querystring_stringify self
                             (spread [(js "cursor", cursor)] options))
                        (next p) pages last
                   /\ r = collected [] (p :: pages) last
               else 0 < fuel /\ r = collected [] [] (Normal p)
           end)
  /\ (forall fuel',
        fuel <= fuel' ->
        (getAllConversationMembers axios_post querystring_stringify self fuel channelId
           options = Some r ->
         getAllConversationMembers axios_post querystring_stringify self fuel' channelId
           options = Some r)
        /\ (getAllUserList axios_post querystring_stringify self fuel options = Some r ->
            getAllUserList axios_post querystring_stringify self fuel' options = Some r)
        /\ (getAllConversationList axios_post querystring_stringify self fuel options
            = Some r ->
            getAllConversationList axios_post querystring_stringify self fuel' options
            = Some r)).
Proof.
  split; [apply do_while_run |]. split; [apply do_while_run |]. split.
  - unfold getAllConversationList. rewrite do_while_run. split.
    + intros [pages [last [H1 [H2 H3]]]]. eexists. split; [reflexivity |].
      destruct pages as [|p pages]; simpl in H2.
      * destruct H2 as [H2 H4]. simpl in H2. rewrite H2.
        destruct last as [p | e]; [rewrite H4 |]; (split; [simpl in H1; lia | exact H3]).
      * destruct H2 as [H2 [H4 H5]]. simpl in H2. rewrite H2, H4.
        exists pages, last. split; [simpl in H1; lia |]. split; [| exact H3].
        clear H1 H3. revert H4 H5. generalize (next p). clear H2.
        induction pages as [|q pages IH]; intros c Hc H; simpl in *.
        -- rewrite Hc in H. exact H.
        -- rewrite Hc in H. destruct H as [H1 [H2 H3]]. split; [exact H1 |].
           split; [exact H2 |]. apply IH; assumption.
    + intros [first [<- H]].
      destruct (getConversationList axios_post querystring_stringify self options)
        as [p | e] eqn:E.
      * destruct (ToBoolean (next p)) eqn:Hn.
        -- destruct H as [pages [last [H1 [H2 H3]]]]. exists (p :: pages), last.
           split; [simpl; lia |]. split; [| exact H3]. simpl. split; [exact E |].
           split; [exact Hn |]. clear H1 H3. revert Hn H2. generalize (next p). clear E.
           induction pages as [|q pages IH]; intros c Hc H; simpl in *.
           ++ rewrite Hc. exact H.
           ++ rewrite Hc. destruct H as [H1 [H2 H3]]. split; [exact H1 |].
              split; [exact H2 |]. apply IH; assumption.
        -- destruct H as [H1 H2]. exists [], (Normal p). simpl.
           split; [exact H1 |]. split; [auto | exact H2].
      * destruct H as [H1 H2]. exists [], (Throw e). simpl.
        split; [exact H1 |]. split; [auto | exact H2].
  - intros fuel' Hle. split; [| split]; intros H; exact (@do_while_more _ _ _ _ _ _ H Hle).
Qed.

Lemma getAll_runs_witness :
  getAllUserList paged cursor_of slack_client 3 [(js "limit", num 2)]
  = Some (Normal [str "U1"; str "U2"; str "U3"]).
Proof.
  apply (proj1 (proj2 (@getAll_runs paged cursor_of slack_client [] [(js "limit", num 2)] 3
                         (Normal [str "U1"; str "U2"; str "U3"])))).
  exists [first_members], (Normal second_members).
  split; [simpl; lia |]. split; [| reflexivity].
  simpl. repeat split.
Defined.

(** X9. When the options have a [cursor] of their own, it replaces the
    cursor of the loop in every request, so that every request after the
    first is the same. If the page it names has a truthy [nextCursor],
    [getAllUserList], [getAllConversationMembers] and
    [getAllConversationList] never end. *)
Theorem getAll_own_cursor
    (axios_post : JSString -> JSString -> Completion AxiosResponse)
    (querystring_stringify : JSValue -> JSString)
    (self : SlackOAuthClient) (channelId : JSString) (options : Props) :
  Obj.has options (js "cursor") = true ->
  (forall cursor,
     spread [(js "cursor", cursor)] options = spread [(js "cursor", JUndefined)] options)
  /\ (forall p,
        getUserList axios_post querystring_stringify self
          (spread [(js "cursor", JUndefined)] options) = Normal p ->
        ToBoolean (next p) = true ->
        forall fuel,
          getAllUserList axios_post querystring_stringify self fuel options = None)
  /\ (forall p,
        getConversationMembers axios_post querystring_stringify self channelId
          (spread [(js "cursor", JUndefined)] options) = Normal p ->
        ToBoolean (next p) = true ->
        forall fuel,
          getAllConversationMembers axios_post querystring_stringify self fuel channelId
            options = None)
  /\ (forall p q,
        getConversationList axios_post querystring_stringify self options = Normal p ->
        ToBoolean (next p) = true ->
        getConversationList axios_post querystring_stringify self
          (spread [(js "cursor", JUndefined)] options) = Normal q ->
        ToBoolean (next q) = true ->
        forall fuel,
          getAllConversationList axios_post querystring_stringify self fuel options = None).
Proof.
  intros Hc.
  assert (Hsame : forall cursor,
            spread [(js "cursor", cursor)] options
            = spread [(js "cursor", JUndefined)] options).
  { intros cursor. apply spread_own_key. exact Hc. }
  split; [exact Hsame |]. split; [| split].
  - intros p Hp Hn fuel. apply do_while_endless. intros c. exists p.
    rewrite Hsame. auto.
  - intros p Hp Hn fuel. apply do_while_endless. intros c. exists p.
    rewrite Hsame. auto.
  - intros p q Hp Hn Hq Hnq fuel. apply do_while_endless. intros c.
    destruct (ToBoolean c); [exists q; rewrite Hsame | exists p]; auto.
Qed.

Lemma getAll_own_cursor_witness :
  getAllUserList paged cursor_of slack_client 1000 cursor_options = None.
Proof.
  destruct (@getAll_own_cursor paged cursor_of slack_client [] cursor_options eq_refl)
    as [_ [H _]].
  apply (H first_members); reflexivity.
Defined.

Lemma callMethod_throws_name
    (axios_post : JSString -> JSString -> Completion AxiosResponse)
    (querystring_stringify : JSValue -> JSString)
    (self : SlackOAuthClient) (method : JSString) (inputBody : Props) (e : JSError) :
  callMethod axios_post querystring_stringify self method inputBody = Throw e ->
  err_name e = AxiosError.
Proof.
  unfold callMethod.
  match goal with
  | |- try_catch ?c _ = _ -> _ => destruct c as [data | e1]
  end; cbv beta iota delta [try_catch]; [discriminate |].
  intros H. injection H as <-. reflexivity.
Qed.

Lemma Get_returns (v : JSValue) (k : JSString) :
  v <> JUndefined -> v <> JNull -> returns (Get v k).
Proof.
  intros H1 H2. destruct v; try contradiction; simpl;
    try (destruct (JSStr.eqb k (js "length"))); eexists; reflexivity.
Qed.

(** What [callMethod] returns is neither [undefined] nor [null]. *)
Lemma callMethod_returns_value
    (axios_post : JSString -> JSString -> Completion AxiosResponse)
    (querystring_stringify : JSValue -> JSString)
    (self : SlackOAuthClient) (method : JSString) (inputBody : Props) (data : JSValue) :
  callMethod axios_post querystring_stringify self method inputBody = Normal data ->
  data <> JUndefined /\ data <> JNull.
Proof.
  unfold callMethod.
  destruct (axios_post method (querystring_stringify (wire_body self inputBody)))
    as [response | e0]; cbv beta iota delta [bind try_catch]; [| discriminate].
  destruct (Get (camelcaseKeysDeep (res_data response)) (js "ok")) as [ok | e1] eqn:Hok;
    [| discriminate].
  destruct (ToBoolean ok) eqn:Hb; cbv beta iota delta [negb].
  - intros H. injection H as <-. split; intros E; rewrite E in Hok; discriminate.
  - destruct (Get (camelcaseKeysDeep (res_data response)) (js "error")) as [error | e2];
      [| discriminate].
    destruct (ToString error); discriminate.
Qed.

Lemma page_of_returns (field : string) (data : JSValue) :
  data <> JUndefined -> data <> JNull -> returns (page_of field data).
Proof.
  intros H1 H2. unfold page_of.
  destruct (Get_returns (js field) H1 H2) as [listed ->].
  destruct (Get_returns (js "responseMetadata") H1 H2) as [rm ->].
  cbv beta iota delta [bind and_get].
  destruct (ToBoolean rm) eqn:E.
  - destruct (@Get_returns rm (js "nextCursor")) as [c ->];
      [intros ->; discriminate | intros ->; discriminate | eexists; reflexivity].
  - eexists. reflexivity.
Qed.

Section EveryMethod.
Variable axios_post : JSString -> JSString -> Completion AxiosResponse.
Variables querystring_stringify JSON_stringify : JSValue -> JSString.
Variable self : SlackOAuthClient.

Lemma call_then_Get (method : string) (inputBody : Props) (k : JSString) (e : JSError) :
  (data <- call axios_post querystring_stringify self method inputBody ;; Get data k)%js
  = Throw e -> err_name e = AxiosError.
Proof.
  unfold call.
  destruct (callMethod axios_post querystring_stringify self (js method) inputBody)
    as [data | e0] eqn:E; cbv beta iota delta [bind].
  - destruct (callMethod_returns_value _ _ _ _ _ E) as [H1 H2].
    destruct (Get_returns k H1 H2) as [v ->]. discriminate.
  - intros H. injection H as <-. exact (callMethod_throws_name _ _ _ _ _ E).
Qed.

Lemma call_then_page (method field : string) (inputBody : Props) (e : JSError) :
  (data <- call axios_post querystring_stringify self method inputBody ;;
   page_of field data)%js = Throw e ->
  err_name e = AxiosError.
Proof.
  unfold call.
  destruct (callMethod axios_post querystring_stringify self (js method) inputBody)
    as [data | e0] eqn:E; cbv beta iota delta [bind].
  - destruct (callMethod_returns_value _ _ _ _ _ E) as [H1 H2].
    destruct (page_of_returns field H1 H2) as [v ->]. discriminate.
  - intros H. injection H as <-. exact (callMethod_throws_name _ _ _ _ _ E).
Qed.

(** X10. Each method of [SlackOAuthClient] posts once, to its method of
    the Web API, the object it builds from its arguments, with the keys in
    snake_case and the token. When that request is rejected, the method
    throws the error again as an [AxiosError] with the same message,
    config, request and response; when it is answered with a truthy [ok],
    the method returns what it reads in the answer with its keys in
    camelCase: the answer, one property of it, or a page. Nothing but the
    answer to that request decides the result. Whatever a method throws is
    an [AxiosError], also the methods that collect all pages: reading the
    reply after [callMethod] never throws, since a reply that [callMethod]
    returns is neither [undefined] nor [null]. *)
Theorem SlackOAuthClient_posts_once (c : Call) :
  (forall e,
     axios_post (method_of c)
       (querystring_stringify (wire_body self (body_of JSON_stringify c))) = Throw e ->
     invoke axios_post querystring_stringify JSON_stringify self c
     = Throw (wrap_AxiosError (err_message e) e))
  /\ (forall response ok,
        axios_post (method_of c)
          (querystring_stringify (wire_body self (body_of JSON_stringify c)))
        = Normal response ->
        Get (camelcaseKeysDeep (res_data response)) (js "ok") = Normal ok ->
        ToBoolean ok = true ->
        invoke axios_post querystring_stringify JSON_stringify self c
        = reply_of c (camelcaseKeysDeep (res_data response)))
  /\ (forall axios_post' : JSString -> JSString -> Completion AxiosResponse,
        axios_post' (method_of c)
          (querystring_stringify (wire_body self (body_of JSON_stringify c)))
        = axios_post (method_of c)
            (querystring_stringify (wire_body self (body_of JSON_stringify c))) ->
        invoke axios_post' querystring_stringify JSON_stringify self c
        = invoke axios_post querystring_stringify JSON_stringify self c)
  /\ (forall e,
        invoke axios_post querystring_stringify JSON_stringify self c = Throw e ->
        err_name e = AxiosError)
  /\ (forall fuel channelId options e,
        getAllConversationMembers axios_post querystring_stringify self fuel channelId
          options = Some (Throw e)
        \/ getAllConversationList axios_post querystring_stringify self fuel options
           = Some (Throw e)
        \/ getAllUserList axios_post querystring_stringify self fuel options
           = Some (Throw e) ->
        err_name e = AxiosError).
Proof.
  split; [| split; [| split; [| split]]].
  - intros e H.
    destruct c;
      cbv beta iota delta
        [invoke value listing getChannelInfo getConversationInfo getConversationMembers
         getConversationList postMessage postEphemeral _postMessage _postEphemeral
         _updateMessage _deleteMessage _meMessage _getPermalink _scheduleMessage
         _deleteScheduledMessage _unfurl _getScheduledMessages getUserInfo getUserList
         call method_of body_of] in *;
      rewrite (callMethod_rejected _ _ _ _ _ H); reflexivity.
  - intros response ok H Hok Hb.
    destruct c;
      cbv beta iota delta
        [invoke value listing getChannelInfo getConversationInfo getConversationMembers
         getConversationList postMessage postEphemeral _postMessage _postEphemeral
         _updateMessage _deleteMessage _meMessage _getPermalink _scheduleMessage
         _deleteScheduledMessage _unfurl _getScheduledMessages getUserInfo getUserList
         call method_of body_of reply_of] in *;
      rewrite (callMethod_answered _ _ _ _ _ H Hok Hb); reflexivity.
  - intros axios_post' H.
    destruct c;
      cbv beta iota delta
        [invoke value listing getChannelInfo getConversationInfo getConversationMembers
         getConversationList postMessage postEphemeral _postMessage _postEphemeral
         _updateMessage _deleteMessage _meMessage _getPermalink _scheduleMessage
         _deleteScheduledMessage _unfurl _getScheduledMessages getUserInfo getUserList
         call callMethod method_of body_of] in *;
      rewrite H; reflexivity.
  - intros e.
    assert (Hv : forall c0 : Completion JSValue,
              (forall e0, c0 = Throw e0 -> err_name e0 = AxiosError) ->
              value c0 = Throw e -> err_name e = AxiosError).
    { intros c0 H0. unfold value. destruct c0 as [v | e0]; simpl; [discriminate |].
      intros H. injection H as <-. apply H0. reflexivity. }
    assert (Hl : forall c0 : Completion Page,
              (forall e0, c0 = Throw e0 -> err_name e0 = AxiosError) ->
              listing c0 = Throw e -> err_name e = AxiosError).
    { intros c0 H0. unfold listing. destruct c0 as [v | e0]; simpl; [discriminate |].
      intros H. injection H as <-. apply H0. reflexivity. }
    destruct c; cbv beta iota delta [invoke];
      first [apply Hv | apply Hl]; intros e0;
      first [apply call_then_Get | apply call_then_page | apply callMethod_throws_name].
  - intros fuel channelId options e [H | [H | H]]; apply do_while_throws in H;
      destruct H as [cursor H]; exact (call_then_page _ _ _ H).
Qed.

End EveryMethod.

Lemma SlackOAuthClient_posts_once_witness :
  invoke (fun _ _ => Throw not_found) cursor_of first_key slack_client
         (GetUserInfo (js "U1") [])
  = Throw (wrap_AxiosError (err_message not_found) not_found)
  /\ invoke (fun _ _ => Normal posted) cursor_of first_key slack_client
            (GetConversationInfo (js "C0") [])
     = Normal (Value (str "C0")).
Proof.
  split.
  - apply (proj1 (@SlackOAuthClient_posts_once (fun _ _ => Throw not_found) cursor_of
                    first_key slack_client (GetUserInfo (js "U1") []))).
    reflexivity.
  - apply (proj1 (proj2 (@SlackOAuthClient_posts_once (fun _ _ => Normal posted) cursor_of
                           first_key slack_client (GetConversationInfo (js "C0") [])))
             posted (JBool true)); reflexivity.
Defined.

End SlackMethodsProperties.

(** ** Whole numbers as binary64 values *)

Section WholeNumbers.
Local Open Scope Z_scope.

Lemma digits2_pos_bound (p : positive) : forall n : Z,
  0 <= n -> Zpos p < 2 ^ n -> Zpos (digits2_pos p) <= n.
Proof.
  induction p as [p IH | p IH |]; intros n Hn H; simpl.
  - assert (0 < n) by (destruct (Z.eq_dec n 0); [subst; simpl in H; lia | lia]).
    replace n with (Z.succ (n - 1)) in H by lia. rewrite Z.pow_succ_r in H by lia.
    specialize (IH (n - 1)). rewrite Pos2Z.inj_succ. lia.
  - assert (0 < n) by (destruct (Z.eq_dec n 0); [subst; simpl in H; lia | lia]).
    replace n with (Z.succ (n - 1)) in H by lia. rewrite Z.pow_succ_r in H by lia.
    specialize (IH (n - 1)). rewrite Pos2Z.inj_succ. lia.
  - destruct (Z.eq_dec n 0); [subst; simpl in H; lia | lia].
Qed.

Lemma digits2_pos_iter (d : positive) : forall p,
  Zpos (digits2_pos (Pos.iter xO p d)) = Zpos (digits2_pos p) + Zpos d.
Proof.
  induction d as [|d IH] using Pos.peano_ind; intros p.
  - simpl. rewrite Pos2Z.inj_succ. lia.
  - rewrite Pos.iter_succ. simpl. rewrite Pos2Z.inj_succ, IH. lia.
Qed.

Lemma binary_round_small (p : positive) :
  Zpos p < 2 ^ 53 ->
  exists m e, binary_round 53 1024 false p 0 = S754_finite false m e.
Proof.
  intros H. pose proof (@digits2_pos_bound p 53 ltac:(lia) H) as Hd.
  assert (Hd1 : 1 <= Zpos (digits2_pos p)) by lia.
  unfold binary_round.
  assert (Hf : fexp 53 1024 (Zpos (digits2_pos p) + 0) = Zpos (digits2_pos p) - 53).
  { unfold fexp, emin. lia. }
  rewrite Hf. unfold shl_align.
  assert (Haux : forall mz ez, Zpos (digits2_pos mz) = 53 -> -52 <= ez <= 0 ->
            binary_round_aux 53 1024 false (Zpos mz) ez loc_Exact = S754_finite false mz ez).
  { intros mz ez Hm He. unfold binary_round_aux, shr_fexp.
    change (Zdigits2 (Z.pos mz)) with (Z.pos (digits2_pos mz)).
    assert (E : fexp 53 1024 (Zpos (digits2_pos mz) + ez) - ez = 0).
    { unfold fexp, emin. lia. }
    rewrite E. cbn [shr shr_record_of_loc shr_m loc_of_shr_record round_nearest_even].
    change (Zdigits2 (Z.pos mz)) with (Z.pos (digits2_pos mz)).
    rewrite E. cbn [shr shr_record_of_loc shr_m].
    destruct (ez <=? 1024 - 53) eqn:L; [reflexivity | apply Z.leb_gt in L; lia]. }
  destruct (Zpos (digits2_pos p) - 53 - 0) as [|q|q] eqn:Eq.
  - eexists _, _. apply Haux; lia.
  - lia.
  - eexists _, _. apply Haux.
    + rewrite digits2_pos_iter. lia.
    + lia.
Qed.

Lemma SFltb_zero_finite (m : positive) (e : Z) :
  SFltb (S754_zero false) (S754_finite false m e) = true.
Proof. reflexivity. Qed.

(** A whole number between 1 and 2^53 is a positive binary64 value. *)
Lemma of_Z_positive (n : Z) :
  0 < n < 2 ^ 53 -> exists m e, JSNumber.of_Z n = S754_finite false m e.
Proof.
  intros [H1 H2]. destruct n as [|p|p]; try lia.
  assert (E : JSNumber.of_Z (Z.pos p) = binary_round 53 1024 false p 0).
  { unfold JSNumber.of_Z, JSNumber.of_decimal. cbn [Z.abs Z.ltb Z.compare].
    replace (1 * (Z.pos p * 10 ^ 0)) with (Z.pos p) by (rewrite Z.pow_0_r; lia).
    reflexivity. }
  rewrite E. apply binary_round_small. exact H2.
Qed.

(** [l.length > 0] for an array or a string. *)
Lemma length_gt_0 (A : Type) (l : list A) :
  Z.of_nat (List.length l) < 2 ^ 53 ->
  gt_literal (JNumber (JSNumber.of_Z (Z.of_nat (List.length l)))) 0
  = Normal (match l with [] => false | _ => true end).
Proof.
  intros H. unfold gt_literal. simpl ToNumber. cbv beta iota delta [bind]. f_equal.
  destruct l as [|x l]; [reflexivity |].
  destruct (@of_Z_positive (Z.of_nat (List.length (x :: l)))) as [m [e ->]].
  - simpl List.length in *. lia.
  - reflexivity.
Qed.

End WholeNumbers.

(** ** LINE: requests, error messages and member ids *)

Section LineRequests.
Import Line LineMembers TestData Scenarios.

(** X11. Each method of [LineClient] that [invoke] covers makes at most
    one request, which does not depend on the answers of the platform,
    and throws when that request is rejected with anything but a
    response of status 404. With the request the method gives the header
    [Authorization: Bearer ] followed by the custom access token when one
    is given, and no header of its own when none is given ([undefined]):
    the request then goes out with the header that the constructor set
    on the instance, [Bearer ] followed by the access token of the
    client. A custom access token that is the empty string gives the
    header [Bearer ] with nothing after it, except for
    [uploadRichMenuImage] and [downloadRichMenuImage], which then give no
    header of their own either and go out with that of the constructor. *)
Theorem LineClient_one_request (Buffer_from : JSValue -> Completion JSValue)
    (imageType : JSValue -> option JSString) (c : Call)
    (customAccessToken : option JSString) (accessToken : JSString) :
  exists config,
    (forall axios axios' : RequestConfig -> Completion AxiosResponse,
       axios config = axios' config ->
       invoke axios Buffer_from imageType c customAccessToken
       = invoke axios' Buffer_from imageType c customAccessToken)
    /\ (forall (axios : RequestConfig -> Completion AxiosResponse) (e : JSError),
          axios config = Throw e -> is_404 e = false ->
          throws (invoke axios Buffer_from imageType c customAccessToken))
    /\ cfg_authorization config
       = match customAccessToken with
         | None => None
         | Some [] => if sends_binary c then None else Some (js "Bearer ")
         | Some token => Some (js "Bearer " ++ token)
         end
    /\ sent_authorization accessToken config
       = match customAccessToken with
         | None => js "Bearer " ++ accessToken
         | Some [] => if sends_binary c then js "Bearer " ++ accessToken else js "Bearer "
         | Some token => js "Bearer " ++ token
         end.
Proof.
  assert (Hguard : forall e, is_404 e = false -> throws (null_if_404 e)).
  { intros e H. unfold null_if_404. rewrite H. apply handleError_never_returns. }
  destruct c; eexists; (split; [intros axios axios' H | split; [intros axios e H H404 |]]);
    try (cbv beta iota zeta delta
           [invoke replyRawBody reply pushRawBody push multicastRawBody
            multicast retrieveMessageContent getUserProfile getGroupMemberProfile
            getRoomMemberProfile getGroupMemberIds getRoomMemberIds leaveGroup
            leaveRoom getRichMenuList getRichMenu createRichMenu deleteRichMenu
            getLinkedRichMenu linkRichMenu unlinkRichMenu getDefaultRichMenu
            setDefaultRichMenu deleteDefaultRichMenu uploadRichMenuImage
            downloadRichMenuImage issueLinkToken getLiffAppList createLiffApp
            updateLiffApp deleteLiffApp call];
         rewrite H; try reflexivity; cbn [then2 bind try_catch];
         first [ apply handleError_never_returns
               | apply Hguard; exact H404
               | idtac ]);
    try (unfold sent_authorization, default_authorization;
         destruct customAccessToken as [[|t ts] |]; split; reflexivity).
  - (* getUserProfile *)
    destruct (handleError_throws JSValue e) as [e1 [H1 R1]]. rewrite H1. cbn [try_catch].
    apply Hguard. destruct (is_404 e1) eqn:E1; [| reflexivity].
    rewrite (@is_404_response e e1 R1 E1) in H404. discriminate.
  - (* uploadRichMenuImage *)
    destruct (invariant _ _) as [[] | e0]; cbn [bind then2];
      [apply handleError_never_returns | exists e0; reflexivity].
Qed.

Lemma LineClient_one_request_witness :
  throws (invoke (fun _ => Throw bad_request) (fun v => Normal v) (fun _ => None)
                 (GetRichMenu (js "1")) (Some (js "custom")))
  /\ exists config,
       invoke (fun config' => if JSStr.eqb (cfg_url config') (cfg_url config)
                              then Throw bad_request else Throw not_found)
              (fun v => Normal v) (fun _ => None) (GetRichMenu (js "1")) None
       = invoke (fun _ => Throw bad_request) (fun v => Normal v) (fun _ => None)
                (GetRichMenu (js "1")) None
       /\ sent_authorization (js "stored") config = js "Bearer stored".
Proof.
  split.
  - destruct (@LineClient_one_request (fun v => Normal v) (fun _ => None)
                (GetRichMenu (js "1")) (Some (js "custom")) (js "stored"))
      as [config [_ [H _]]].
    apply (H (fun _ => Throw bad_request) bad_request eq_refl eq_refl).
  - destruct (@LineClient_one_request (fun v => Normal v) (fun _ => None)
                (GetRichMenu (js "1")) None (js "stored"))
      as [config [H [_ [_ Hs]]]].
    exists config. split; [| exact Hs].
    apply H. rewrite str_eqb_refl. reflexivity.
Defined.

Lemma append_details_lines (details : list JSValue) (lines : list JSString) :
  Forall2 detail_line details lines ->
  forall msg, append_details details msg = Normal (msg ++ List.concat lines).
Proof.
  induction 1 as [| d line ds ls Hd _ IH]; intros msg; simpl.
  - rewrite app_nil_r. reflexivity.
  - destruct Hd as [property [message [p [m [H1 [H2 [H3 [H4 ->]]]]]]]].
    rewrite H1. cbv beta iota delta [bind]. rewrite H2. cbv beta iota delta [bind].
    rewrite H3. cbv beta iota delta [bind]. rewrite H4. cbv beta iota delta [bind].
    rewrite IH. rewrite <- app_assoc. reflexivity.
Qed.

(** X12. The message of the error that [handleError] throws. Without a
    response, or with a response whose data is falsy, it is the message
    of the error given. Otherwise it is [LINE API - ] followed by the
    [message] of the data, and, when [details] is a non-empty array, by
    one line per detail with its property and its message. When
    [details] is a non-empty string, the call of [forEach] fails and
    what is thrown is a [TypeError], not an [AxiosError]. *)
Theorem handleError_message (A : Type) (err : JSError) :
  (err_response err = None
   \/ (exists response,
         err_response err = Some response /\ ToBoolean (res_data response) = false) ->
   @handleError A err = Throw (wrap_AxiosError (err_message err) err))
  /\ (forall response message m details,
        err_response err = Some response ->
        ToBoolean (res_data response) = true ->
        Get (res_data response) (js "message") = Normal message ->
        ToString message = Normal m ->
        Get (res_data response) (js "details") = Normal details ->
        (ToBoolean details = false \/ details = JArray [] ->
         @handleError A err = Throw (wrap_AxiosError (js "LINE API - " ++ m) err))
        /\ (forall ds lines,
              details = JArray ds -> ds <> [] ->
              (Z.of_nat (List.length ds) < 2 ^ 32)%Z ->
              Forall2 detail_line ds lines ->
              @handleError A err
              = Throw (wrap_AxiosError (js "LINE API - " ++ m ++ List.concat lines) err))
        /\ (forall s,
              details = JString s -> s <> [] ->
              (JSStr.length s < 2 ^ 32)%Z ->
              exists e, @handleError A err = Throw e /\ err_name e = TypeError)).
Proof.
  split.
  - unfold handleError. intros [-> | [response [-> ->]]]; reflexivity.
  - intros response message m details Hr Hd Hm Hs Hdet. unfold handleError.
    rewrite Hr, Hd, Hm. cbv beta iota delta [bind]. rewrite Hdet.
    cbv beta iota delta [bind]. rewrite Hs. cbv beta iota delta [bind].
    split; [| split].
    + intros [Hf | ->].
      * rewrite Hf. reflexivity.
      * reflexivity.
    + intros ds lines -> Hne Hlen Hlines.
      cbn [ToBoolean Get]. rewrite str_eqb_refl. cbv beta iota delta [bind].
      rewrite length_gt_0 by lia. destruct ds as [|d ds]; [contradiction |].
      rewrite (append_details_lines Hlines). rewrite <- app_assoc. reflexivity.
    + intros s -> Hne Hlen. destruct s as [|c s]; [contradiction |].
      cbn [ToBoolean Get]. rewrite str_eqb_refl. cbv beta iota delta [bind].
      unfold JSStr.length in *. rewrite length_gt_0 by lia.
      eexists. split; reflexivity.
Qed.

Lemma handleError_message_witness :
  @handleError JSValue bad_request
  = Throw (wrap_AxiosError
             (js "LINE API - The request body has 2 error(s)" ++ List.concat two_lines)
             bad_request).
Proof.
  destruct (handleError_message JSValue bad_request) as [_ H].
  destruct (H _ _ (js "The request body has 2 error(s)") _ eq_refl eq_refl eq_refl eq_refl
              eq_refl) as [_ [H2 _]].
  apply (H2 two_details two_lines eq_refl).
  - discriminate.
  - vm_compute. reflexivity.
  - repeat constructor; unfold detail_line; repeat eexists.
Defined.

(** X13. What the methods of [LineClient] give when the request is
    answered: the data of the response as it is, except that
    [getRichMenuList] and [getLiffAppList] give its property [richmenus]
    or [apps], and that [retrieveMessageContent] and
    [downloadRichMenuImage] give the buffer made of it; only in
    [downloadRichMenuImage] does a failure to make the buffer reach the
    handler of rejections. [uploadRichMenuImage] first checks the type of the image and makes
    no request for one that is neither JPEG nor PNG. When the data is
    [null], [getRichMenuList] and [getLiffAppList] throw a [TypeError]
    that [handleError] does not see. *)
Theorem LineClient_answered (Buffer_from : JSValue -> Completion JSValue)
    (imageType : JSValue -> option JSString) (c : Call)
    (customAccessToken : option JSString) (res : AxiosResponse) :
  invoke (fun _ => Normal res) Buffer_from imageType c customAccessToken
  = match c with
    | GetRichMenuList => Get (res_data res) (js "richmenus")
    | GetLiffAppList => Get (res_data res) (js "apps")
    | RetrieveMessageContent _ => Buffer_from (res_data res)
    | DownloadRichMenuImage _ => try_catch (Buffer_from (res_data res)) null_if_404
    | UploadRichMenuImage _ image =>
        match imageType image with
        | Some mime =>
            if JSStr.eqb mime (js "image/jpeg") || JSStr.eqb mime (js "image/png")
            then Normal (res_data res)
            else Throw (plain_error InvariantViolation
                          "Image must be `image/jpeg` or `image/png`")
        | None => Throw (plain_error InvariantViolation
                           "Image must be `image/jpeg` or `image/png`")
        end
    | _ => Normal (res_data res)
    end
  /\ (res_data res = JNull ->
      (c = GetRichMenuList \/ c = GetLiffAppList) ->
      exists e,
        invoke (fun _ => Normal res) Buffer_from imageType c customAccessToken = Throw e
        /\ err_name e = TypeError).
Proof.
  split.
  - destruct c; try reflexivity.
    cbv beta iota zeta delta [invoke uploadRichMenuImage].
    destruct (imageType image) as [mime |]; [| reflexivity].
    destruct (JSStr.eqb mime (js "image/jpeg") || JSStr.eqb mime (js "image/png"));
      reflexivity.
  - intros Hnull [-> | ->];
      cbv beta iota delta [invoke getRichMenuList getLiffAppList call then2];
      rewrite Hnull; eexists; split; reflexivity.
Qed.

Lemma LineClient_answered_witness :
  exists e,
    invoke (fun _ => Normal (line_reply JNull)) (fun v => Normal v) (fun _ => None)
           GetRichMenuList None = Throw e
    /\ err_name e = TypeError.
Proof.
  apply (LineClient_answered (fun v => Normal v) (fun _ => None) GetRichMenuList None
           (line_reply JNull)); [reflexivity | left; reflexivity].
Defined.

(** X14. [getAllGroupMemberIds] and [getAllRoomMemberIds] end exactly
    when their requests form a run: pages with a truthy [next], each
    asked for with the [next] of the page before it, followed by a
    rejection or by a page without one; they then give the rejection, or
    the member ids of all the pages in the order of the requests. The
    first request is that of [getGroupMemberIds] without a start, and a
    request at a token that is a string is that of [getGroupMemberIds]
    with this start. *)
Theorem getAllMemberIds_runs (axios : RequestConfig -> Completion AxiosResponse)
    (id : JSString) (customAccessToken : option JSString) (fuel : nat)
    (r : Completion (list JSValue)) :
  (getAllGroupMemberIds axios fuel id customAccessToken = Some r <->
   exists pages last,
     List.length pages < fuel
     /\ pages_then
          (fun token =>
             data <- getGroupMemberIds_at axios id token customAccessToken ;;
             member_page data)
          JUndefined pages last
     /\ r = collected [] pages last)
  /\ (getAllRoomMemberIds axios fuel id customAccessToken = Some r <->
      exists pages last,
        List.length pages < fuel
        /\ pages_then
             (fun token =>
                data <- getRoomMemberIds_at axios id token customAccessToken ;;
                member_page data)
             JUndefined pages last
        /\ r = collected [] pages last)
  /\ getGroupMemberIds_at axios id JUndefined customAccessToken
     = getGroupMemberIds axios id None customAccessToken
  /\ getRoomMemberIds_at axios id JUndefined customAccessToken
     = getRoomMemberIds axios id None customAccessToken
  /\ (forall start,
        getGroupMemberIds_at axios id (JString start) customAccessToken
        = getGroupMemberIds axios id (Some start) customAccessToken
        /\ getRoomMemberIds_at axios id (JString start) customAccessToken
           = getRoomMemberIds axios id (Some start) customAccessToken).
Proof.
  split; [apply do_while_run |]. split; [apply do_while_run |].
  split; [reflexivity |]. split; [reflexivity |].
  intros [|c start]; split; reflexivity.
Qed.

Lemma getAllMemberIds_runs_witness :
  getAllGroupMemberIds group_members 2 (js "G1") None
  = Some (Normal [str "U1"; str "U2"; str "U3"]).
Proof.
  apply (proj1 (@getAllMemberIds_runs group_members (js "G1") None 2
                  (Normal [str "U1"; str "U2"; str "U3"]))).
  exists [first_ids], (Normal last_ids).
  split; [simpl; lia |]. split; [| reflexivity].
  simpl. repeat split.
Defined.

End LineRequests.

(** ** Messenger: quick replies, media and templates *)

Section MessengerBuildersProperties.
Import Messenger MessengerBuilders TestData Scenarios.

Lemma forEach_throws_inv (A : Type) (f : A -> Completion unit) (l : list A) (e : JSError) :
  forEach l f = Throw e -> exists x, In x l /\ f x = Throw e.
Proof.
  induction l as [|a r IH]; simpl; [discriminate |].
  destruct (f a) as [[] | e0] eqn:E; simpl.
  - intros H. destruct (IH H) as [x [Hx Hf]]. exists x. auto.
  - intros H. injection H as <-. exists a. auto.
Qed.

(** X15. [validateQuickReplies] returns exactly when there are at most
    11 quick replies and every quick reply of type text has a title and
    a payload that pass; quick replies of other types are not looked at.
    The number is checked first: more than 11 quick replies give the
    error about the number whatever they hold. Everything it throws is
    an invariant violation. *)
Theorem validateQuickReplies_iff (quickReplies : list QuickReply) :
  (validateQuickReplies quickReplies = Normal tt <->
   (Z.of_nat (List.length quickReplies) <= 11)%Z
   /\ forall q, In q quickReplies -> content_type q = js "text" ->
                title_ok (title q) = true /\ payload_ok (payload q) = true)
  /\ ((11 < Z.of_nat (List.length quickReplies))%Z ->
      validateQuickReplies quickReplies
      = Throw (plain_error InvariantViolation
                 "quick_replies is an array and limited to 11"))
  /\ (forall e, validateQuickReplies quickReplies = Throw e ->
                err_name e = InvariantViolation).
Proof.
  split; [| split].
  - split.
    + intros H. assert (Hlen : (Z.of_nat (List.length quickReplies) <= 11)%Z).
      { destruct (Z_le_gt_dec (Z.of_nat (List.length quickReplies)) 11) as [L | L];
          [exact L |].
        destruct (@validateQuickReplies_too_many quickReplies ltac:(lia)) as [e He].
        congruence. }
      split; [exact Hlen |]. intros q Hin Hct.
      destruct (title_ok (title q)) eqn:Et; destruct (payload_ok (payload q)) eqn:Ep;
        try (split; reflexivity);
        (destruct (@validateQuickReplies_bad_text quickReplies q Hin Hct) as [e He];
         [auto | congruence]).
    + intros [Hlen Hq]. apply validateQuickReplies_returns; assumption.
  - intros H. unfold validateQuickReplies. apply Z.leb_gt in H. rewrite H. reflexivity.
  - intros e. unfold validateQuickReplies.
    destruct (Z.of_nat (List.length quickReplies) <=? 11)%Z; simpl.
    + intros H. apply forEach_throws_inv in H. destruct H as [q [_ H]].
      destruct (JSStr.eqb (content_type q) (js "text")); [| discriminate].
      destruct (title_ok (title q)); simpl in H.
      * destruct (payload_ok (payload q)); simpl in H; [discriminate |].
        injection H as <-. reflexivity.
      * injection H as <-. reflexivity.
    + intros H. injection H as <-. reflexivity.
Qed.

Lemma createMessage_cases (msg : Message) (options : Options) :
  match options_quick_replies options with
  | Some (q :: qs) =>
      createMessage msg options
      = (validateQuickReplies (q :: qs) ;;;
         Normal {| text := text msg; attachment := attachment msg;
                   quick_replies := Some (q :: qs) |})%js
  | _ => createMessage msg options = Normal msg
  end.
Proof.
  unfold createMessage. destruct (options_quick_replies options) as [[|q qs] |]; reflexivity.
Qed.

Lemma validate_then_throws (A : Type) (qs : list QuickReply) (a : A) :
  throws (validateQuickReplies qs ;;; Normal a)%js <-> throws (validateQuickReplies qs).
Proof.
  destruct (validateQuickReplies qs) as [[] | e]; simpl; split; intros [e' H];
    try discriminate; exists e'; congruence.
Qed.

(** X16. [createText] and [createAttachment] throw exactly when the
    options have a non-empty array of quick replies that
    [validateQuickReplies] rejects. Otherwise [createText] returns a
    message with the text and no attachment, [createAttachment] one with
    the attachment and no text, and both with the quick replies of the
    options when these are a non-empty array and with none otherwise. *)
Theorem createText_createAttachment (t : JSString) (att : JSValue) (options : Options) :
  (throws (createText t options) <->
   exists q qs,
     options_quick_replies options = Some (q :: qs)
     /\ throws (validateQuickReplies (q :: qs)))
  /\ (throws (createAttachment att options) <->
      exists q qs,
        options_quick_replies options = Some (q :: qs)
        /\ throws (validateQuickReplies (q :: qs)))
  /\ (forall m,
        createText t options = Normal m ->
        m = {| text := Some t; attachment := None;
               quick_replies := match options_quick_replies options with
                                | Some (q :: qs) => Some (q :: qs)
                                | _ => None
                                end |})
  /\ (forall m,
        createAttachment att options = Normal m ->
        m = {| text := None; attachment := Some att;
               quick_replies := match options_quick_replies options with
                                | Some (q :: qs) => Some (q :: qs)
                                | _ => None
                                end |}).
Proof.
  assert (H : forall msg : Message,
            quick_replies msg = None ->
            (throws (createMessage msg options) <->
             exists q qs,
               options_quick_replies options = Some (q :: qs)
               /\ throws (validateQuickReplies (q :: qs)))
            /\ forall m, createMessage msg options = Normal m ->
                 m = {| text := text msg; attachment := attachment msg;
                        quick_replies := match options_quick_replies options with
                                         | Some (q :: qs) => Some (q :: qs)
                                         | _ => None
                                         end |}).
  { intros msg Hq. pose proof (createMessage_cases msg options) as H.
    destruct msg as [mt ma mq]. simpl in Hq. subst mq.
    destruct (options_quick_replies options) as [[|q qs] |]; rewrite H; split.
    - split; [intros [e He]; discriminate | intros [q [qs [Hx _]]]; discriminate].
    - intros m Hm. injection Hm as <-. reflexivity.
    - rewrite validate_then_throws. split.
      + intros Ht. exists q, qs. auto.
      + intros [q' [qs' [Hx Ht]]]. injection Hx as <- <-. exact Ht.
    - intros m. destruct (validateQuickReplies (q :: qs)) as [[] | e]; simpl;
        [| discriminate].
      intros Hm. injection Hm as <-. reflexivity.
    - split; [intros [e He]; discriminate | intros [q [qs [Hx _]]]; discriminate].
    - intros m Hm. injection Hm as <-. reflexivity. }
  unfold createText, createAttachment.
  split; [apply H; reflexivity |]. split; [apply H; reflexivity |].
  split; apply H; reflexivity.
Qed.

(** X17. [createAudio], [createImage], [createVideo] and [createFile]
    throw exactly when the options have quick replies that
    [validateQuickReplies] rejects. For a string they return a message
    whose attachment has the type of the builder and the string as
    [url] of its payload; for a plain object, the object as payload;
    for anything else, a form with the fields [message] and [filedata].
    The message of the form takes the [quick_replies] of the options
    whenever they are set, also when they are empty; the message
    returned for a string or an object takes them only when they are not
    empty. *)
Theorem media_builders_results (FileData : Type) (JSON_stringify : Message -> JSString)
    (create : Media FileData -> Options -> Completion (Message + FormData FileData))
    (type : JSString) (options : Options) :
  In (create, type) (media_builders FileData JSON_stringify) ->
  (forall media,
     throws (create media options) <->
     exists quickReplies,
       options_quick_replies options = Some quickReplies
       /\ throws (validateQuickReplies quickReplies))
  /\ (forall media r,
        create media options = Normal r ->
        match media with
        | MediaUrl url =>
            r = inl {| text := None;
                       attachment :=
                         Some (JObject [(js "type", JString type);
                                        (js "payload", JObject [(js "url", JString url)])]);
                       quick_replies := match options_quick_replies options with
                                        | Some (q :: qs) => Some (q :: qs)
                                        | _ => None
                                        end |}
        | MediaPayload payload =>
            r = inl {| text := None;
                       attachment :=
                         Some (JObject [(js "type", JString type);
                                        (js "payload", JObject payload)]);
                       quick_replies := match options_quick_replies options with
                                        | Some (q :: qs) => Some (q :: qs)
                                        | _ => None
                                        end |}
        | MediaFile file =>
            r = inr [ {| field_name := js "message";
                         field_value :=
                           TextValue
                             (JSON_stringify
                                {| text := None;
                                   attachment :=
                                     Some (JObject [(js "type", JString type);
                                                    (js "payload", JObject [])]);
                                   quick_replies := options_quick_replies options |});
                         field_options := None |};
                      {| field_name := js "filedata";
                         field_value := FileValue file;
                         field_options := Some {| options_quick_replies := None |} |} ]
        end).
Proof.
  intros Hin.
  assert (Hc : forall att : JSValue,
            (throws (createAttachment att options) <->
             exists quickReplies,
               options_quick_replies options = Some quickReplies
               /\ throws (validateQuickReplies quickReplies))
            /\ forall m, createAttachment att options = Normal m ->
                 m = {| text := None; attachment := Some att;
                        quick_replies := match options_quick_replies options with
                                         | Some (q :: qs) => Some (q :: qs)
                                         | _ => None
                                         end |}).
  { intros att. unfold createAttachment.
    pose proof (createMessage_cases
                  {| text := None; attachment := Some att; quick_replies := None |} options)
      as H.
    destruct (options_quick_replies options) as [[|q qs] |]; rewrite H; split.
    - split; [intros [e He]; discriminate |].
      intros [x [Hx [e He]]]. injection Hx as <-. discriminate.
    - intros m Hm. injection Hm as <-. reflexivity.
    - rewrite validate_then_throws. split.
      + intros Ht. exists (q :: qs). auto.
      + intros [x [Hx Ht]]. injection Hx as <-. exact Ht.
    - intros m. destruct (validateQuickReplies (q :: qs)) as [[] | e]; simpl;
        [| discriminate].
      intros Hm. injection Hm as <-. reflexivity.
    - split; [intros [e He]; discriminate | intros [x [Hx _]]; discriminate].
    - intros m Hm. injection Hm as <-. reflexivity. }
  assert (Hf : forall (att : JSValue) (file : FileData),
            (throws (createAttachmentFormData JSON_stringify att file options) <->
             exists quickReplies,
               options_quick_replies options = Some quickReplies
               /\ throws (validateQuickReplies quickReplies))
            /\ forall f, createAttachmentFormData JSON_stringify att file options = Normal f ->
                 f = [ {| field_name := js "message";
                          field_value :=
                            TextValue
                              (JSON_stringify
                                 {| text := None; attachment := Some att;
                                    quick_replies := options_quick_replies options |});
                          field_options := None |};
                       {| field_name := js "filedata";
                          field_value := FileValue file;
                          field_options := Some {| options_quick_replies := None |} |} ]).
  { intros att file. unfold createAttachmentFormData, createMessageFormData.
    destruct (options_quick_replies options) as [qs |]; cbn [text attachment].
    - destruct (validateQuickReplies qs) as [[] | e] eqn:Ev; simpl; split.
      + split; [intros [e He]; discriminate |].
        intros [x [Hx [e He]]]. injection Hx as <-. congruence.
      + intros f H. injection H as <-. reflexivity.
      + split; [intros _; exists qs; split; [reflexivity | exists e; exact Ev] |].
        intros _. exists e. reflexivity.
      + discriminate.
    - simpl. split.
      + split; [intros [e He]; discriminate | intros [x [Hx _]]; discriminate].
      + intros f H. injection H as <-. reflexivity. }
  assert (Hbind : forall (A B : Type) (c : Completion A) (g : A -> B),
            (throws (x <- c ;; Normal (g x))%js <-> throws c)
            /\ forall r, (x <- c ;; Normal (g x))%js = Normal r ->
                         exists a, c = Normal a /\ r = g a).
  { intros A B c g. destruct c as [a | e]; simpl; split.
    - split; intros [e He]; discriminate.
    - intros r H. injection H as <-. exists a. auto.
    - split; intros _; exists e; reflexivity.
    - discriminate. }
  simpl in Hin.
  destruct Hin as [H | [H | [H | [H | []]]]]; injection H as <- <-; split;
    try (intros [url | payload | file];
         cbv beta iota delta [createAudio createImage createVideo createFile];
         rewrite (proj1 (Hbind _ _ _ _)); first [apply Hc | apply Hf]);
    intros [url | payload | file] r Hr;
    cbv beta iota delta [createAudio createImage createVideo createFile] in Hr;
    apply (proj2 (Hbind _ _ _ _)) in Hr; destruct Hr as [a [Ha ->]];
    first [apply Hc in Ha | apply Hf in Ha]; rewrite Ha; reflexivity.
Qed.

Lemma media_builders_results_witness :
  createImage replies_text (MediaFile [255; 216; 255]%N) no_replies
  = Normal (inr [ {| field_name := js "message";
                     field_value := TextValue (quoted "{'quick_replies':[]}");
                     field_options := None |};
                  {| field_name := js "filedata";
                     field_value := FileValue [255; 216; 255]%N;
                     field_options := Some {| options_quick_replies := None |} |} ])
  /\ createImage replies_text (@MediaUrl (list N) (js "https://example.com/a.png")) no_replies
     = Normal (inl {| text := None;
                      attachment :=
                        Some (JObject [(js "type", JString (js "image"));
                                       (js "payload",
                                        JObject [(js "url",
                                                  JString (js "https://example.com/a.png"))])]);
                      quick_replies := None |}).
Proof.
  assert (Hin : In (createImage replies_text, js "image")
                   (media_builders (list N) replies_text)).
  { right. left. reflexivity. }
  destruct (@media_builders_results _ _ _ _ no_replies Hin) as [_ H].
  split.
  - destruct (createImage replies_text (MediaFile [255; 216; 255]%N) no_replies)
      as [r | e] eqn:E; [| discriminate E].
    rewrite (H _ _ E). reflexivity.
  - destruct (createImage replies_text (@MediaUrl (list N) (js "https://example.com/a.png"))
                no_replies) as [r | e] eqn:E; [| discriminate E].
    rewrite (H _ _ E). reflexivity.
Defined.

(** X18. Every builder of a template returns a message without text
    whose attachment has the type [template] and a payload, and throws
    exactly when the options have a non-empty array of quick replies
    that [validateQuickReplies] rejects. The [template_type] of the
    payload is that of the builder, except that the builders of receipt
    and airline templates, which spread the attributes after it, let a
    [template_type] among the attributes replace it. *)
Theorem build_template (c : TemplateCall) :
  exists payload,
    build c = createTemplate payload {| options_quick_replies := quick_replies_of c |}
    /\ (Obj.has (attributes_of c) (js "template_type") = false ->
        Obj.get payload (js "template_type") = Some (JString (template_type_of c)))
    /\ (Obj.has (attributes_of c) (js "template_type") = true ->
        exists v, In (js "template_type", v) (attributes_of c)
                  /\ Obj.get payload (js "template_type") = Some v)
    /\ (throws (build c) <->
        exists q qs,
          quick_replies_of c = Some (q :: qs) /\ throws (validateQuickReplies (q :: qs)))
    /\ (forall m,
          build c = Normal m ->
          text m = None
          /\ attachment m = Some (JObject [(js "type", JString (js "template"));
                                           (js "payload", JObject payload)])).
Proof.
  assert (Hspread : forall (kind : JSString) (attrs : Props),
            (Obj.has attrs (js "template_type") = false ->
             Obj.get (spread [(js "template_type", JString kind)] attrs)
                     (js "template_type") = Some (JString kind))
            /\ (Obj.has attrs (js "template_type") = true ->
                exists v, In (js "template_type", v) attrs
                          /\ Obj.get (spread [(js "template_type", JString kind)] attrs)
                                     (js "template_type") = Some v)).
  { intros kind attrs. unfold spread. rewrite fold_set_get. split.
    - intros H. destruct (Obj.get (rev attrs) (js "template_type")) as [v |] eqn:E;
        [| reflexivity].
      apply get_In, in_rev in E. rewrite ?rev_involutive in E.
      assert (Hk : Obj.has attrs (js "template_type") = true).
      { apply has_keys. change (js "template_type") with (fst (js "template_type", v)).
        apply in_map. exact E. }
      congruence.
    - intros H. apply has_keys in H. rewrite in_rev, <- map_rev in H.
      destruct (Obj.get (rev attrs) (js "template_type")) as [v |] eqn:E.
      + exists v. split; [| reflexivity]. apply get_In in E. apply in_rev. exact E.
      + apply get_None_keys in E. contradiction. }
  assert (Hm : forall (payload : Props) (options : Options),
            (throws (createTemplate payload options) <->
             exists q qs,
               options_quick_replies options = Some (q :: qs)
               /\ throws (validateQuickReplies (q :: qs)))
            /\ forall m, createTemplate payload options = Normal m ->
                 text m = None
                 /\ attachment m = Some (JObject [(js "type", JString (js "template"));
                                                  (js "payload", JObject payload)])).
  { intros payload options. unfold createTemplate, createAttachment.
    match goal with
    | |- context [createMessage ?msg options] => pose proof (createMessage_cases msg options) as H
    end.
    destruct (options_quick_replies options) as [[|q qs] |]; rewrite H; split.
    - split; [intros [e He]; discriminate | intros [q [qs [Hq _]]]; discriminate].
    - intros m Hm. injection Hm as <-. auto.
    - rewrite validate_then_throws. split.
      + intros Ht. exists q, qs. auto.
      + intros [q' [qs' [Hq Ht]]]. injection Hq as <- <-. exact Ht.
    - intros m. destruct (validateQuickReplies (q :: qs)) as [[] | e]; simpl;
        [| discriminate].
      intros Hm. injection Hm as <-. auto.
    - split; [intros [e He]; discriminate | intros [q [qs [Hq _]]]; discriminate].
    - intros m Hm. injection Hm as <-. auto. }
  destruct c as [t b o | e o | e b o | e o | e o | a o | a o | a o | a o | a o];
    eexists; (split; [reflexivity |]);
    (split; [first [intros _; reflexivity | apply Hspread] |]);
    (split; [first [intros H; discriminate H | apply Hspread] |]);
    try (destruct o as [qr]); apply Hm.
Qed.

End MessengerBuildersProperties.
